(** * pricing_schedule_check.py: a shallow embedding and its properties

    The script audits the [PricingSchedule] configuration value of charging
    stations, records the stations that deviate in a ledger file
    ([ODD_ONES_FILE]), applies corrective writes, and checkpoints sweeps over
    all accounts of an organisation in a progress file ([PROGRESS_FILE]).

    Conventions of the embedding:
    - a Python [str] is a string whose characters are the code points 0 to
      255, one character of the model for each; text with other characters
      is outside the model;
    - values decoded from JSON are terms of [json]; a number carries the
      exact rational value of the Python [int] or [float] it was decoded to;
    - a Python [dict] is an association list in insertion order (iteration
      order is observable in [update_odd_ones_status]);
    - an uncaught Python exception is the outcome [Raise], [sys.exit] is the
      outcome [Exit];
    - the outside world (remote API, operator, clock) is an abstract state
      [Env] with one transition per kind of external call;
    - console output is not modelled, and writing a file always succeeds. *)

From Stdlib Require Import String Ascii List Bool Arith ZArith QArith Lia.
From Stdlib Require Import Sorted Permutation.
Import ListNotations.

Set Warnings "-register-all".
Local Close Scope Q_scope.
Local Open Scope nat_scope.
Local Open Scope string_scope.
Local Open Scope list_scope.

(** ** Python values and dictionaries *)

Inductive json : Type :=
| JNull
| JBool (b : bool)
| JNum (q : Q)
| JStr (s : string)
| JArr (l : list json)
| JObj (d : list (string * json)).

(** Exceptions that the script can meet on decoded data. *)
Inductive pyexn : Type :=
| AttributeError
| TypeError
| KeyError
| JSONDecodeError.

Inductive res (A : Type) : Type :=
| Ok (a : A)
| Err (e : pyexn).
Arguments Ok {A} a.
Arguments Err {A} e.

Definition res_bind {A B} (r : res A) (k : A -> res B) : res B :=
  match r with
  | Ok a => k a
  | Err e => Err e
  end.

Declare Scope res_scope.
Delimit Scope res_scope with res.
Notation "x <-? r ; k" := (res_bind r (fun x => k))
  (at level 61, r at next level, right associativity) : res_scope.

(** A [dict] with string keys, in insertion order. *)
Definition pydict (A : Type) : Type := list (string * A).

Fixpoint dict_lookup {A} (k : string) (d : pydict A) : option A :=
  match d with
  | [] => None
  | (k', v) :: d' => if String.eqb k k' then Some v else dict_lookup k d'
  end.

Definition dict_has {A} (k : string) (d : pydict A) : bool :=
  match dict_lookup k d with Some _ => true | None => false end.

Definition dict_keys {A} (d : pydict A) : list string := map fst d.

(** [d[k] = v]: an existing key keeps its position, a new key goes last. *)
Fixpoint dict_set {A} (k : string) (v : A) (d : pydict A) : pydict A :=
  match d with
  | [] => [(k, v)]
  | (k', v') :: d' =>
      if String.eqb k k' then (k, v) :: d' else (k', v') :: dict_set k v d'
  end.

(** [del d[k]]. *)
Definition dict_del {A} (k : string) (d : pydict A) : pydict A :=
  filter (fun kv => negb (String.eqb k (fst kv))) d.

(** [d.get(k, default)] on a decoded object. *)
Definition obj_get (d : pydict json) (k : string) (default : json) : json :=
  match dict_lookup k d with Some v => v | None => default end.

(** [v.get(k, default)] on an arbitrary value: only a [dict] has [get]. *)
Definition py_get (v : json) (k : string) (default : json) : res json :=
  match v with
  | JObj d => Ok (obj_get d k default)
  | _ => Err AttributeError
  end.

(** Truth value of a decoded value ([if v], [not v]). *)
Definition truthy (v : json) : bool :=
  match v with
  | JNull => false
  | JBool b => b
  | JNum q => negb (Qeq_bool q 0)
  | JStr s => negb (String.eqb s "")
  | JArr l => match l with [] => false | _ => true end
  | JObj d => match d with [] => false | _ => true end
  end.

Fixpoint chars (s : string) : list json :=
  match s with
  | EmptyString => []
  | String c s' => JStr (String c EmptyString) :: chars s'
  end.

(** [for x in v]: lists yield their items, dicts their keys, strings their
    characters; anything else is not iterable. *)
Definition py_iter (v : json) : res (list json) :=
  match v with
  | JArr l => Ok l
  | JObj d => Ok (map JStr (dict_keys d))
  | JStr s => Ok (chars s)
  | _ => Err TypeError
  end.

(** [v.values()]: only a [dict] has it. *)
Definition py_values (v : json) : res (list json) :=
  match v with
  | JObj d => Ok (map snd d)
  | _ => Err AttributeError
  end.

(** The text on which a method of [str] is called ([v.startswith],
    [v.lower]): no other decoded value has these methods. *)
Definition py_text (v : json) : res string :=
  match v with
  | JStr s => Ok s
  | _ => Err AttributeError
  end.

(** [v == x] for a number [x]: Python compares [int], [float] and [bool]
    by value, and nothing else equals a number. *)
Definition py_eq_num (v : json) (x : Q) : bool :=
  match v with
  | JNum q => Qeq_bool q x
  | JBool b => Qeq_bool (if b then 1 else 0)%Q x
  | _ => false
  end.

(** [v == s] for a string [s]. *)
Definition py_eq_str (v : json) (s : string) : bool :=
  match v with
  | JStr s' => String.eqb s' s
  | _ => false
  end.

(** ** Schedule classification *)

Definition expected_f_default : Q := (1 # 2)%Q.

Definition mismatch (t f : json) : json := JObj [("t", t); ("f", f)].

(** The loop of [check_schedule_values]; [mismatches] is the list built so
    far. *)
Fixpoint check_schedule_loop (entries : list json) (expected_f : Q)
    (mismatches : list json) : res (list json) :=
  match entries with
  | [] => Ok mismatches
  | entry :: rest =>
      (t <-? py_get entry "t" JNull;
       f <-? py_get entry "f" JNull;
       if negb (py_eq_num f expected_f)
       then check_schedule_loop rest expected_f (mismatches ++ [mismatch t f])
       else check_schedule_loop rest expected_f mismatches)%res
  end.

(** [check_schedule_values(schedule, expected_f)]: the verdict is [None]
    (indeterminate), [Some true] (conforming) or [Some false] (deviating). *)
Definition check_schedule_values (schedule : json) (expected_f : Q)
    : res (option bool * list json) :=
  if negb (truthy schedule) then Ok (None, [])
  else
    (entries <-? py_iter schedule;
     mismatches <-? check_schedule_loop entries expected_f [];
     Ok (Some (Nat.eqb (length mismatches) 0), mismatches))%res.

(** ** Strings *)

(** White space as [str.split()] and [str.strip()] see it, among the
    characters below 256: the code points 9 to 13, 28 to 32, U+0085 and
    U+00A0. *)
Definition is_space (c : ascii) : bool :=
  let n := nat_of_ascii c in
  (Nat.leb 9 n && Nat.leb n 13) || (Nat.leb 28 n && Nat.leb n 32)
  || Nat.eqb n 133 || Nat.eqb n 160.

Definition hyphen : ascii := "-"%char.

(** [s.replace(old, new)] for single characters. *)
Fixpoint replace_char (old new : ascii) (s : string) : string :=
  match s with
  | EmptyString => EmptyString
  | String c s' =>
      String (if Ascii.eqb c old then new else c) (replace_char old new s')
  end.

(** [sep.join(parts)]. *)
Fixpoint join (sep : string) (parts : list string) : string :=
  match parts with
  | [] => ""
  | [p] => p
  | p :: rest => (p ++ sep ++ join sep rest)%string
  end.

(** [s.split()]: maximal runs of non-space characters; [cur] is the run
    read so far. *)
Fixpoint split_ws_from (cur : string) (s : string) : list string :=
  match s with
  | EmptyString => if String.eqb cur "" then [] else [cur]
  | String c s' =>
      if is_space c
      then (if String.eqb cur "" then split_ws_from "" s'
            else cur :: split_ws_from "" s')
      else split_ws_from (cur ++ String c "")%string s'
  end.

Definition split_ws (s : string) : list string := split_ws_from "" s.

(** [s.split(sep)] for a one-character separator: empty fields are kept. *)
Fixpoint split_on_from (sep : ascii) (cur : string) (s : string) : list string :=
  match s with
  | EmptyString => [cur]
  | String c s' =>
      if Ascii.eqb c sep then cur :: split_on_from sep "" s'
      else split_on_from sep (cur ++ String c "")%string s'
  end.

Definition split_on (sep : ascii) (s : string) : list string :=
  split_on_from sep "" s.

Fixpoint lstrip (s : string) : string :=
  match s with
  | EmptyString => EmptyString
  | String c s' => if is_space c then lstrip s' else s
  end.

Fixpoint rstrip (s : string) : string :=
  match s with
  | EmptyString => EmptyString
  | String c s' =>
      let r := rstrip s' in
      if is_space c && String.eqb r "" then "" else String c r
  end.

Definition strip (s : string) : string := lstrip (rstrip s).

(** The lower case of a character below 256: the letters [A] to [Z] and
    the capital letters U+00C0 to U+00DE, the sign U+00D7 apart. *)
Definition lower_char (c : ascii) : ascii :=
  let n := nat_of_ascii c in
  if (Nat.leb 65 n && Nat.leb n 90)
     || (Nat.leb 192 n && Nat.leb n 222 && negb (Nat.eqb n 215))
  then ascii_of_nat (n + 32) else c.

(** [s.lower()]. *)
Fixpoint lower (s : string) : string :=
  match s with
  | EmptyString => EmptyString
  | String c s' => String (lower_char c) (lower s')
  end.

(** [s.startswith(p)]. *)
Definition startswith (s p : string) : bool := String.prefix p s.

(** [needle in s]. *)
Fixpoint contains (needle s : string) : bool :=
  String.prefix needle s ||
  match s with
  | EmptyString => false
  | String _ s' => contains needle s'
  end.

(** Truth value of an optional string: [None] and [""] are false. *)
Definition truthy_str (o : option string) : bool :=
  match o with
  | None => false
  | Some s => negb (String.eqb s "")
  end.

(** How an f-string renders an optional string. *)
Definition fmt (o : option string) : string :=
  match o with
  | Some s => s
  | None => "None"
  end.

(** ** PFID parsing *)

Record pfid_info : Type := mk_pfid_info {
  acn : option string;
  acc : option string;
  acg : option string;
  acs : option string;
  mode : option string
}.

(** The normalised tokens of [parse_pfid_input]. *)
Definition pfid_parts (args : list string) : list string :=
  let combined := join " " args in
  map strip
    (filter (fun part => negb (String.eqb (strip part) ""))
       (split_ws (replace_char hyphen " "%char combined))).

Definition parse_pfid_input (args : list string) : pfid_info :=
  let parts := pfid_parts args in
  let result := mk_pfid_info None None None None None in
  let result :=
    if Nat.leb 1 (length parts)
    then mk_pfid_info (nth_error parts 0) (acc result) (acg result)
           (acs result) (Some "acn-only")
    else result in
  let result :=
    if Nat.leb 2 (length parts)
    then mk_pfid_info (acn result) (nth_error parts 1) (acg result)
           (acs result) (Some "acn-acc")
    else result in
  let result :=
    if Nat.leb 3 (length parts)
    then mk_pfid_info (acn result) (acc result) (nth_error parts 2)
           (acs result) (Some "acn-acc-acg")
    else result in
  let result :=
    if Nat.leb 4 (length parts)
    then mk_pfid_info (acn result) (acc result) (acg result)
           (nth_error parts 3) (Some "acn-acc-acg-acs")
    else result in
  result.

(** [build_pfid_prefix]: joining fails with [TypeError] when [acn] is
    [None]. *)
Definition build_pfid_prefix (acn : option string)
    (acc acg acs : option string) : res string :=
  match acn with
  | None => Err TypeError
  | Some acn =>
      let parts := [acn] in
      let parts := if truthy_str acc then parts ++ [fmt acc] else parts in
      let parts := if truthy_str acg then parts ++ [fmt acg] else parts in
      let parts := if truthy_str acs then parts ++ [fmt acs] else parts in
      Ok (join "-" parts)
  end.

Definition is_none {A} (o : option A) : bool :=
  match o with None => true | Some _ => false end.

Definition opt_str_eqb (o : option string) (s : string) : bool :=
  match o with Some s' => String.eqb s' s | None => false end.

(** [get_site_key]: the first branch returns [acn_id] itself, which may be
    [None]. *)
Definition get_site_key (acn_id acc_id acg_id acs_id mode : option string)
    : option string :=
  if opt_str_eqb mode "acn-only"
     || (is_none acc_id && is_none acg_id && is_none acs_id)
  then acn_id
  else if opt_str_eqb mode "acn-acc" || (is_none acg_id && is_none acs_id)
  then Some (fmt acn_id ++ "-" ++ fmt acc_id)%string
  else if opt_str_eqb mode "acn-acc-acg" || is_none acs_id
  then Some (fmt acn_id ++ "-" ++ fmt acc_id ++ "-" ++ fmt acg_id)%string
  else Some (fmt acn_id ++ "-" ++ fmt acc_id ++ "-" ++ fmt acg_id
             ++ "-" ++ fmt acs_id)%string.

(** ** Data model *)

(** One element of the result list of [process_stations]. *)
Record scan_result : Type := mk_scan_result {
  r_pfid : string;
  r_acn_id : option string;
  r_acc_id : option string;
  r_acg_id : option string;
  r_acs_id : option string;
  r_schedule : json;
  r_enabled : bool;
  r_all_correct : option bool;
  r_mismatches : list json
}.

(** One station of a site entry of the ledger ([ODD_ONES_FILE]). *)
Record station : Type := mk_station {
  pfid : string;
  s_acn_id : option string;
  s_acc_id : option string;
  s_acg_id : option string;
  s_acs_id : option string;
  current_schedule : json;
  mismatches : list json;
  update_status : string;
  rejection_reason : json;
  last_attempt : option string
}.

(** One site entry of the ledger. *)
Record site_data : Type := mk_site_data {
  sd_mode : string;
  sd_acn_id : option string;
  sd_acc_id : option string;
  sd_acg_id : option string;
  sd_acs_id : option string;
  saved_at : string;
  last_updated : string;
  correct_schedule : json;
  stations : list station
}.

(** The ["sites"] object of the ledger file. *)
Definition ledger : Type := pydict site_data.

(** The progress file; a field the writer leaves out holds its default. *)
Record progress : Type := mk_progress {
  p_mode : option string;
  p_acn_id : option string;
  p_acc_id : option string;
  p_acg_id : option string;
  p_acs_id : option string;
  total_accs : nat;
  completed_accs : list string;
  results : list scan_result;
  started_at : option string
}.

(** One row of the site directory. *)
Record site_row : Type := mk_site_row {
  site_acn_id : option string;
  site_acc_id : option string
}.

(** What [subprocess.run(..., check=True)] gives. *)
Inductive proc_result : Type :=
| CalledProcessError (e : string)
| Completed (stdout : string).

(** External calls, as recorded in the trace of a run. *)
Inductive call : Type :=
| CallGetJwt
| CallSiteDirectory
| CallFetchStationData (acn_id acc_id : option string)
| CallGetConfiguration (pfid key : string)
| CallSetConfiguration (pfid key value : string).

(** ** The outside world *)

(** The collaborators of the script and the library functions it relies on:
    [Env] is the state of everything outside the process. *)
Class External : Type := {
  Env : Type;
  (** [json.loads], [None] standing for [JSONDecodeError] *)
  json_loads : string -> option json;
  json_dumps : json -> string;
  (** [str(v)] *)
  py_str : json -> string;
  (** [curl_device_manager.sh] on [get_configuration/<pfid>] *)
  curl_get_configuration : string -> string -> Env -> proc_result * Env;
  (** [curl_device_manager.sh] on [change_configuration/<pfid>] *)
  curl_set_configuration :
    string -> string -> string -> Env -> proc_result * Env;
  (** [fetch_station_data]: the value that the dashboard decodes to, [None]
      on either error *)
  curl_station_dashboard :
    option string -> option string -> Env -> option json * Env;
  (** [get_site_data]: the directory, [None] where it ends in [sys.exit(1)] *)
  site_directory : Env -> option (list site_row) * Env;
  (** [get_jwt] *)
  jwt_script : Env -> bool * Env;
  (** [datetime.now().isoformat()] *)
  datetime_now : Env -> string * Env;
  (** [input(prompt).strip().lower()] *)
  console_input : Env -> string * Env
}.

(** How a computation ends: a value, [sys.exit(code)], or an uncaught
    exception. *)
Inductive outcome (A : Type) : Type :=
| Ret (a : A)
| Exit (code : Z)
| Raise (e : pyexn).
Arguments Ret {A} a.
Arguments Exit {A} code.
Arguments Raise {A} e.

Section Program.

Context {E : External}.

Record world : Type := mk_world {
  env : Env;
  progress_file : option progress;
  odd_ones_file : option ledger;
  calls : list call
}.

(** Computations of the script. *)
Definition M (A : Type) : Type := world -> outcome A * world.

Definition ret {A} (a : A) : M A := fun w => (Ret a, w).

Definition bind {A B} (m : M A) (k : A -> M B) : M B :=
  fun w =>
    match m w with
    | (Ret a, w') => k a w'
    | (Exit c, w') => (Exit c, w')
    | (Raise e, w') => (Raise e, w')
    end.

Definition sys_exit {A} (code : Z) : M A := fun w => (Exit code, w).

Definition lift {A} (r : res A) : M A :=
  fun w => match r with Ok a => (Ret a, w) | Err e => (Raise e, w) end.

(** An external call: it moves [env] and is appended to the trace. *)
Definition external {A} (c : call) (f : Env -> A * Env) : M A :=
  fun w =>
    let (a, e') := f (env w) in
    (Ret a,
     mk_world e' (progress_file w) (odd_ones_file w) (calls w ++ [c])).

(** A reading of the clock or of the console: it moves [env] only. *)
Definition ambient {A} (f : Env -> A * Env) : M A :=
  fun w =>
    let (a, e') := f (env w) in
    (Ret a, mk_world e' (progress_file w) (odd_ones_file w) (calls w)).

Definition now : M string := ambient datetime_now.
Definition input : M string := ambient console_input.

End Program.

Declare Scope prog_scope.
Delimit Scope prog_scope with prog.
Notation "x <- m ;; k" := (bind m (fun x => k))
  (at level 61, m at next level, right associativity) : prog_scope.
Notation "m ;; k" := (bind m (fun _ => k))
  (at level 61, right associativity) : prog_scope.

Local Open Scope prog_scope.

Section Script.

Context {E : External}.

(** ** Site directory *)

Definition opt_string_dec (a b : option string) : {a = b} + {a <> b}.
Proof. decide equality. apply string_dec. Defined.

Definition opt_eqb (a b : option string) : bool :=
  if opt_string_dec a b then true else false.

Fixpoint insert_sorted (x : string) (l : list string) : list string :=
  match l with
  | [] => [x]
  | y :: l' => if (x <=? y)%string then x :: l else y :: insert_sorted x l'
  end.

(** [sorted(l)] on strings. *)
Definition sorted (l : list string) : list string :=
  fold_right insert_sorted [] l.

(** The loop of [get_accs_for_acn]; the set [accs] is a list without
    duplicates. *)
Fixpoint get_accs_loop (site_data : list site_row) (acn_id : option string)
    (accs : list string) : list string :=
  match site_data with
  | [] => accs
  | site :: rest =>
      if opt_eqb (site_acn_id site) acn_id
      then match site_acc_id site with
           | Some acc_id =>
               if truthy_str (Some acc_id)
               then get_accs_loop rest acn_id
                      (if in_dec string_dec acc_id accs then accs
                       else accs ++ [acc_id])
               else get_accs_loop rest acn_id accs
           | None => get_accs_loop rest acn_id accs
           end
      else get_accs_loop rest acn_id accs
  end.

Definition get_accs_for_acn (site_data : list site_row)
    (acn_id : option string) : list string :=
  sorted (get_accs_loop site_data acn_id []).

(** [get_site_data], ending in [sys.exit(1)] when the directory cannot be
    fetched. *)
Definition get_site_data : M (list site_row) :=
  d <- external CallSiteDirectory site_directory ;;
  match d with
  | Some rows => ret rows
  | None => sys_exit 1%Z
  end.

Definition get_jwt : M bool := external CallGetJwt jwt_script.

(** ** Progress file *)

Definition load_progress : M (option progress) :=
  fun w => (Ret (progress_file w), w).

Definition save_progress (p : progress) : M unit :=
  fun w => (Ret tt, mk_world (env w) (Some p) (odd_ones_file w) (calls w)).

Definition delete_progress : M unit :=
  fun w => (Ret tt, mk_world (env w) None (odd_ones_file w) (calls w)).

(** ** Ledger file *)

(** The key under which [json.dump] writes a site key. *)
Definition key_str (site_key : option string) : string :=
  match site_key with
  | Some k => k
  | None => "null"
  end.

Definition load_all_odd_ones_out : M ledger :=
  fun w =>
    (Ret (match odd_ones_file w with Some sites => sites | None => [] end), w).

Definition save_all_odd_ones_out (data : ledger) : M unit :=
  fun w => (Ret tt, mk_world (env w) (progress_file w) (Some data) (calls w)).

Definition station_of_result (r : scan_result) : station :=
  mk_station (r_pfid r) (r_acn_id r) (r_acc_id r) (r_acg_id r) (r_acs_id r)
    (r_schedule r) (r_mismatches r) "pending" JNull None.

Definition save_odd_ones_out (odd_ones : list scan_result)
    (correct_schedule : json) (acn_id acc_id acg_id acs_id mode : option string)
    : M unit :=
  let acn_id :=
    match acn_id, odd_ones with
    | None, r :: _ => r_acn_id r
    | _, _ => acn_id
    end in
  let '(acc_id, mode) :=
    if is_none acc_id
       && negb (Nat.eqb (length odd_ones) 0)
       && negb (opt_str_eqb mode "acn-only")
    then
      let accs := nodup opt_string_dec (map r_acc_id odd_ones) in
      match accs with
      | [a] => (a, if is_none mode then Some "acn-acc" else mode)
      | _ => (acc_id, if is_none mode then Some "acn-only" else mode)
      end
    else (acc_id, mode) in
  let site_key := get_site_key acn_id acc_id acg_id acs_id mode in
  all_data <- load_all_odd_ones_out ;;
  saved <- now ;;
  updated <- now ;;
  let site_data :=
    mk_site_data
      (if truthy_str mode then fmt mode
       else if truthy_str acc_id then "acn-acc" else "acn-only")
      acn_id acc_id acg_id acs_id saved updated correct_schedule
      (map station_of_result odd_ones) in
  save_all_odd_ones_out (dict_set (key_str site_key) site_data all_data).

Definition load_odd_ones_out (site_key : string) : M (option site_data) :=
  all_data <- load_all_odd_ones_out ;;
  ret (dict_lookup site_key all_data).

(** The inner loop of [update_odd_ones_status]: the first station with the
    identifier is rewritten; [None] when no station has it. *)
Fixpoint update_station_loop (stations : list station) (pfid' : string)
    (status : string) (reason : json) (attempt : string)
    : option (list station) :=
  match stations with
  | [] => None
  | s :: rest =>
      if String.eqb (pfid s) pfid'
      then Some (mk_station (pfid s) (s_acn_id s) (s_acc_id s) (s_acg_id s)
                   (s_acs_id s) (current_schedule s) (mismatches s)
                   status reason (Some attempt) :: rest)
      else option_map (cons s)
             (update_station_loop rest pfid' status reason attempt)
  end.

(** The outer loop of [update_odd_ones_status]: [None] when the loops end
    without a match, else the data that is saved. *)
Fixpoint update_sites_loop (sites_to_check : list string) (all_data : ledger)
    (pfid' : string) (status : string) (reason : json)
    (attempt updated : string) : option ledger :=
  match sites_to_check with
  | [] => None
  | sk :: rest =>
      match dict_lookup sk all_data with
      | None => update_sites_loop rest all_data pfid' status reason
                  attempt updated
      | Some sd =>
          match update_station_loop (stations sd) pfid' status reason attempt
          with
          | Some stations' =>
              Some (dict_set sk
                      (mk_site_data (sd_mode sd) (sd_acn_id sd) (sd_acc_id sd)
                         (sd_acg_id sd) (sd_acs_id sd) (saved_at sd) updated
                         (correct_schedule sd) stations')
                      all_data)
          | None => update_sites_loop rest all_data pfid' status reason
                      attempt updated
          end
      end
  end.

(** [update_odd_ones_status].  The loops leave the function at the first
    station that matches, after two readings of the clock and the save;
    when they end without a match the clock is not read and nothing is
    saved.  The loops are run here once to learn whether a station matches
    and once more with the two readings. *)
Definition update_odd_ones_status (pfid' : string) (status : string)
    (reason : json) (site_key : option string) : M unit :=
  all_data <- load_all_odd_ones_out ;;
  let sites_to_check :=
    if truthy_str site_key then [fmt site_key] else dict_keys all_data in
  match update_sites_loop sites_to_check all_data pfid' status reason "" ""
  with
  | None => ret tt
  | Some _ =>
      attempt <- now ;;
      updated <- now ;;
      match update_sites_loop sites_to_check all_data pfid' status reason
              attempt updated
      with
      | Some data => save_all_odd_ones_out data
      | None => ret tt
      end
  end.

Definition all_accepted (stations : list station) : bool :=
  forallb (fun s => String.eqb (update_status s) "accepted") stations.

Definition remove_completed_site (site_key : string) : M unit :=
  all_data <- load_all_odd_ones_out ;;
  match dict_lookup site_key all_data with
  | None => ret tt
  | Some sd =>
      if all_accepted (stations sd)
      then save_all_odd_ones_out (dict_del site_key all_data)
      else ret tt
  end.

(** [[s for s in stations if s.get("update_status") == status]]. *)
Definition with_status (status : string) (stations : list station)
    : list station :=
  filter (fun s => String.eqb (update_status s) status) stations.

(** One row of [get_sites_with_pending_work]. *)
Record site_summary : Type := mk_site_summary {
  ss_site_key : string;
  ss_acn_id : option string;
  ss_acc_id : option string;
  ss_mode : string;
  ss_saved_at : string;
  ss_last_updated : string;
  ss_pending : nat;
  ss_rejected : nat;
  ss_errored : nat;
  ss_accepted : nat;
  ss_total_pending : nat;
  ss_total_stations : nat
}.

(** The loop of [get_sites_with_pending_work] over the items of the ledger. *)
Fixpoint sites_with_work_loop (items : ledger)
    (sites_with_work : list site_summary) : list site_summary :=
  match items with
  | [] => sites_with_work
  | (site_key, sd) :: rest =>
      let pending := length (with_status "pending" (stations sd)) in
      let rejected := length (with_status "rejected" (stations sd)) in
      let errored := length (with_status "error" (stations sd)) in
      let accepted := length (with_status "accepted" (stations sd)) in
      let total_pending := pending + rejected + errored in
      if Nat.ltb 0 total_pending
      then sites_with_work_loop rest
             (sites_with_work
              ++ [mk_site_summary site_key (sd_acn_id sd) (sd_acc_id sd)
                    (sd_mode sd) (saved_at sd) (last_updated sd) pending
                    rejected errored accepted total_pending
                    (length (stations sd))])
      else sites_with_work_loop rest sites_with_work
  end.

(** One step of a stable sort by [last_updated], most recent first: [x],
    which came before the rows of [l] in the list to sort, goes before the
    first row that is not more recent than it. *)
Fixpoint insert_by_last_updated (x : site_summary) (l : list site_summary)
    : list site_summary :=
  match l with
  | [] => [x]
  | y :: l' =>
      if (ss_last_updated y <=? ss_last_updated x)%string then x :: l
      else y :: insert_by_last_updated x l'
  end.

(** [l.sort(key=last_updated, reverse=True)]: a stable sort, rows of equal
    key keeping their order. *)
Definition sort_by_last_updated (l : list site_summary) : list site_summary :=
  fold_right insert_by_last_updated [] l.

Definition get_sites_with_pending_work : M (list site_summary) :=
  all_data <- load_all_odd_ones_out ;;
  ret (sort_by_last_updated (sites_with_work_loop all_data [])).

(** ** API functions *)

Definition fetch_station_data (acn_id acc_id : option string) : M json :=
  d <- external (CallFetchStationData acn_id acc_id)
         (curl_station_dashboard acn_id acc_id) ;;
  match d with
  | Some stations => ret stations
  | None => ret (JObj [])
  end.

Definition get_configuration (pfid' key : string) : M json :=
  r <- external (CallGetConfiguration pfid' key)
         (curl_get_configuration pfid' key) ;;
  match r with
  | CalledProcessError e => ret (JObj [("error", JStr e)])
  | Completed stdout =>
      match json_loads stdout with
      | Some v => ret v
      | None => ret (JObj [("error", JStr "Invalid JSON response")])
      end
  end.

Definition set_configuration (pfid' key value : string) : M json :=
  r <- external (CallSetConfiguration pfid' key value)
         (curl_set_configuration pfid' key value) ;;
  match r with
  | CalledProcessError e => ret (JObj [("error", JStr e)])
  | Completed stdout =>
      match json_loads stdout with
      | Some v => ret v
      | None => ret (JObj [("error", JStr "Invalid JSON response")])
      end
  end.

(** [json.loads(v)] on a decoded value: only a string can be decoded. *)
Definition py_json_loads (v : json) : res json :=
  match v with
  | JStr s =>
      match json_loads s with
      | Some j => Ok j
      | None => Err JSONDecodeError
      end
  | _ => Err TypeError
  end.

Fixpoint extract_pricing_schedule_loop (config_keys : list json) : res json :=
  match config_keys with
  | [] => Ok JNull
  | item :: rest =>
      (k <-? py_get item "key" JNull;
       if py_eq_str k "PricingSchedule"
       then (v <-? py_get item "value" (JStr "[]"); py_json_loads v)
       else extract_pricing_schedule_loop rest)%res
  end.

(** [extract_pricing_schedule]: [JNull] is Python's [None]. *)
Definition extract_pricing_schedule (response : json) : res json :=
  match (nats <-? py_get response "natsResponse" (JObj []);
         config_keys <-? py_get nats "configuration_key" (JArr []);
         items <-? py_iter config_keys;
         extract_pricing_schedule_loop items)%res
  with
  | Ok v => Ok v
  | Err JSONDecodeError | Err TypeError | Err KeyError => Ok JNull
  | Err e => Err e
  end.

Fixpoint extract_pricing_enabled_loop (config_keys : list json)
    : res (option bool) :=
  match config_keys with
  | [] => Ok None
  | item :: rest =>
      (k <-? py_get item "key" JNull;
       if py_eq_str k "PricingScheduleEnable"
       then (v <-? py_get item "value" (JStr "");
             match v with
             | JStr s => Ok (Some (String.eqb (lower s) "true"))
             | _ => Err AttributeError
             end)
       else extract_pricing_enabled_loop rest)%res
  end.

Definition extract_pricing_enabled (response : json) : res (option bool) :=
  match (nats <-? py_get response "natsResponse" (JObj []);
         config_keys <-? py_get nats "configuration_key" (JArr []);
         items <-? py_iter config_keys;
         extract_pricing_enabled_loop items)%res
  with
  | Ok v => Ok v
  | Err TypeError | Err KeyError => Ok None
  | Err e => Err e
  end.

(** ** Scanning the stations of an account *)

(** The first loop of [process_stations]: the LiteON entries kept so far and
    the number of entries dropped by the prefix filter.  An entry that is
    not an object has no [get], and an identifier or a model name that is
    not text has no [startswith] and no [lower]. *)
Fixpoint select_stations_loop (entries : list json)
    (pfid_prefix : option string) (liteon_entries : list json)
    (filtered_out : nat) : res (list json * nat) :=
  match entries with
  | [] => Ok (liteon_entries, filtered_out)
  | entry :: rest =>
      (pfid' <-? py_get entry "pfid" JNull;
       if negb (truthy pfid')
       then select_stations_loop rest pfid_prefix liteon_entries filtered_out
       else
         starts <-?
           (if truthy_str pfid_prefix
            then (s <-? py_text pfid'; Ok (startswith s (fmt pfid_prefix)))
            else Ok true);
         if negb starts
         then select_stations_loop rest pfid_prefix liteon_entries
                (filtered_out + 1)
         else
           evse_type <-? py_get entry "evse_type" (JStr "Unknown");
           evse_type <-? py_text evse_type;
           if contains "liteon" (lower evse_type)
           then select_stations_loop rest pfid_prefix
                  (liteon_entries ++ [entry]) filtered_out
           else select_stations_loop rest pfid_prefix liteon_entries
                  filtered_out)%res
  end.

(** [[entry.get("pfid") for entry in liteon_entries]]. *)
Fixpoint entry_pfids (liteon_entries : list json) : res (list json) :=
  match liteon_entries with
  | [] => Ok []
  | entry :: rest =>
      (pfid' <-? py_get entry "pfid" JNull;
       pfids <-? entry_pfids rest;
       Ok (pfid' :: pfids))%res
  end.

(** The identifiers of a list up to the first that is not text, and that
    one. *)
Fixpoint text_identifiers (pfids : list json) : list string * option json :=
  match pfids with
  | [] => ([], None)
  | JStr s :: rest =>
      let (texts, other) := text_identifiers rest in (s :: texts, other)
  | v :: _ => ([], Some v)
  end.

(** The body of the second loop of [process_stations]. *)
Definition check_station (pfid' : string) (acn_id acc_id : option string)
    (all_results : list scan_result) : M (list scan_result) :=
  enable_response <- get_configuration pfid' "PricingScheduleEnable" ;;
  enabled <- lift (extract_pricing_enabled enable_response) ;;
  enabled <-
    match enabled with
    | Some true => ret true
    | _ => set_configuration pfid' "PricingScheduleEnable" "true" ;; ret true
    end ;;
  schedule_response <- get_configuration pfid' "PricingSchedule" ;;
  schedule <- lift (extract_pricing_schedule schedule_response) ;;
  checked <- lift (check_schedule_values schedule expected_f_default) ;;
  let '(all_correct, mismatches) := checked in
  let pfid_parts := split_on hyphen pfid' in
  let station_acg := nth_error pfid_parts 2 in
  let station_acs := nth_error pfid_parts 3 in
  ret (all_results
       ++ [mk_scan_result pfid' acn_id acc_id station_acg station_acs
             schedule enabled all_correct mismatches]).

Fixpoint check_stations_loop (pfids : list string)
    (acn_id acc_id : option string) (all_results : list scan_result)
    : M (list scan_result) :=
  match pfids with
  | [] => ret all_results
  | pfid' :: rest =>
      all_results <- check_station pfid' acn_id acc_id all_results ;;
      check_stations_loop rest acn_id acc_id all_results
  end.

(** [all_results or []]. *)
Definition or_empty (all_results : option (list scan_result))
    : list scan_result :=
  match all_results with
  | Some l => l
  | None => []
  end.

(** [process_stations].  The second loop runs [check_station] on the
    identifiers in turn.  An identifier that is not text is rendered by
    [str] in the requests for it, and its turn ends at [pfid.split], which
    only text has: the loop is run on the identifiers before it, then the
    statements of its turn up to there. *)
Definition process_stations (acn_id acc_id acg_id acs_id : option string)
    (all_results : option (list scan_result)) : M (list scan_result) :=
  stations <- fetch_station_data acn_id acc_id ;;
  if negb (truthy stations) then ret (or_empty all_results)
  else
    pfid_prefix <-
      (if truthy_str acg_id
       then p <- lift (build_pfid_prefix acn_id acc_id acg_id acs_id) ;;
            ret (Some p)
       else ret None) ;;
    entries <- lift (py_values stations) ;;
    selected <- lift (select_stations_loop entries pfid_prefix [] 0) ;;
    let '(liteon_entries, filtered_out) := selected in
    pfids <- lift (entry_pfids liteon_entries) ;;
    match pfids with
    | [] => ret (or_empty all_results)
    | _ :: _ =>
        let '(texts, other) := text_identifiers pfids in
        all_results <-
          check_stations_loop texts acn_id acc_id (or_empty all_results) ;;
        match other with
        | None => ret all_results
        | Some v =>
            check_station (py_str v) acn_id acc_id all_results ;;
            lift (Err AttributeError)
        end
    end.

(** [process_acc], kept by the script for backward compatibility. *)
Definition process_acc (acn_id acc_id : option string)
    (all_results : option (list scan_result)) : M (list scan_result) :=
  process_stations acn_id acc_id None None all_results.

(** ** Results and remediation *)

(** [print_results] returns the deviating and the conforming results. *)
Definition print_results (results : list scan_result)
    : list scan_result * list scan_result :=
  let correct :=
    filter (fun r => match r_all_correct r with Some true => true | _ => false end)
      results in
  let odd_ones :=
    filter (fun r => match r_all_correct r with Some false => true | _ => false end)
      results in
  (odd_ones, correct).

Definition default_schedule : json :=
  JArr (map (fun t => JObj [("t", JNum (inject_Z t)); ("f", JNum (1 # 2)%Q)])
          [0; 4; 8; 16; 20]%Z).

Definition get_correct_schedule (correct_stations : list scan_result) : json :=
  match correct_stations with
  | r :: _ => if truthy (r_schedule r) then r_schedule r else default_schedule
  | [] => default_schedule
  end.

(** The rejection reason looked up in a [natsResponse] object. *)
Definition extract_rejection_reason (nats_response : pydict json) : json :=
  if dict_has "error" nats_response then obj_get nats_response "error" JNull
  else if dict_has "message" nats_response
  then obj_get nats_response "message" JNull
  else if dict_has "reason" nats_response
  then obj_get nats_response "reason" JNull
  else JStr (json_dumps (JObj nats_response)).

(** [result.get("error")] when ["error" in result]. *)
Definition result_error (result : json) : option json :=
  match result with
  | JObj d => dict_lookup "error" d
  | _ => None
  end.

(** The body of the update loops of [prompt_update_odd_ones] and
    [main_retry_site], which are the same statement for statement; [counts]
    is [(accepted_count, rejected_count)]. *)
Definition update_station (pfid' correct_schedule_str : string)
    (site_key : option string) (counts : nat * nat) : M (nat * nat) :=
  let '(accepted_count, rejected_count) := counts in
  result <- set_configuration pfid' "PricingSchedule" correct_schedule_str ;;
  nats_response <- lift (py_get result "natsResponse" (JObj [])) ;;
  counts <-
    match nats_response with
    | JObj nats =>
        let status := obj_get nats "status" (JStr "Unknown") in
        if py_eq_str status "Accepted"
        then update_odd_ones_status pfid' "accepted" JNull site_key ;;
             ret (accepted_count + 1, rejected_count)
        else
          let rejection_reason := extract_rejection_reason nats in
          update_odd_ones_status pfid' "rejected" rejection_reason site_key ;;
          ret (accepted_count, rejected_count + 1)
    | _ =>
        let error_msg :=
          if truthy nats_response then py_str nats_response
          else "Unknown error" in
        update_odd_ones_status pfid' "error" (JStr error_msg) site_key ;;
        ret (accepted_count, rejected_count + 1)
    end ;;
  match result_error result with
  | Some error_msg =>
      update_odd_ones_status pfid' "error" error_msg site_key ;;
      ret counts
  | None => ret counts
  end.

Fixpoint update_stations_loop (pfids : list string)
    (correct_schedule_str : string) (site_key : option string)
    (counts : nat * nat) : M (nat * nat) :=
  match pfids with
  | [] => ret counts
  | pfid' :: rest =>
      counts <- update_station pfid' correct_schedule_str site_key counts ;;
      update_stations_loop rest correct_schedule_str site_key counts
  end.

Definition is_yes (response : string) : bool :=
  String.eqb response "yes" || String.eqb response "y".

Definition prompt_update_odd_ones (odd_ones correct_stations : list scan_result)
    (skip_prompt : bool) (acn_id acc_id acg_id acs_id mode : option string)
    : M unit :=
  let correct_schedule := get_correct_schedule correct_stations in
  let correct_schedule_str := json_dumps correct_schedule in
  let acn_id :=
    match acn_id, odd_ones with
    | None, r :: _ => r_acn_id r
    | _, _ => acn_id
    end in
  save_odd_ones_out odd_ones correct_schedule acn_id acc_id acg_id acs_id mode ;;
  let site_key :=
    if truthy_str acn_id then get_site_key acn_id acc_id acg_id acs_id mode
    else None in
  do_update <-
    (if skip_prompt then ret true
     else response <- input ;; ret (is_yes response)) ;;
  if do_update
  then update_stations_loop (map r_pfid odd_ones) correct_schedule_str
         site_key (0, 0) ;;
       ret tt
  else ret tt.

(** ** Sweeps *)

Definition check_resume_progress : M (option progress) :=
  progress <- load_progress ;;
  match progress with
  | None => ret None
  | Some p =>
      response <- input ;;
      if is_yes response then ret (Some p)
      else delete_progress ;; ret None
  end.

(** The loop of [main_pfid] over the accounts of an organisation. *)
Fixpoint main_pfid_loop (accs : list string) (acn : option string)
    (progress : progress) (completed_accs : list string)
    (all_results : list scan_result) : M (list scan_result) :=
  match accs with
  | [] => ret all_results
  | acc_id :: rest =>
      if in_dec string_dec acc_id completed_accs
      then main_pfid_loop rest acn progress completed_accs all_results
      else
        all_results <-
          process_stations acn (Some acc_id) None None (Some all_results) ;;
        let completed_accs := completed_accs ++ [acc_id] in
        let progress :=
          mk_progress (p_mode progress) (p_acn_id progress)
            (p_acc_id progress) (p_acg_id progress) (p_acs_id progress)
            (total_accs progress) completed_accs all_results
            (started_at progress) in
        save_progress progress ;;
        main_pfid_loop rest acn progress completed_accs all_results
  end.

Definition main_pfid (pfid_info : pfid_info) (resume_progress : option progress)
    : M unit :=
  let acn := acn pfid_info in
  let acc := acc pfid_info in
  let acg := acg pfid_info in
  let acs := acs pfid_info in
  let mode := mode pfid_info in
  results <-
    (if opt_str_eqb mode "acn-only"
     then
       site_data <- get_site_data ;;
       let accs := get_accs_for_acn site_data acn in
       match accs with
       | [] => sys_exit 1%Z
       | _ :: _ =>
           let '(completed_accs, all_results) :=
             match resume_progress with
             | Some rp =>
                 if opt_eqb (p_acn_id rp) acn
                 then (completed_accs rp, results rp)
                 else ([], [])
             | None => ([], [])
             end in
           started <-
             match resume_progress with
             | Some rp => ret (started_at rp)
             | None => t <- now ;; ret (Some t)
             end ;;
           let progress :=
             mk_progress (Some "acn-only") acn None None None (length accs)
               completed_accs all_results started in
           main_pfid_loop accs acn progress completed_accs all_results
       end
     else
       t <- now ;;
       save_progress (mk_progress mode acn acc acg acs 0 [] [] (Some t)) ;;
       process_stations acn acc acg acs None) ;;
  let '(odd_ones, correct) := print_results results in
  match odd_ones with
  | _ :: _ => prompt_update_odd_ones odd_ones correct false acn acc acg acs mode
  | [] => ret tt
  end ;;
  delete_progress.

Definition main_single_acc (acn_id acc_id : option string) : M unit :=
  main_pfid (mk_pfid_info acn_id acc_id None None (Some "acn-acc")) None.

Definition main_acn_only (acn_id : option string)
    (resume_progress : option progress) : M unit :=
  main_pfid (mk_pfid_info acn_id None None None (Some "acn-only"))
    resume_progress.

(** ** Retrying a site of the ledger *)

Definition main_retry_site (site_key : string) : M unit :=
  site_data <- load_odd_ones_out site_key ;;
  match site_data with
  | None => ret tt
  | Some sd =>
      let stations := stations sd in
      let correct_schedule := correct_schedule sd in
      match stations with
      | [] => ret tt
      | _ :: _ =>
          let pending := with_status "pending" stations in
          let rejected := with_status "rejected" stations in
          let errored := with_status "error" stations in
          let to_retry := pending ++ rejected ++ errored in
          match to_retry with
          | [] => remove_completed_site site_key
          | _ :: _ =>
              response <- input ;;
              if negb (is_yes response) then ret tt
              else
                let correct_schedule_str := json_dumps correct_schedule in
                counts <-
                  update_stations_loop (map pfid to_retry)
                    correct_schedule_str (Some site_key) (0, 0) ;;
                if Nat.eqb (snd counts) 0
                then remove_completed_site site_key
                else ret tt
          end
      end
  end.

(** ** Entry point *)

Section Main.

(** The interactive menu of retry mode, which no property below looks
    into. *)
Variable main_retry : M unit.

(** [main], with [argv] standing for [sys.argv]; the credential refresh
    timer runs beside the script and is left out. *)
Definition main (argv : list string) : M unit :=
  if in_dec string_dec "--retry" argv
  then
    ok <- get_jwt ;;
    if negb ok then sys_exit 1%Z else main_retry
  else if Nat.ltb (length argv) 2 then sys_exit 1%Z
  else
    let pfid_args :=
      filter (fun arg => negb (startswith arg "--")) (tl argv) in
    let pfid_info := parse_pfid_input pfid_args in
    if negb (truthy_str (acn pfid_info)) then sys_exit 1%Z
    else
      resume_progress <-
        (if opt_str_eqb (mode pfid_info) "acn-only"
         then
           resume_progress <- check_resume_progress ;;
           match resume_progress with
           | Some rp =>
               if negb (opt_eqb (p_acn_id rp) (acn pfid_info))
               then delete_progress ;; ret None
               else if negb (opt_str_eqb (p_mode rp) "acn-only")
               then delete_progress ;; ret None
               else ret (Some rp)
           | None => ret None
           end
         else ret None) ;;
      ok <- get_jwt ;;
      if negb ok then sys_exit 1%Z
      else main_pfid pfid_info resume_progress.

End Main.

(** ** Retry mode *)

(** What the menu of [main_retry] settles on. *)
Inductive menu_choice : Type :=
| RetryAll
| RetrySite (site_key : string).

Section RetryMenu.

(** [int(choice)], [None] standing for [ValueError]. *)
Variable py_int : string -> option Z.

(** The [while True] loop of the menu: it asks until the answer is [q],
    [all] or the number of a row.  [fuel] bounds the number of answers that
    are read, and the result is [None] when it runs out.  The test
    [0 <= idx < len(sites_with_work)] is [0 <= idx] and the row being
    there. *)
Fixpoint menu_loop (fuel : nat) (sites_with_work : list site_summary)
    : M (option menu_choice) :=
  match fuel with
  | O => ret None
  | S fuel =>
      choice <- input ;;
      if String.eqb choice "q" then sys_exit 0%Z
      else if String.eqb choice "all" then ret (Some RetryAll)
      else
        match py_int choice with
        | Some n =>
            let idx := (n - 1)%Z in
            if (0 <=? idx)%Z
            then match nth_error sites_with_work (Z.to_nat idx) with
                 | Some site => ret (Some (RetrySite (ss_site_key site)))
                 | None => menu_loop fuel sites_with_work
                 end
            else menu_loop fuel sites_with_work
        | None => menu_loop fuel sites_with_work
        end
  end.

(** [for site in sites_with_work: main_retry_site(site['site_key'])]. *)
Fixpoint retry_all (sites_with_work : list site_summary) : M unit :=
  match sites_with_work with
  | [] => ret tt
  | site :: rest => main_retry_site (ss_site_key site) ;; retry_all rest
  end.

(** [main_retry]; the ages shown in the menu are console output.  The
    result is [None] when [fuel] answers were read and the menu is still
    asking. *)
Definition main_retry (fuel : nat) (site_key : option string)
    : M (option unit) :=
  match site_key with
  | Some sk => main_retry_site sk ;; ret (Some tt)
  | None =>
      sites_with_work <- get_sites_with_pending_work ;;
      match sites_with_work with
      | [] => sys_exit 0%Z
      | _ :: _ =>
          choice <- menu_loop fuel sites_with_work ;;
          match choice with
          | Some RetryAll => retry_all sites_with_work ;; ret (Some tt)
          | Some (RetrySite sk) => main_retry_site sk ;; ret (Some tt)
          | None => ret None
          end
      end
  end.

End RetryMenu.

End Script.

(** ** Vocabulary of the properties *)

(** An observed schedule: absent, or a sequence of entries. *)
Definition schedule : Type := option (list (pydict json)).

Definition schedule_value (S : schedule) : json :=
  match S with
  | None => JNull
  | Some entries => JArr (map JObj entries)
  end.

Definition schedule_entries (S : schedule) : list (pydict json) :=
  match S with
  | None => []
  | Some entries => entries
  end.

Definition time_offset (entry : pydict json) : json := obj_get entry "t" JNull.
Definition factor (entry : pydict json) : json := obj_get entry "f" JNull.

(** The entry's factor equals 0.5. *)
Definition factor_expected (entry : pydict json) : bool :=
  py_eq_num (factor entry) expected_f_default.

(** The entries of a schedule whose factor is not 0.5, each as the pair that
    [check_schedule_values] records. *)
Definition deviating_entries (S : schedule) : list json :=
  map (fun entry => mismatch (time_offset entry) (factor entry))
    (filter (fun entry => negb (factor_expected entry)) (schedule_entries S)).

(** The ledger as [load_all_odd_ones_out] reads it. *)
Definition ledger_of {E : External} (w : world) : ledger :=
  match odd_ones_file w with
  | Some sites => sites
  | None => []
  end.

(** The station record with an update applied, as the inner loop of
    [update_odd_ones_status] writes it. *)
Definition station_updated (s : station) (status : string) (reason : json)
    (attempt : string) : station :=
  mk_station (pfid s) (s_acn_id s) (s_acc_id s) (s_acg_id s) (s_acs_id s)
    (current_schedule s) (mismatches s) status reason (Some attempt).

(** The site entry with a new station list and a refreshed [last_updated]. *)
Definition site_updated (sd : site_data) (stations' : list station)
    (updated : string) : site_data :=
  mk_site_data (sd_mode sd) (sd_acn_id sd) (sd_acc_id sd) (sd_acg_id sd)
    (sd_acs_id sd) (saved_at sd) updated (correct_schedule sd) stations'.

(** No station of the list has the identifier. *)
Definition pfid_absent (pfid' : string) (l : list station) : Prop :=
  forall s, In s l -> pfid s <> pfid'.

(** What [get_configuration] and [set_configuration] return for an outcome
    of the underlying call. *)
Definition decoded {E : External} (r : proc_result) : json :=
  match r with
  | CalledProcessError e => JObj [("error", JStr e)]
  | Completed stdout =>
      match json_loads stdout with
      | Some v => v
      | None => JObj [("error", JStr "Invalid JSON response")]
      end
  end.

(** A call-level failure: a transport error or a body that does not
    decode. *)
Definition call_failed {E : External} (r : proc_result) : Prop :=
  match r with
  | CalledProcessError _ => True
  | Completed stdout => json_loads stdout = None
  end.

(** The raw detail of a call-level failure. *)
Definition failure_detail (r : proc_result) : string :=
  match r with
  | CalledProcessError e => e
  | Completed _ => "Invalid JSON response"
  end.

(** What the enabling step of [check_station] does to the outside world
    after the flag was read as [enabled]: nothing when the flag is [True],
    one write otherwise. *)
Definition enable_step {E : External} (pfid' : string)
    (enabled : option bool) (e : Env) : Env * list call :=
  match enabled with
  | Some true => (e, [])
  | _ =>
      (snd (curl_set_configuration pfid' "PricingScheduleEnable" "true" e),
       [CallSetConfiguration pfid' "PricingScheduleEnable" "true"])
  end.

(** The result that [check_station] appends for a station. *)
Definition station_result (pfid' : string) (acn_id acc_id : option string)
    (schedule : json) (all_correct : option bool) (found : list json)
    : scan_result :=
  mk_scan_result pfid' acn_id acc_id
    (nth_error (split_on hyphen pfid') 2)
    (nth_error (split_on hyphen pfid') 3)
    schedule true all_correct found.

(** The state after external calls [cs] that left the outside world in
    [e]. *)
Definition after_calls {E : External} (w : world) (e : Env)
    (cs : list call) : world :=
  mk_world e (progress_file w) (odd_ones_file w) (calls w ++ cs).

(** The ledger [L] after the record [s] of the entry [sd] under [sk], whose
    stations are [sb ++ s :: sa], was given a status and a detail at time
    [attempt], the entry being refreshed at time [updated]. *)
Definition ledger_updated (L : ledger) (sk : string) (sd : site_data)
    (sb : list station) (s : station) (sa : list station)
    (status : string) (reason : json) (attempt updated : string) : ledger :=
  dict_set sk
    (site_updated sd (sb ++ station_updated s status reason attempt :: sa)
       updated)
    L.

(** A run of [update_station] that ended normally with the counters
    [counts'], after one write call, the record [s] being left with the
    given status and detail. *)
Definition attempt_recorded {E : External}
    (run : outcome (nat * nat) * world) (w : world) (sk : string)
    (sd : site_data) (sb : list station) (s : station) (sa : list station)
    (value : string) (counts' : nat * nat) (status : string) (reason : json)
    : Prop :=
  exists attempt updated e',
    run
    = (Ret counts',
       mk_world e' (progress_file w)
         (Some (ledger_updated (ledger_of w) sk sd sb s sa status reason
                  attempt updated))
         (calls w ++ [CallSetConfiguration (pfid s) "PricingSchedule" value])).

(** The status, the detail and the counters that [update_station] settles
    on from the [natsResponse] field alone, before it looks for an [error]
    key in the result. *)
Definition nats_verdict {E : External} (nats_response : json)
    (counts : nat * nat) : string * json * (nat * nat) :=
  match nats_response with
  | JObj nats =>
      if py_eq_str (obj_get nats "status" (JStr "Unknown")) "Accepted"
      then ("accepted", JNull, (fst counts + 1, snd counts))
      else ("rejected", extract_rejection_reason nats,
            (fst counts, snd counts + 1))
  | _ =>
      ("error",
       JStr (if truthy nats_response then py_str nats_response
             else "Unknown error"),
       (fst counts, snd counts + 1))
  end.

(** The records that [main_retry_site] retries, in the order in which it
    retries them. *)
Definition outstanding (sd : site_data) : list station :=
  with_status "pending" (stations sd)
  ++ with_status "rejected" (stations sd)
  ++ with_status "error" (stations sd).

(** The write that a retry issues for a record of the entry [sd]. *)
Definition retry_call {E : External} (sd : site_data) (s : station) : call :=
  CallSetConfiguration (pfid s) "PricingSchedule"
    (json_dumps (correct_schedule sd)).

(** Every body that the write call returns and that decodes, decodes to an
    object. *)
Definition writes_return_objects {E : External} : Prop :=
  forall pfid' key value e,
    exists d, decoded (fst (curl_set_configuration pfid' key value e)) = JObj d.

(** The accounts whose stations were fetched, in the order of the calls. *)
Definition fetches (cs : list call) : list (option string * option string) :=
  flat_map
    (fun c =>
       match c with
       | CallFetchStationData acn_id acc_id => [(acn_id, acc_id)]
       | _ => []
       end)
    cs.

(** The checkpoint of a sweep over [total] accounts of [acn]. *)
Definition sweep_progress (acn : option string) (total : nat)
    (completed : list string) (found : list scan_result)
    (started : option string) : progress :=
  mk_progress (Some "acn-only") acn None None None total completed found
    started.

(** The state [w] once [save_progress p] has run. *)
Definition checkpointed {E : External} (w : world) (p : progress) : world :=
  mk_world (env w) (Some p) (odd_ones_file w) (calls w).

(** A step that touches neither file and fetches no station list. *)
Definition scan_step {E : External} (w w' : world) : Prop :=
  progress_file w' = progress_file w
  /\ odd_ones_file w' = odd_ones_file w
  /\ fetches (calls w') = fetches (calls w).

(** The checkpoint [p] with its completed accounts and results replaced,
    as the loop of [main_pfid] rewrites it. *)
Definition progress_with (p : progress) (completed : list string)
    (found : list scan_result) : progress :=
  mk_progress (p_mode p) (p_acn_id p) (p_acc_id p) (p_acg_id p) (p_acs_id p)
    (total_accs p) completed found (started_at p).

(** No white space and no hyphen in the string. *)
Fixpoint separator_free (s : string) : bool :=
  match s with
  | EmptyString => true
  | String c s' =>
      negb (is_space c) && negb (Ascii.eqb c hyphen) && separator_free s'
  end.

(** A token as the operator supplies it: not empty, no separator inside. *)
Definition clean_token (s : string) : Prop :=
  s <> "" /\ separator_free s = true.

(** A character that separates the tokens of a scope specifier: white space
    or a hyphen. *)
Definition is_separator (c : ascii) : bool :=
  is_space c || Ascii.eqb c hyphen.

(** The tokens of a text: its maximal runs of characters that are not
    separators; [cur] is the run read so far. *)
Fixpoint tokens_from (cur : string) (s : string) : list string :=
  match s with
  | EmptyString => if String.eqb cur "" then [] else [cur]
  | String c s' =>
      if is_separator c
      then (if String.eqb cur "" then tokens_from "" s'
            else cur :: tokens_from "" s')
      else tokens_from (cur ++ String c "")%string s'
  end.

(** The tokens supplied as a scope specifier: those of the arguments in
    turn, an argument holding any number of tokens, also none. *)
Definition scope_tokens (args : list string) : list string :=
  flat_map (tokens_from "") args.

(** The arguments [main] hands to [parse_pfid_input]. *)
Definition scope_args (argv : list string) : list string :=
  filter (fun arg => negb (startswith arg "--")) (tl argv).

Definition mode_labels : list string :=
  ["acn-only"; "acn-acc"; "acn-acc-acg"; "acn-acc-acg-acs"].

(** The level-1 identifier [save_odd_ones_out] works with: the one supplied
    or, failing that, the first station's. *)
Definition batch_acn (acn_id : option string) (odd_ones : list scan_result)
    : option string :=
  match acn_id, odd_ones with
  | None, r :: _ => r_acn_id r
  | _, _ => acn_id
  end.

(** What [main_pfid] does with the results of a sweep. *)
Definition after_sweep {E : External} (info : pfid_info)
    (found : list scan_result) : M unit :=
  let '(odd_ones, correct) := print_results found in
  match odd_ones with
  | _ :: _ =>
      prompt_update_odd_ones odd_ones correct false (acn info) (acc info)
        (acg info) (acs info) (mode info)
  | [] => ret tt
  end ;;
  delete_progress.

(** No hyphen in the string. *)
Fixpoint hyphen_free (s : string) : bool :=
  match s with
  | EmptyString => true
  | String c s' => negb (Ascii.eqb c hyphen) && hyphen_free s'
  end.

(** The row of [get_sites_with_pending_work] for a site entry. *)
Definition site_summary_of (site_key : string) (sd : site_data)
    : site_summary :=
  mk_site_summary site_key (sd_acn_id sd) (sd_acc_id sd) (sd_mode sd)
    (saved_at sd) (last_updated sd)
    (length (with_status "pending" (stations sd)))
    (length (with_status "rejected" (stations sd)))
    (length (with_status "error" (stations sd)))
    (length (with_status "accepted" (stations sd)))
    (length (outstanding sd))
    (length (stations sd)).

(** The site entry has a station in status pending, rejected or error. *)
Definition has_outstanding (item : string * site_data) : bool :=
  Nat.ltb 0 (length (outstanding (snd item))).

(** [a] is listed before [b]: it is at least as recent. *)
Definition more_recent (a b : site_summary) : Prop :=
  (ss_last_updated b <=? ss_last_updated a)%string = true.

(** Lexicographic order of strings. *)
Definition string_le (a b : string) : Prop := (a <=? b)%string = true.

(** What a status update leaves alone in a ledger: the keys in their order
    and, for each, the mode, the time of saving, the corrective schedule
    and the identifiers of the stations in their order. *)
Definition ledger_skeleton (L : ledger)
    : list (string * (string * string * json * list string)) :=
  map (fun item =>
         (fst item,
          (sd_mode (snd item), saved_at (snd item),
           correct_schedule (snd item), map pfid (stations (snd item)))))
    L.


(** The item of a [configuration_key] list is the setting [key]. *)
Definition config_item_named (key : string) (item : pydict json) : bool :=
  py_eq_str (obj_get item "key" JNull) key.

(** A response object whose [natsResponse] is an object that lists the
    settings [items], each an object. *)
Definition lists_settings (response : json) (items : list (pydict json))
    : Prop :=
  exists d nats,
    response = JObj d
    /\ obj_get d "natsResponse" (JObj []) = JObj nats
    /\ obj_get nats "configuration_key" (JArr []) = JArr (map JObj items).

(** The verdict and the mismatches of a result are those of its schedule. *)
Definition classified (r : scan_result) : Prop :=
  check_schedule_values (r_schedule r) expected_f_default
  = Ok (r_all_correct r, r_mismatches r).

(** The prefix that [process_stations] filters with; none below the third
    level. *)
Definition scan_prefix (acn_id acc_id acg_id acs_id : option string)
    : option string :=
  if truthy_str acg_id
  then match build_pfid_prefix acn_id acc_id acg_id acs_id with
       | Ok p => Some p
       | Err _ => None
       end
  else None.

(** A dashboard entry with an identifier and a model name that are text; a
    key is left out where the argument is [None]. *)
Definition mk_station_entry (pfid' evse_type : option string) : json :=
  JObj (match pfid' with
        | Some p => [("pfid", JStr p)]
        | None => []
        end
        ++ match evse_type with
           | Some t => [("evse_type", JStr t)]
           | None => []
           end).

(** The identifier of a dashboard entry, when it is text that is not
    empty. *)
Definition e_pfid (entry : json) : option string :=
  match entry with
  | JObj d =>
      match obj_get d "pfid" JNull with
      | JStr s => if String.eqb s "" then None else Some s
      | _ => None
      end
  | _ => None
  end.

(** The model name of a dashboard entry, [Unknown] when it has none. *)
Definition e_evse_type (entry : json) : option string :=
  match entry with
  | JObj d =>
      match obj_get d "evse_type" (JStr "Unknown") with
      | JStr t => Some t
      | _ => None
      end
  | _ => None
  end.

(** A dashboard entry that the first loop of a scan reads without an
    exception: an object whose identifier, when it has one, is null or
    text, and whose model name, when it has one, is text. *)
Definition well_formed_entry (entry : json) : Prop :=
  exists d,
    entry = JObj d
    /\ (obj_get d "pfid" JNull = JNull
        \/ exists s, obj_get d "pfid" JNull = JStr s)
    /\ exists t, obj_get d "evse_type" (JStr "Unknown") = JStr t.

(** A dashboard that a scan reads without an exception: the fetch failed,
    or it gave a false value, or an object of well-formed entries. *)
Definition well_formed_dashboard (d : option json) : Prop :=
  match d with
  | None => True
  | Some (JObj stations) => Forall well_formed_entry (map snd stations)
  | Some v => truthy v = false
  end.

(** The dashboard entry has an identifier, the identifier starts with the
    prefix when there is one, and the model is a LiteON. *)
Definition liteon_in_scope (pfid_prefix : option string) (entry : json)
    : bool :=
  match e_pfid entry, e_evse_type entry with
  | Some s, Some t =>
      (negb (truthy_str pfid_prefix) || startswith s (fmt pfid_prefix))
      && contains "liteon" (lower t)
  | _, _ => false
  end.

(** The entries of a dashboard, none when the fetch failed. *)
Definition dashboard_entries (d : option json) : list json :=
  match d with
  | Some (JObj stations) => map snd stations
  | _ => []
  end.

(** The corrective write for a deviating result. *)
Definition corrective_call (value : string) (r : scan_result) : call :=
  CallSetConfiguration (r_pfid r) "PricingSchedule" value.

(** Between [w] and [w'] the trace grew by calls that all satisfy [P]. *)
Definition trace_within {E : External} (P : call -> Prop) (w w' : world)
    : Prop :=
  exists cs, calls w' = calls w ++ cs /\ Forall P cs.

(** A call that a scan makes on a station: the reading of one of the two
    settings, or the writing of the enable flag. *)
Definition scan_call (c : call) : Prop :=
  match c with
  | CallGetConfiguration _ key =>
      key = "PricingScheduleEnable" \/ key = "PricingSchedule"
  | CallSetConfiguration _ key value =>
      key = "PricingScheduleEnable" /\ value = "true"
  | _ => False
  end.

(** What a scan of stations may do to a state. *)
Definition scan_frame {E : External} (w w' : world) : Prop :=
  trace_within scan_call w w'
  /\ progress_file w' = progress_file w
  /\ odd_ones_file w' = odd_ones_file w.

(** What a round of writes of [value] to the stations [pfids] may do to a
    state. *)
Definition write_frame {E : External} (value : string) (pfids : list string)
    (w w' : world) : Prop :=
  trace_within
    (fun c =>
       exists p, In p pfids /\ c = CallSetConfiguration p "PricingSchedule" value)
    w w'
  /\ progress_file w' = progress_file w.

(** The status is one of the four that the script writes. *)
Definition known_status (s : station) : Prop :=
  In (update_status s) ["pending"; "accepted"; "rejected"; "error"].

(** The scope is among the sites that [get_sites_with_pending_work]
    lists. *)
Definition listed_with_pending_work {E : External} (sk : string) (w : world)
    : Prop :=
  exists rows w',
    get_sites_with_pending_work w = (Ret rows, w')
    /\ In sk (map ss_site_key rows).

(** The scope still has its entry after [remove_completed_site]. *)
Definition kept_by_removal {E : External} (sk : string) (w : world) : Prop :=
  dict_has sk (ledger_of (snd (remove_completed_site sk w))) = true.

(** Reading [n] answers from the console. *)
Fixpoint answers_read {E : External} (n : nat) (e : Env)
    : list string * Env :=
  match n with
  | O => ([], e)
  | S n =>
      let (answer, e1) := console_input e in
      let (more, e2) := answers_read n e1 in
      (answer :: more, e2)
  end.

(** An answer after which the menu of retry mode asks again: neither [q]
    nor [all] nor the number of a row. *)
Definition rejected_answer (py_int : string -> option Z)
    (rows : list site_summary) (choice : string) : Prop :=
  choice <> "q" /\ choice <> "all"
  /\ match py_int choice with
     | Some n => (n < 1)%Z \/ (Z.of_nat (length rows) < n)%Z
     | None => True
     end.

(** The write of the corrective schedule stored with a scope of the ledger
    [L] to a station recorded under that scope. *)
Definition stored_write {E : External} (L : ledger) (c : call) : Prop :=
  exists k sd s, In (k, sd) L /\ In s (stations sd) /\ c = retry_call sd s.

(** Every entry of [L'] is there in [L], with the same corrective schedule
    and the same stations. *)
Definition covered (L L' : ledger) : Prop :=
  forall k sd', In (k, sd') L' ->
    exists sd, In (k, sd) L
               /\ correct_schedule sd' = correct_schedule sd
               /\ map pfid (stations sd') = map pfid (stations sd).

(** What retry mode may do to a state whose ledger is covered by [L]. *)
Definition retry_frame {E : External} (L : ledger) (w w' : world) : Prop :=
  covered L (ledger_of w) ->
  covered L (ledger_of w')
  /\ trace_within (stored_write L) w w'
  /\ progress_file w' = progress_file w.

(** ** A scripted outside world, for running the script on examples *)

Record script : Type := mk_script {
  sc_inputs : list string;
  sc_get : list proc_result;
  sc_set : list proc_result;
  sc_dashboards : list (option json);
  sc_directory : option (list site_row);
  sc_jwt : bool
}.

Definition half_schedule : json :=
  JArr [JObj [("t", JNum 0%Q); ("f", JNum (1 # 2)%Q)]].

Definition third_schedule : json :=
  JArr [JObj [("t", JNum 0%Q); ("f", JNum (3 # 10)%Q)]].

Definition config_response (key value : string) : json :=
  JObj [("natsResponse",
         JObj [("configuration_key",
                JArr [JObj [("key", JStr key); ("value", JStr value)]])])].

(** A decoder for the few response bodies of the examples. *)
Definition scripted_loads (s : string) : option json :=
  dict_lookup s
    [("accepted", JObj [("natsResponse", JObj [("status", JStr "Accepted")])]);
     ("rejected-busy",
      JObj [("natsResponse",
             JObj [("status", JStr "Rejected"); ("reason", JStr "busy")])]);
     ("accepted-and-error",
      JObj [("natsResponse", JObj [("status", JStr "Accepted")]);
            ("error", JStr "gateway")]);
     ("enabled", config_response "PricingScheduleEnable" "true");
     ("schedule-half", config_response "PricingSchedule" "[half]");
     ("schedule-third", config_response "PricingSchedule" "[third]");
     ("[half]", half_schedule);
     ("[third]", third_schedule)].

Definition pop {A} (default : A) (l : list A) : A * list A :=
  match l with
  | [] => (default, [])
  | a :: l' => (a, l')
  end.

Definition scripted_with (loads : string -> option json) : External := {|
  Env := script;
  json_loads := loads;
  json_dumps := fun _ => "<json>";
  py_str := fun _ => "<str>";
  curl_get_configuration := fun _ _ e =>
    let (r, l) := pop (CalledProcessError "exit 7") (sc_get e) in
    (r, mk_script (sc_inputs e) l (sc_set e) (sc_dashboards e)
          (sc_directory e) (sc_jwt e));
  curl_set_configuration := fun _ _ _ e =>
    let (r, l) := pop (CalledProcessError "exit 7") (sc_set e) in
    (r, mk_script (sc_inputs e) (sc_get e) l (sc_dashboards e)
          (sc_directory e) (sc_jwt e));
  curl_station_dashboard := fun _ _ e =>
    let (r, l) := pop None (sc_dashboards e) in
    (r, mk_script (sc_inputs e) (sc_get e) (sc_set e) l
          (sc_directory e) (sc_jwt e));
  site_directory := fun e => (sc_directory e, e);
  jwt_script := fun e => (sc_jwt e, e);
  datetime_now := fun e => ("2024-05-01T10:00:00", e);
  console_input := fun e =>
    let (r, l) := pop "" (sc_inputs e) in
    (r, mk_script l (sc_get e) (sc_set e) (sc_dashboards e)
          (sc_directory e) (sc_jwt e))
|}.

Definition scripted : External := scripted_with scripted_loads.

(** A decoder that knows write responses only, all of them objects. *)
Definition write_loads (s : string) : option json :=
  dict_lookup s
    [("accepted", JObj [("natsResponse", JObj [("status", JStr "Accepted")])]);
     ("rejected-busy",
      JObj [("natsResponse",
             JObj [("status", JStr "Rejected"); ("reason", JStr "busy")])])].

Definition scripted_writes : External := scripted_with write_loads.

(** A state of the scripted world with an empty trace. *)
Definition scripted_world (e : script) (progress_file : option progress)
    (odd_ones_file : option ledger) : @world scripted :=
  @mk_world scripted e progress_file odd_ones_file [].

Definition scripted_writes_world (e : script)
    (odd_ones_file : option ledger) : @world scripted_writes :=
  @mk_world scripted_writes e None odd_ones_file [].

Definition quiet_jwt : script := mk_script [] [] [] [] None true.

Definition demo_station (pfid' status : string) : station :=
  mk_station pfid' (Some "0051") (Some "09") None None third_schedule []
    status JNull None.

Definition demo_site (l : list station) : site_data :=
  mk_site_data "acn-acc" (Some "0051") (Some "09") None None
    "2024-04-30T09:00:00" "2024-04-30T09:00:00" default_schedule l.

Definition demo_result (pfid' acc_id : string) : scan_result :=
  mk_scan_result pfid' (Some "0051") (Some acc_id) None None third_schedule
    true (Some false) [mismatch (JNum 0%Q) (JNum (3 # 10)%Q)].

Definition demo_rows : list site_row :=
  [mk_site_row (Some "0051") (Some "12");
   mk_site_row (Some "0051") (Some "09");
   mk_site_row (Some "0077") (Some "01")].

(** [int] on the few answers of the examples. *)
Definition scripted_int (s : string) : option Z :=
  dict_lookup s [("1", 1%Z); ("2", 2%Z); ("7", 7%Z)].

(** * Properties *)

(** ** Schedule classification *)

Lemma check_schedule_loop_filter (entries : list (pydict json)) (x : Q)
    (found : list json) :
  check_schedule_loop (map JObj entries) x found
  = Ok (found
        ++ map (fun entry => mismatch (time_offset entry) (factor entry))
             (filter (fun entry => negb (py_eq_num (factor entry) x)) entries)).
Proof.
  revert found.
  induction entries as [|entry rest IH]; intros found; simpl.
  - now rewrite app_nil_r.
  - fold (factor entry) (time_offset entry).
    destruct (py_eq_num (factor entry) x) eqn:Hf; simpl.
    + apply IH.
    + rewrite IH, <- app_assoc. reflexivity.
Qed.

Lemma filter_nil_forall {A} (p : A -> bool) (l : list A) :
  filter p l = [] <-> Forall (fun a => p a = false) l.
Proof.
  induction l as [|a l IH]; simpl.
  - split; auto.
  - destruct (p a) eqn:Hp.
    + split; [discriminate|]. intros H. inversion H; subst. congruence.
    + rewrite IH. split; intros H.
      * constructor; assumption.
      * now inversion H.
Qed.

Lemma check_schedule_values_present (entry : pydict json)
    (rest : list (pydict json)) :
  check_schedule_values (schedule_value (Some (entry :: rest)))
    expected_f_default
  = Ok (Some (Nat.eqb (length (deviating_entries (Some (entry :: rest)))) 0),
        deviating_entries (Some (entry :: rest))).
Proof.
  unfold check_schedule_values, schedule_value.
  change (truthy (JArr (map JObj (entry :: rest)))) with true.
  cbn [negb py_iter res_bind].
  rewrite check_schedule_loop_filter. reflexivity.
Qed.

(** C1, amended.  For every schedule [S], [check_schedule_values] returns
    the list of exactly the entries whose factor is not 0.5, each with its
    time offset and factor, and a verdict that is
    - conforming iff [S] is present, not empty, and every factor is 0.5;
    - deviating iff some entry of [S] has a factor other than 0.5;
    - indeterminate iff [S] is absent or empty. *)
Theorem check_schedule_values_classifies (S : schedule) :
  exists verdict : option bool,
    check_schedule_values (schedule_value S) expected_f_default
    = Ok (verdict, deviating_entries S)
    /\ (verdict = Some true <->
        exists entries, S = Some entries /\ entries <> []
          /\ Forall (fun entry => factor_expected entry = true) entries)
    /\ (verdict = Some false <->
        exists entries, S = Some entries
          /\ Exists (fun entry => factor_expected entry = false) entries)
    /\ (verdict = None <-> S = None \/ S = Some []).
Proof.
  destruct S as [[|entry rest]|].
  - exists None. split; [reflexivity|].
    repeat split; try discriminate; auto.
    + intros (entries & Heq & Hne & _). congruence.
    + intros (entries & Heq & Hex). injection Heq as <-. inversion Hex.
  - exists (Some (Nat.eqb (length (deviating_entries (Some (entry :: rest)))) 0)).
    split; [apply check_schedule_values_present|].
    set (S := Some (entry :: rest)).
    assert (Hlen : Nat.eqb (length (deviating_entries S)) 0 = true
                   <-> Forall (fun e => factor_expected e = true)
                         (entry :: rest)).
    { unfold deviating_entries. rewrite length_map, Nat.eqb_eq, length_zero_iff_nil.
      rewrite filter_nil_forall. subst S. cbn [schedule_entries].
      split; intros H; eapply Forall_impl; try exact H;
        cbv beta; intros e He; destruct (factor_expected e);
        simpl in *; congruence. }
    repeat split.
    + intros H. injection H as H. exists (entry :: rest).
      repeat split; [discriminate|]. now apply Hlen.
    + intros (entries & Heq & _ & Hall). subst S. injection Heq as <-.
      f_equal. now apply Hlen.
    + intros H. injection H as H. exists (entry :: rest). split; [reflexivity|].
      apply Exists_exists.
      destruct (Forall_Exists_dec (fun e => factor_expected e = true)
                  (fun e => bool_dec (factor_expected e) true) (entry :: rest))
        as [Hall|Hex].
      * apply Hlen in Hall. congruence.
      * apply Exists_exists in Hex. destruct Hex as (e & Hin & He).
        exists e. split; [assumption|]. now destruct (factor_expected e).
    + intros (entries & Heq & Hex). subst S. injection Heq as <-. f_equal.
      destruct (Nat.eqb _ 0) eqn:Hz; [|reflexivity].
      destruct Hlen as [Hall _]. specialize (Hall eq_refl).
      apply Exists_exists in Hex. destruct Hex as (e & Hin & He).
      rewrite Forall_forall in Hall. specialize (Hall e Hin). congruence.
    + discriminate.
    + intros [H|H]; discriminate.
  - exists None. split; [reflexivity|].
    repeat split; try discriminate; auto.
    + intros (entries & Heq & _). discriminate.
    + intros (entries & Heq & _). discriminate.
Qed.

(** C1 as stated fails: the empty schedule is present and, vacuously, has
    only factors equal to 0.5, and yet it is indeterminate, not conforming. *)
Lemma check_schedule_values_empty_indeterminate :
  ~ (forall (S : schedule) (verdict : option bool) (found : list json),
       check_schedule_values (schedule_value S) expected_f_default
       = Ok (verdict, found) ->
       (verdict = Some true <->
        Forall (fun entry => factor_expected entry = true) (schedule_entries S))
       /\ (verdict = None <-> S = None)).
Proof.
  intros H.
  destruct (H (Some []) None [] eq_refl) as [_ [Hnone _]].
  specialize (Hnone eq_refl). discriminate.
Qed.

(** ** Dictionaries *)

Lemma dict_lookup_del_same {A} (k : string) (d : pydict A) :
  dict_lookup k (dict_del k d) = None.
Proof.
  induction d as [|[k' v] d IH]; simpl; [reflexivity|].
  destruct (String.eqb k k') eqn:Hk; simpl; [assumption|].
  now rewrite Hk.
Qed.

Lemma dict_lookup_del_other {A} (k k' : string) (d : pydict A) :
  k' <> k -> dict_lookup k' (dict_del k d) = dict_lookup k' d.
Proof.
  intros Hne. induction d as [|[k0 v] d IH]; simpl; [reflexivity|].
  destruct (String.eqb k k0) eqn:Hk; simpl.
  - apply String.eqb_eq in Hk. subst k0.
    destruct (String.eqb k' k) eqn:Hk'; [|assumption].
    apply String.eqb_eq in Hk'. contradiction.
  - now rewrite IH.
Qed.

Lemma dict_lookup_set_same {A} (k : string) (v : A) (d : pydict A) :
  dict_lookup k (dict_set k v d) = Some v.
Proof.
  induction d as [|[k' v'] d IH]; simpl.
  - now rewrite String.eqb_refl.
  - destruct (String.eqb k k') eqn:Hk; simpl.
    + now rewrite String.eqb_refl.
    + now rewrite Hk.
Qed.

Lemma dict_lookup_set_other {A} (k k' : string) (v : A) (d : pydict A) :
  k' <> k -> dict_lookup k' (dict_set k v d) = dict_lookup k' d.
Proof.
  intros Hne. apply String.eqb_neq in Hne.
  induction d as [|[k0 v0] d IH]; simpl.
  - now rewrite Hne.
  - destruct (String.eqb k k0) eqn:Hk; simpl.
    + apply String.eqb_eq in Hk. subst k0. now rewrite Hne.
    + now rewrite IH.
Qed.

Lemma dict_lookup_middle {A} (k : string) (v : A) (before after : pydict A) :
  ~ In k (dict_keys before) ->
  dict_lookup k (before ++ (k, v) :: after) = Some v.
Proof.
  induction before as [|[k' v'] before IH]; simpl; intros Hnin.
  - now rewrite String.eqb_refl.
  - destruct (String.eqb k k') eqn:Hk.
    + apply String.eqb_eq in Hk. subst. tauto.
    + apply IH. tauto.
Qed.

Lemma dict_set_middle {A} (k : string) (v v' : A) (before after : pydict A) :
  ~ In k (dict_keys before) ->
  dict_set k v' (before ++ (k, v) :: after) = before ++ (k, v') :: after.
Proof.
  induction before as [|[k0 v0] before IH]; simpl; intros Hnin.
  - now rewrite String.eqb_refl.
  - destruct (String.eqb k k0) eqn:Hk.
    + apply String.eqb_eq in Hk. subst. tauto.
    + rewrite IH; tauto.
Qed.

Lemma dict_lookup_in {A} (k : string) (v : A) (d : pydict A) :
  dict_lookup k d = Some v -> In (k, v) d.
Proof.
  induction d as [|[k' v'] d IH]; simpl; [discriminate|].
  destruct (String.eqb k k') eqn:Hk.
  - apply String.eqb_eq in Hk. intros [= ->]. subst. now left.
  - intros H. right. now apply IH.
Qed.

(** With distinct keys, a binding whose key occurs in the front part of a
    dictionary is in the front part. *)
Lemma in_before_of_key {A} (before tail : pydict A) (k : string) (v : A) :
  NoDup (dict_keys (before ++ tail)) ->
  In k (dict_keys before) ->
  In (k, v) (before ++ tail) ->
  In (k, v) before.
Proof.
  unfold dict_keys. rewrite map_app. intros Hnd Hk Hin.
  apply in_app_or in Hin. destruct Hin as [Hin|Hin]; [assumption|].
  exfalso. apply (in_map fst) in Hin. simpl in Hin.
  induction (map fst before) as [|k0 l IH]; simpl in *; [tauto|].
  inversion Hnd as [|? ? Hnotin Hnd']; subst.
  destruct Hk as [->|Hk].
  - apply Hnotin. apply in_or_app. now right.
  - now apply IH.
Qed.

(** ** The ledger *)

Section Ledger.

Context {E : External}.

Lemma all_accepted_forall (l : list station) :
  all_accepted l = true
  <-> Forall (fun s => update_status s = "accepted") l.
Proof.
  unfold all_accepted. rewrite forallb_forall, Forall_forall.
  split; intros H s Hin; specialize (H s Hin); now apply String.eqb_eq.
Qed.

(** C4.  For every ledger and scope key, [remove_completed_site] returns
    normally and touches nothing but the ledger file; when the key has an
    entry, the entry is gone afterwards iff every station record in it has
    status accepted, in which case the ledger is the old one without that
    entry, and otherwise the whole state is unchanged; when the key has no
    entry nothing changes; the entries of all other keys are as before. *)
Theorem remove_completed_site_iff_all_accepted (site_key : string) (w : world) :
  exists w',
    remove_completed_site site_key w = (Ret tt, w')
    /\ env w' = env w /\ progress_file w' = progress_file w
    /\ calls w' = calls w
    /\ (forall k, k <> site_key ->
        dict_lookup k (ledger_of w') = dict_lookup k (ledger_of w))
    /\ match dict_lookup site_key (ledger_of w) with
       | Some sd =>
           (dict_lookup site_key (ledger_of w') = None
            <-> Forall (fun s => update_status s = "accepted") (stations sd))
           /\ (Forall (fun s => update_status s = "accepted") (stations sd) ->
               ledger_of w' = dict_del site_key (ledger_of w))
           /\ (~ Forall (fun s => update_status s = "accepted") (stations sd) ->
               w' = w)
       | None => w' = w
       end.
Proof.
  unfold remove_completed_site, bind, load_all_odd_ones_out, ret.
  fold (ledger_of w).
  destruct (dict_lookup site_key (ledger_of w)) as [sd|] eqn:Hsd.
  - destruct (all_accepted (stations sd)) eqn:Hall.
    + eexists. split; [reflexivity|]. unfold ledger_of at 1 2; simpl.
      repeat split; auto.
      * intros k Hk. now apply dict_lookup_del_other.
      * intros _. now apply all_accepted_forall.
      * intros _. apply dict_lookup_del_same.
      * intros Hn. apply all_accepted_forall in Hall. contradiction.
    + exists w. repeat split; auto.
      * rewrite Hsd. discriminate.
      * intros H. apply all_accepted_forall in H. congruence.
      * intros H. apply all_accepted_forall in H. congruence.
  - exists w. repeat split; auto.
Qed.

Lemma update_station_loop_absent (l : list station) (pfid' status : string)
    (reason : json) (attempt : string) :
  pfid_absent pfid' l ->
  update_station_loop l pfid' status reason attempt = None.
Proof.
  induction l as [|s l IH]; simpl; intros Habs; [reflexivity|].
  destruct (String.eqb (pfid s) pfid') eqn:Hp.
  - apply String.eqb_eq in Hp. exfalso. apply (Habs s); [now left|assumption].
  - rewrite IH; [reflexivity|]. intros s' Hin. apply Habs. now right.
Qed.

Lemma update_station_loop_first (sb sa : list station) (s : station)
    (status : string) (reason : json) (attempt : string) :
  pfid_absent (pfid s) sb ->
  update_station_loop (sb ++ s :: sa) (pfid s) status reason attempt
  = Some (sb ++ station_updated s status reason attempt :: sa).
Proof.
  induction sb as [|s0 sb IH]; simpl; intros Habs.
  - now rewrite String.eqb_refl.
  - destruct (String.eqb (pfid s0) (pfid s)) eqn:Hp.
    + apply String.eqb_eq in Hp. exfalso. apply (Habs s0); [now left|assumption].
    + rewrite IH; [reflexivity|]. intros s' Hin. apply Habs. now right.
Qed.

(** A list of stations splits at the first station with a given
    identifier, when there is one. *)
Lemma split_at_first_pfid (l : list station) (pfid' : string) :
  pfid_absent pfid' l
  \/ exists sb s sa, l = sb ++ s :: sa /\ pfid s = pfid' /\ pfid_absent pfid' sb.
Proof.
  induction l as [|s0 l IH].
  - left. intros s [].
  - destruct (string_dec (pfid s0) pfid') as [Heq|Hne].
    + right. exists [], s0, l. repeat split; auto. intros s [].
    + destruct IH as [Habs|(sb & s & sa & -> & Hp & Habs)].
      * left. intros s [<-|Hin]; auto.
      * right. exists (s0 :: sb), s, sa. repeat split; auto.
        intros s' [<-|Hin]; auto.
Qed.

Lemma update_sites_loop_absent (keys : list string) (all_data : ledger)
    (pfid' status : string) (reason : json) (attempt updated : string) :
  (forall sk sd, In sk keys -> dict_lookup sk all_data = Some sd ->
                 pfid_absent pfid' (stations sd)) ->
  update_sites_loop keys all_data pfid' status reason attempt updated = None.
Proof.
  induction keys as [|sk keys IH]; simpl; intros Habs; [reflexivity|].
  destruct (dict_lookup sk all_data) as [sd|] eqn:Hsd.
  - rewrite (update_station_loop_absent (stations sd)).
    + apply IH. intros sk' sd' Hin. apply Habs. now right.
    + apply (Habs sk sd); [now left|assumption].
  - apply IH. intros sk' sd' Hin. apply Habs. now right.
Qed.

Lemma update_sites_loop_first (kb ka : list string) (sk : string)
    (all_data : ledger) (sd : site_data) (sb sa : list station) (s : station)
    (status : string) (reason : json) (attempt updated : string) :
  (forall sk' sd', In sk' kb -> dict_lookup sk' all_data = Some sd' ->
                   pfid_absent (pfid s) (stations sd')) ->
  dict_lookup sk all_data = Some sd ->
  stations sd = sb ++ s :: sa ->
  pfid_absent (pfid s) sb ->
  update_sites_loop (kb ++ sk :: ka) all_data (pfid s) status reason
    attempt updated
  = Some (dict_set sk
            (site_updated sd
               (sb ++ station_updated s status reason attempt :: sa) updated)
            all_data).
Proof.
  intros Hkb Hsd Hst Habs.
  induction kb as [|k0 kb IH]; simpl.
  - rewrite Hsd, Hst, update_station_loop_first by assumption. reflexivity.
  - destruct (dict_lookup k0 all_data) as [sd0|] eqn:Hsd0.
    + rewrite (update_station_loop_absent (stations sd0)).
      * apply IH. intros sk' sd' Hin. apply Hkb. now right.
      * apply (Hkb k0 sd0); [now left|assumption].
    + apply IH. intros sk' sd' Hin. apply Hkb. now right.
Qed.

(** [update_odd_ones_status] when its loops end without a match: nothing is
    read from the clock and nothing is written. *)
Lemma update_odd_ones_status_no_match (pfid' status : string) (reason : json)
    (site_key : option string) (w : world) :
  update_sites_loop
    (if truthy_str site_key then [fmt site_key] else dict_keys (ledger_of w))
    (ledger_of w) pfid' status reason "" "" = None ->
  update_odd_ones_status pfid' status reason site_key w = (Ret tt, w).
Proof.
  intros Hnone.
  unfold update_odd_ones_status, bind, load_all_odd_ones_out.
  fold (ledger_of w). now rewrite Hnone.
Qed.

(** [update_odd_ones_status] on a match: the clock is read twice and the
    rewritten ledger is saved. *)
Lemma update_odd_ones_status_match (pfid' status : string) (reason : json)
    (site_key : option string) (w : world) (t1 t2 : string) (e1 e2 : Env)
    (f : string -> string -> ledger) :
  (forall attempt updated,
     update_sites_loop
       (if truthy_str site_key then [fmt site_key]
        else dict_keys (ledger_of w))
       (ledger_of w) pfid' status reason attempt updated
     = Some (f attempt updated)) ->
  datetime_now (env w) = (t1, e1) ->
  datetime_now e1 = (t2, e2) ->
  update_odd_ones_status pfid' status reason site_key w
  = (Ret tt, mk_world e2 (progress_file w) (Some (f t1 t2)) (calls w)).
Proof.
  intros Hsome Ht1 Ht2.
  unfold update_odd_ones_status, bind, load_all_odd_ones_out.
  fold (ledger_of w). rewrite Hsome.
  unfold now, ambient. rewrite Ht1. cbn [env progress_file odd_ones_file calls].
  rewrite Ht2. cbn [env progress_file odd_ones_file calls].
  rewrite Hsome. reflexivity.
Qed.

(** C10.  A status update addressed by station identifier alone, on a
    ledger whose scope keys are distinct:
    - if no station record of any scope has the identifier, the call
      returns normally and leaves the whole state as it was (no write);
    - otherwise the ledger is written once, and differs from the old one in
      one station record only, the first with that identifier in the first
      scope (in iteration order) that has one: its status and detail are the
      ones given and its last-attempt timestamp is the clock's, and that
      scope's last-updated timestamp is the next reading of the clock. *)
Theorem update_odd_ones_status_first_match (pfid' status : string)
    (reason : json) (w : world) :
  NoDup (dict_keys (ledger_of w)) ->
  ((forall sk sd, In (sk, sd) (ledger_of w) -> pfid_absent pfid' (stations sd)) ->
   update_odd_ones_status pfid' status reason None w = (Ret tt, w))
  /\ (forall before after sk sd sb s sa t1 e1 t2 e2,
        ledger_of w = before ++ (sk, sd) :: after ->
        (forall sk' sd', In (sk', sd') before ->
                         pfid_absent pfid' (stations sd')) ->
        stations sd = sb ++ s :: sa ->
        pfid s = pfid' ->
        pfid_absent pfid' sb ->
        datetime_now (env w) = (t1, e1) ->
        datetime_now e1 = (t2, e2) ->
        update_odd_ones_status pfid' status reason None w
        = (Ret tt,
           mk_world e2 (progress_file w)
             (Some (before
                    ++ (sk, site_updated sd
                              (sb ++ station_updated s status reason t1 :: sa)
                              t2)
                    :: after))
             (calls w))).
Proof.
  intros Hnodup. split.
  - intros Habs. apply update_odd_ones_status_no_match.
    apply update_sites_loop_absent.
    intros sk sd _ Hsd. apply (Habs sk sd). now apply dict_lookup_in.
  - intros before after sk sd sb s sa t1 e1 t2 e2 Hsplit Hbefore Hst Hp Hsb
      Ht1 Ht2.
    subst pfid'.
    assert (Hnin : ~ In sk (dict_keys before)).
    { rewrite Hsplit in Hnodup. unfold dict_keys in *. rewrite map_app in Hnodup.
      simpl in Hnodup. apply NoDup_remove_2 in Hnodup.
      intros Hin. apply Hnodup. apply in_or_app. now left. }
    rewrite (update_odd_ones_status_match (pfid s) status reason None w
               t1 t2 e1 e2
               (fun attempt updated =>
                  dict_set sk
                    (site_updated sd
                       (sb ++ station_updated s status reason attempt :: sa)
                       updated)
                    (ledger_of w))); try assumption.
    + rewrite Hsplit, dict_set_middle by assumption. reflexivity.
    + intros attempt updated. cbn [truthy_str].
      rewrite Hsplit at 1. unfold dict_keys. rewrite map_app. cbn [map fst].
      apply update_sites_loop_first; try assumption.
      * intros sk' sd' Hin Hsd'. apply (Hbefore sk' sd').
        apply dict_lookup_in in Hsd'. rewrite Hsplit in Hsd', Hnodup.
        now apply (in_before_of_key before ((sk, sd) :: after)).
      * rewrite Hsplit. now apply dict_lookup_middle.
Qed.

End Ledger.

(** ** Saving a batch of deviating stations *)

Lemma nodup_constant {A} (dec : forall a b : A, {a = b} + {a <> b}) (x : A)
    (l : list A) :
  l <> [] -> (forall y, In y l -> y = x) -> nodup dec l = [x].
Proof.
  induction l as [|y l IH]; intros Hne Hall; [congruence|].
  assert (y = x) by (apply Hall; now left). subst y. simpl.
  destruct (in_dec dec x l) as [Hin|Hnin].
  - apply IH.
    + intros ->. inversion Hin.
    + intros y Hy. apply Hall. now right.
  - destruct l as [|z l]; [reflexivity|].
    exfalso. apply Hnin. left. apply Hall. right. now left.
Qed.

Lemma nodup_singleton_constant {A} (dec : forall a b : A, {a = b} + {a <> b})
    (x : A) (l : list A) :
  nodup dec l = [x] -> forall y, In y l -> y = x.
Proof.
  intros Heq y Hin. apply (nodup_In dec) in Hin. rewrite Heq in Hin.
  destruct Hin as [<-|[]]. reflexivity.
Qed.

Section Saving.

Context {E : External}.

(** C9.  Saving a non-empty batch with neither a level-2 identifier nor a
    mode always succeeds and writes one entry holding the whole batch:
    - when every station of the batch carries the same level-2 identifier
      [a], the entry is keyed [level1-a], with mode [acn-acc] and level-2
      identifier [a];
    - when two stations of the batch carry different level-2 identifiers,
      the entry is keyed by the level-1 identifier alone, with mode
      [acn-only] and no level-2 identifier. *)
Theorem save_odd_ones_out_infers_scope (odd_ones : list scan_result)
    (schedule_to_apply : json) (acn_id acg_id acs_id : option string)
    (w : world) (t1 t2 : string) (e1 e2 : Env) :
  odd_ones <> [] ->
  datetime_now (env w) = (t1, e1) ->
  datetime_now e1 = (t2, e2) ->
  (forall a,
     (forall r, In r odd_ones -> r_acc_id r = Some a) ->
     save_odd_ones_out odd_ones schedule_to_apply acn_id None acg_id acs_id
       None w
     = (Ret tt,
        mk_world e2 (progress_file w)
          (Some (dict_set (fmt (batch_acn acn_id odd_ones) ++ "-" ++ a)%string
                   (mk_site_data "acn-acc" (batch_acn acn_id odd_ones)
                      (Some a) acg_id acs_id t1 t2 schedule_to_apply
                      (map station_of_result odd_ones))
                   (ledger_of w)))
          (calls w)))
  /\ ((exists r1 r2, In r1 odd_ones /\ In r2 odd_ones
                     /\ r_acc_id r1 <> r_acc_id r2) ->
      save_odd_ones_out odd_ones schedule_to_apply acn_id None acg_id acs_id
        None w
      = (Ret tt,
         mk_world e2 (progress_file w)
           (Some (dict_set (key_str (batch_acn acn_id odd_ones))
                    (mk_site_data "acn-only" (batch_acn acn_id odd_ones)
                       None acg_id acs_id t1 t2 schedule_to_apply
                       (map station_of_result odd_ones))
                    (ledger_of w)))
           (calls w))).
Proof.
  intros Hne Ht1 Ht2.
  assert (Hlen : Nat.eqb (length odd_ones) 0 = false).
  { destruct odd_ones; [congruence|reflexivity]. }
  unfold save_odd_ones_out. fold (batch_acn acn_id odd_ones).
  rewrite Hlen. cbn [is_none opt_str_eqb negb andb].
  split.
  - intros a Hall.
    rewrite (nodup_constant opt_string_dec (Some a)).
    + unfold bind, load_all_odd_ones_out, now, ambient. fold (ledger_of w).
      rewrite Ht1. cbn [env progress_file odd_ones_file calls].
      rewrite Ht2. cbn [env progress_file odd_ones_file calls].
      reflexivity.
    + destruct odd_ones; [congruence|discriminate].
    + intros y Hy. apply in_map_iff in Hy. destruct Hy as (r & <- & Hr).
      now apply Hall.
  - intros (r1 & r2 & Hr1 & Hr2 & Hdiff).
    destruct (nodup opt_string_dec (map r_acc_id odd_ones)) as [|a [|b accs]]
      eqn:Haccs.
    + exfalso. apply (in_map r_acc_id) in Hr1.
      apply (nodup_In opt_string_dec) in Hr1. rewrite Haccs in Hr1.
      inversion Hr1.
    + exfalso. apply Hdiff.
      rewrite (nodup_singleton_constant _ _ _ Haccs (r_acc_id r1)),
        (nodup_singleton_constant _ _ _ Haccs (r_acc_id r2));
        auto using in_map.
    + unfold bind, load_all_odd_ones_out, now, ambient. fold (ledger_of w).
      rewrite Ht1. cbn [env progress_file odd_ones_file calls].
      rewrite Ht2. cbn [env progress_file odd_ones_file calls].
      reflexivity.
Qed.

End Saving.

(** ** Tokens of the scope specifier *)

Lemma append_assoc (a b c : string) :
  ((a ++ b) ++ c = a ++ (b ++ c))%string.
Proof. induction a as [|x a IH]; simpl; [reflexivity|]. now rewrite IH. Qed.

Lemma append_empty_r (a : string) : (a ++ "" = a)%string.
Proof. induction a as [|x a IH]; simpl; [reflexivity|]. now rewrite IH. Qed.

Lemma replace_char_append (old new : ascii) (a b : string) :
  replace_char old new (a ++ b)
  = (replace_char old new a ++ replace_char old new b)%string.
Proof. induction a as [|x a IH]; simpl; [reflexivity|]. now rewrite IH. Qed.

Lemma replace_char_separator_free (s : string) :
  separator_free s = true -> replace_char hyphen " "%char s = s.
Proof.
  induction s as [|c s IH]; simpl; [reflexivity|].
  intros H. apply andb_prop in H. destruct H as [H Hs].
  apply andb_prop in H. destruct H as [_ Hh].
  apply negb_true_iff in Hh. rewrite Hh, IH by assumption. reflexivity.
Qed.

Lemma replace_char_join (tokens : list string) :
  Forall clean_token tokens ->
  replace_char hyphen " "%char (join " " tokens) = join " " tokens.
Proof.
  induction tokens as [|t [|t' ts] IH]; intros Hall.
  - reflexivity.
  - inversion Hall as [|? ? [_ Ht] _]; subst. simpl.
    now apply replace_char_separator_free.
  - inversion Hall as [|? ? [_ Ht] Hrest]; subst.
    change (join " " (t :: t' :: ts))
      with (t ++ " " ++ join " " (t' :: ts))%string.
    rewrite !replace_char_append, IH by assumption.
    rewrite replace_char_separator_free by assumption. reflexivity.
Qed.

Lemma split_ws_from_token (t cur rest : string) :
  separator_free t = true ->
  split_ws_from cur (t ++ rest) = split_ws_from (cur ++ t) rest.
Proof.
  revert cur. induction t as [|c t IH]; intros cur Ht; simpl.
  - now rewrite append_empty_r.
  - simpl in Ht. apply andb_prop in Ht. destruct Ht as [H Ht].
    apply andb_prop in H. destruct H as [Hs _].
    apply negb_true_iff in Hs. rewrite Hs, IH by assumption.
    now rewrite append_assoc.
Qed.

Lemma split_ws_join (tokens : list string) :
  Forall clean_token tokens -> split_ws (join " " tokens) = tokens.
Proof.
  unfold split_ws.
  induction tokens as [|t [|t' ts] IH]; intros Hall.
  - reflexivity.
  - inversion Hall as [|? ? [Hne Ht] _]; subst. simpl.
    rewrite <- (append_empty_r t) at 1.
    rewrite split_ws_from_token by assumption. simpl.
    destruct (String.eqb t "") eqn:Heq; [|reflexivity].
    apply String.eqb_eq in Heq. contradiction.
  - inversion Hall as [|? ? [Hne Ht] Hrest]; subst.
    change (join " " (t :: t' :: ts))
      with (t ++ String " "%char (join " " (t' :: ts)))%string.
    rewrite split_ws_from_token by assumption.
    cbn [append split_ws_from]. change (is_space " "%char) with true.
    cbv iota. rewrite IH by assumption.
    destruct (String.eqb t "") eqn:Heq; [|reflexivity].
    apply String.eqb_eq in Heq. contradiction.
Qed.

Lemma rstrip_separator_free (s : string) :
  separator_free s = true -> rstrip s = s.
Proof.
  induction s as [|c s IH]; simpl; [reflexivity|].
  intros H. apply andb_prop in H. destruct H as [H Hs].
  apply andb_prop in H. destruct H as [Hsp _].
  apply negb_true_iff in Hsp. rewrite Hsp, IH by assumption. reflexivity.
Qed.

Lemma strip_separator_free (s : string) :
  separator_free s = true -> strip s = s.
Proof.
  intros Hs. unfold strip. rewrite rstrip_separator_free by assumption.
  destruct s as [|c s]; [reflexivity|]. simpl in *.
  apply andb_prop in Hs. destruct Hs as [H _].
  apply andb_prop in H. destruct H as [Hsp _].
  apply negb_true_iff in Hsp. now rewrite Hsp.
Qed.

Lemma pfid_parts_clean (tokens : list string) :
  Forall clean_token tokens -> pfid_parts tokens = tokens.
Proof.
  intros Hall. unfold pfid_parts.
  rewrite replace_char_join, split_ws_join by assumption.
  induction Hall as [|t ts [Hne Ht] _ IH]; [reflexivity|].
  simpl. rewrite strip_separator_free by assumption.
  destruct (String.eqb t "") eqn:Heq.
  - apply String.eqb_eq in Heq. contradiction.
  - simpl. rewrite strip_separator_free by assumption. now rewrite IH.
Qed.

(** The tokens that the parser works with are the tokens of the
    arguments. *)
Lemma separator_free_append (a b : string) :
  separator_free (a ++ b) = separator_free a && separator_free b.
Proof.
  induction a as [|c a IH]; simpl; [reflexivity|].
  now rewrite IH, !andb_assoc.
Qed.

Lemma tokens_from_clean (s : string) :
  forall cur, separator_free cur = true ->
              Forall clean_token (tokens_from cur s).
Proof.
  induction s as [|c s IH]; intros cur Hcur; cbn [tokens_from].
  - destruct (String.eqb cur "") eqn:Hempty; [constructor|].
    apply String.eqb_neq in Hempty. now repeat constructor.
  - destruct (is_separator c) eqn:Hsep.
    + destruct (String.eqb cur "") eqn:Hempty; [now apply IH|].
      apply String.eqb_neq in Hempty.
      constructor; [now split|now apply IH].
    + apply IH. rewrite separator_free_append, Hcur. cbn [separator_free andb].
      unfold is_separator in Hsep. apply orb_false_elim in Hsep.
      destruct Hsep as [-> ->]. reflexivity.
Qed.

Lemma tokens_from_separator (sep : ascii) (b : string) :
  is_separator sep = true ->
  forall a cur,
    tokens_from cur (a ++ String sep b) = tokens_from cur a ++ tokens_from "" b.
Proof.
  intros Hsep. induction a as [|c a IH]; intros cur;
    cbn [append tokens_from].
  - rewrite Hsep. now destruct (String.eqb cur "").
  - destruct (is_separator c); [|apply IH].
    destruct (String.eqb cur ""); rewrite IH; reflexivity.
Qed.

Lemma tokens_from_join (args : list string) :
  tokens_from "" (join " " args) = scope_tokens args.
Proof.
  unfold scope_tokens.
  induction args as [|a [|b rest] IH]; [reflexivity| |].
  - cbn [join flat_map]. now rewrite app_nil_r.
  - change (join " " (a :: b :: rest))
      with (a ++ String " "%char (join " " (b :: rest)))%string.
    rewrite tokens_from_separator by reflexivity.
    rewrite IH. reflexivity.
Qed.

Lemma split_ws_from_replace (s : string) :
  forall cur,
    split_ws_from cur (replace_char hyphen " "%char s) = tokens_from cur s.
Proof.
  induction s as [|c s IH]; intros cur; [reflexivity|].
  cbn [replace_char split_ws_from tokens_from]. unfold is_separator.
  destruct (Ascii.eqb c hyphen) eqn:Hc.
  - apply Ascii.eqb_eq in Hc. subst c.
    change (is_space " "%char) with true. rewrite orb_true_r.
    now rewrite !IH.
  - rewrite orb_false_r. now rewrite !IH.
Qed.

Lemma strip_filter_clean (tokens : list string) :
  Forall clean_token tokens ->
  map strip
    (filter (fun part => negb (String.eqb (strip part) "")) tokens)
  = tokens.
Proof.
  induction 1 as [|t ts [Hne Ht] _ IH]; [reflexivity|].
  cbn [filter]. rewrite strip_separator_free by assumption.
  apply String.eqb_neq in Hne. rewrite Hne. cbn [negb map].
  now rewrite strip_separator_free, IH.
Qed.

Lemma pfid_parts_tokens (args : list string) :
  pfid_parts args = scope_tokens args.
Proof.
  unfold pfid_parts, split_ws.
  rewrite split_ws_from_replace, tokens_from_join.
  apply strip_filter_clean. rewrite <- tokens_from_join.
  now apply tokens_from_clean.
Qed.

Section EntryPoint.

Context {E : External}.

(** C8.  For an invocation without the [--retry] flag, the tokens supplied
    being the maximal runs of characters other than white space and hyphens
    in the scope arguments:
    - when the scope arguments hold no token (there is no argument, or the
      arguments are empty or made of separators), [main] ends in
      [sys.exit(1)] and the state is exactly what it was: no external call
      was made and no file was touched;
    - the tokens of any arguments are not empty, and when there are one to
      four of them they are mapped in order to the four levels, and the
      mode is the label of the deepest level that got a token;
    - tokens that are given one per argument are the tokens supplied. *)
Theorem main_scope_tokens (main_retry : M unit) (argv : list string)
    (w : world) :
  ~ In "--retry" argv ->
  (scope_tokens (scope_args argv) = [] ->
   main main_retry argv w = (Exit 1%Z, w))
  /\ (forall args,
        Forall clean_token (scope_tokens args)
        /\ (1 <= length (scope_tokens args) <= 4 ->
            acn (parse_pfid_input args) = nth_error (scope_tokens args) 0
            /\ acc (parse_pfid_input args) = nth_error (scope_tokens args) 1
            /\ acg (parse_pfid_input args) = nth_error (scope_tokens args) 2
            /\ acs (parse_pfid_input args) = nth_error (scope_tokens args) 3
            /\ mode (parse_pfid_input args)
               = nth_error mode_labels (length (scope_tokens args) - 1)))
  /\ (forall tokens,
        Forall clean_token tokens -> scope_tokens tokens = tokens).
Proof.
  intros Hretry. split; [|split].
  - intros Hparts. unfold main.
    destruct (in_dec string_dec "--retry" argv) as [Hin|_]; [contradiction|].
    destruct (Nat.ltb (length argv) 2); [reflexivity|].
    fold (scope_args argv). unfold parse_pfid_input.
    rewrite pfid_parts_tokens, Hparts. reflexivity.
  - intros args. split.
    + rewrite <- tokens_from_join. now apply tokens_from_clean.
    + intros Hlen. unfold parse_pfid_input. rewrite pfid_parts_tokens.
      destruct (scope_tokens args) as [|t1 [|t2 [|t3 [|t4 [|t5 ts]]]]];
        simpl in Hlen; try lia; repeat split; reflexivity.
  - intros tokens Hclean.
    rewrite <- pfid_parts_tokens. now apply pfid_parts_clean.
Qed.

End EntryPoint.

(** ** The prefix filter of a scan *)

(** The prefix that a scope of three levels is rendered to. *)
Lemma build_pfid_prefix_acg (l1 l2 l3 : string) :
  l2 <> "" -> l3 <> "" ->
  build_pfid_prefix (Some l1) (Some l2) (Some l3) None
  = Ok (l1 ++ "-" ++ l2 ++ "-" ++ l3)%string.
Proof.
  intros H2 H3. unfold build_pfid_prefix. cbn [truthy_str fmt].
  apply String.eqb_neq in H2. apply String.eqb_neq in H3.
  rewrite H2, H3. reflexivity.
Qed.

(** The filter of [process_stations] on one LiteON entry: the entry is kept
    iff its identifier starts with the prefix, and counted as filtered out
    otherwise. *)
Lemma select_stations_loop_prefix (pfid' evse prefix : string)
    (kept : list json) (filtered_out : nat) :
  pfid' <> "" -> prefix <> "" ->
  contains "liteon" (lower evse) = true ->
  select_stations_loop [mk_station_entry (Some pfid') (Some evse)]
    (Some prefix) kept filtered_out
  = Ok (if startswith pfid' prefix
        then (kept ++ [mk_station_entry (Some pfid') (Some evse)],
              filtered_out)
        else (kept, filtered_out + 1)).
Proof.
  intros Hp Hpre Hlite.
  cbn [select_stations_loop mk_station_entry app py_get res_bind].
  change (obj_get [("pfid", JStr pfid'); ("evse_type", JStr evse)] "pfid"
            JNull) with (JStr pfid').
  change (obj_get [("pfid", JStr pfid'); ("evse_type", JStr evse)]
            "evse_type" (JStr "Unknown")) with (JStr evse).
  cbn [truthy truthy_str fmt py_text res_bind].
  apply String.eqb_neq in Hp. apply String.eqb_neq in Hpre.
  rewrite Hp, Hpre. cbn [negb res_bind].
  destruct (startswith pfid' prefix); cbn [negb]; [|reflexivity].
  now rewrite Hlite.
Qed.

(** C6, fourth level: with the scope [0051-09-02-02], [process_stations]
    builds the prefix [0051-09-02-02] and its filter keeps the station
    [0051-09-02-021], whose fourth segment is [021], not [02]. *)
Theorem acs_prefix_keeps_longer_segment :
  build_pfid_prefix (Some "0051") (Some "09") (Some "02") (Some "02")
  = Ok "0051-09-02-02"
  /\ select_stations_loop
       [mk_station_entry (Some "0051-09-02-021") (Some "LiteON 48A")]
       (Some "0051-09-02-02") [] 0
     = Ok ([mk_station_entry (Some "0051-09-02-021") (Some "LiteON 48A")], 0)
  /\ nth_error (split_on hyphen "0051-09-02-021") 3 = Some "021"
  /\ fst (process_stations (E := scripted) (Some "0051") (Some "09")
            (Some "02") (Some "02") None
            (scripted_world
               (mk_script [] [] []
                  [Some (JObj [("a", mk_station_entry (Some "0051-09-02-021")
                                       (Some "LiteON 48A"))])]
                  None true)
               None None))
     = Ret [mk_scan_result "0051-09-02-021" (Some "0051") (Some "09")
              (Some "02") (Some "021") JNull true None []].
Proof. repeat split; vm_compute; reflexivity. Qed.

(** ** Running the monad *)

Section Runs.

Context {E : External}.

Lemma bind_ret {A B} (m : M A) (k : A -> M B) (w w' : world) (a : A) :
  m w = (Ret a, w') -> bind m k w = k a w'.
Proof. intros H. unfold bind. now rewrite H. Qed.

Lemma bind_raise {A B} (m : M A) (k : A -> M B) (w w' : world) (e : pyexn) :
  m w = (Raise e, w') -> bind m k w = (Raise e, w').
Proof. intros H. unfold bind. now rewrite H. Qed.

Lemma lift_ok {A} (r : res A) (a : A) (w : world) :
  r = Ok a -> lift r w = (Ret a, w).
Proof. intros ->. reflexivity. Qed.

Lemma after_calls_app (w : world) (e e' : Env) (cs cs' : list call) :
  after_calls (after_calls w e cs) e' cs' = after_calls w e' (cs ++ cs').
Proof. unfold after_calls. simpl. now rewrite app_assoc. Qed.

Lemma after_calls_nil (w : world) : after_calls w (env w) [] = w.
Proof. unfold after_calls. rewrite app_nil_r. now destruct w. Qed.

Lemma get_configuration_run (pfid' key : string) (w : world)
    (r : proc_result) (e' : Env) :
  curl_get_configuration pfid' key (env w) = (r, e') ->
  get_configuration pfid' key w
  = (Ret (decoded r), after_calls w e' [CallGetConfiguration pfid' key]).
Proof.
  intros H. unfold get_configuration, bind, external. rewrite H.
  unfold decoded. destruct r as [msg|out]; [reflexivity|].
  destruct (json_loads out); reflexivity.
Qed.

Lemma set_configuration_run (pfid' key value : string) (w : world)
    (r : proc_result) (e' : Env) :
  curl_set_configuration pfid' key value (env w) = (r, e') ->
  set_configuration pfid' key value w
  = (Ret (decoded r),
     after_calls w e' [CallSetConfiguration pfid' key value]).
Proof.
  intros H. unfold set_configuration, bind, external. rewrite H.
  unfold decoded. destruct r as [msg|out]; [reflexivity|].
  destruct (json_loads out); reflexivity.
Qed.

(** A failed call is reported as an object with the one key [error]. *)
Lemma decoded_call_failed (r : proc_result) :
  call_failed r -> decoded r = JObj [("error", JStr (failure_detail r))].
Proof.
  destruct r as [msg|out]; simpl; [reflexivity|]. now intros ->.
Qed.

Lemma extract_pricing_enabled_failed (r : proc_result) :
  call_failed r -> extract_pricing_enabled (decoded r) = Ok None.
Proof. intros H. now rewrite decoded_call_failed. Qed.

Lemma extract_pricing_schedule_failed (r : proc_result) :
  call_failed r -> extract_pricing_schedule (decoded r) = Ok JNull.
Proof. intros H. now rewrite decoded_call_failed. Qed.

(** ** Scanning *)

(** One turn of the scan loop whose two readings decode without an
    exception. *)
Lemma check_station_run (pfid' : string) (acn_id acc_id : option string)
    (all_results : list scan_result) (w : world)
    (r1 r2 : proc_result) (e1 e2 e3 : Env) (enabled : option bool)
    (cs : list call) (sch : json) (verdict : option bool)
    (found : list json) :
  curl_get_configuration pfid' "PricingScheduleEnable" (env w) = (r1, e1) ->
  extract_pricing_enabled (decoded r1) = Ok enabled ->
  enable_step pfid' enabled e1 = (e2, cs) ->
  curl_get_configuration pfid' "PricingSchedule" e2 = (r2, e3) ->
  extract_pricing_schedule (decoded r2) = Ok sch ->
  check_schedule_values sch expected_f_default = Ok (verdict, found) ->
  check_station pfid' acn_id acc_id all_results w
  = (Ret (all_results
          ++ [station_result pfid' acn_id acc_id sch verdict found]),
     after_calls w e3
       ([CallGetConfiguration pfid' "PricingScheduleEnable"] ++ cs
        ++ [CallGetConfiguration pfid' "PricingSchedule"])).
Proof.
  intros Hr1 Hen Hstep Hr2 Hsch Hchk.
  unfold check_station.
  rewrite (bind_ret _ _ _ _ _ (get_configuration_run _ _ _ _ _ Hr1)).
  rewrite (bind_ret _ _ _ _ _ (lift_ok _ _ _ Hen)).
  assert (Hafter :
    (match enabled with
     | Some true => ret true
     | _ => set_configuration pfid' "PricingScheduleEnable" "true" ;; ret true
     end) (after_calls w e1 [CallGetConfiguration pfid' "PricingScheduleEnable"])
    = (Ret true,
       after_calls w e2
         ([CallGetConfiguration pfid' "PricingScheduleEnable"] ++ cs))).
  { unfold enable_step in Hstep.
    destruct enabled as [[|]|]; injection Hstep as <- <-;
      try (rewrite app_nil_r; reflexivity);
      destruct (curl_set_configuration pfid' "PricingScheduleEnable" "true" e1)
        as [rs e2'] eqn:Hset;
      rewrite (bind_ret _ _ _ _ _
                 (set_configuration_run _ _ _
                    (after_calls w e1 _) _ _ Hset));
      unfold ret; rewrite after_calls_app; reflexivity. }
  rewrite (bind_ret _ _ _ _ _ Hafter).
  rewrite (bind_ret _ _ _ _ _
             (get_configuration_run _ _ (after_calls w e2 _) _ _ Hr2)).
  rewrite (bind_ret _ _ _ _ _ (lift_ok _ _ _ Hsch)).
  rewrite (bind_ret _ _ _ _ _ (lift_ok _ _ _ Hchk)).
  unfold ret, station_result. rewrite after_calls_app, <- app_assoc.
  reflexivity.
Qed.

(** C7, amended.  A reading that fails at call level (a transport error or
    a body that does not decode) never ends the scan loop: the station gets
    its entry in the results and the loop goes on with the stations after
    it.
    - When the reading of the schedule fails, the entry has no schedule, an
      indeterminate verdict and no mismatch.
    - When the reading of the enable flag fails, the flag is written as
      enabled and the verdict is the one decided by the reading of the
      schedule. *)
Theorem check_stations_loop_survives_failed_read (pfid' : string)
    (rest : list string) (acn_id acc_id : option string)
    (all_results : list scan_result) (w : world) :
  (forall r1 e1 enabled e2 cs r2 e3,
     curl_get_configuration pfid' "PricingScheduleEnable" (env w) = (r1, e1) ->
     extract_pricing_enabled (decoded r1) = Ok enabled ->
     enable_step pfid' enabled e1 = (e2, cs) ->
     curl_get_configuration pfid' "PricingSchedule" e2 = (r2, e3) ->
     call_failed r2 ->
     check_stations_loop (pfid' :: rest) acn_id acc_id all_results w
     = check_stations_loop rest acn_id acc_id
         (all_results ++ [station_result pfid' acn_id acc_id JNull None []])
         (after_calls w e3
            ([CallGetConfiguration pfid' "PricingScheduleEnable"] ++ cs
             ++ [CallGetConfiguration pfid' "PricingSchedule"])))
  /\ (forall r1 e1 rs e2 r2 e3 sch verdict found,
        curl_get_configuration pfid' "PricingScheduleEnable" (env w)
        = (r1, e1) ->
        call_failed r1 ->
        curl_set_configuration pfid' "PricingScheduleEnable" "true" e1
        = (rs, e2) ->
        curl_get_configuration pfid' "PricingSchedule" e2 = (r2, e3) ->
        extract_pricing_schedule (decoded r2) = Ok sch ->
        check_schedule_values sch expected_f_default = Ok (verdict, found) ->
        check_stations_loop (pfid' :: rest) acn_id acc_id all_results w
        = check_stations_loop rest acn_id acc_id
            (all_results
             ++ [station_result pfid' acn_id acc_id sch verdict found])
            (after_calls w e3
               [CallGetConfiguration pfid' "PricingScheduleEnable";
                CallSetConfiguration pfid' "PricingScheduleEnable" "true";
                CallGetConfiguration pfid' "PricingSchedule"])).
Proof.
  split.
  - intros r1 e1 enabled e2 cs r2 e3 Hr1 Hen Hstep Hr2 Hfail.
    cbn [check_stations_loop].
    apply bind_ret.
    apply (check_station_run pfid' acn_id acc_id all_results w r1 r2 e1 e2 e3
             enabled cs JNull None []); auto.
    now apply extract_pricing_schedule_failed.
  - intros r1 e1 rs e2 r2 e3 sch verdict found Hr1 Hfail Hset Hr2 Hsch Hchk.
    cbn [check_stations_loop].
    apply bind_ret.
    apply (check_station_run pfid' acn_id acc_id all_results w r1 r2 e1 e2 e3
             None [CallSetConfiguration pfid' "PricingScheduleEnable" "true"]
             sch verdict found); auto.
    + now apply extract_pricing_enabled_failed.
    + unfold enable_step. now rewrite Hset.
Qed.

(** ** One corrective write *)

Lemma dict_set_set {A} (k : string) (v1 v2 : A) (d : pydict A) :
  dict_set k v2 (dict_set k v1 d) = dict_set k v2 d.
Proof.
  induction d as [|[k' v'] d IH]; simpl.
  - now rewrite String.eqb_refl.
  - destruct (String.eqb k k') eqn:Hk; simpl.
    + now rewrite String.eqb_refl.
    + now rewrite Hk, IH.
Qed.

(** [update_odd_ones_status] with the key of a scope that records the
    station. *)
Lemma update_odd_ones_status_in_scope (sk : string) (sd : site_data)
    (sb sa : list station) (s : station) (status : string) (reason : json)
    (w : world) (t1 t2 : string) (e1 e2 : Env) :
  sk <> "" ->
  dict_lookup sk (ledger_of w) = Some sd ->
  stations sd = sb ++ s :: sa ->
  pfid_absent (pfid s) sb ->
  datetime_now (env w) = (t1, e1) ->
  datetime_now e1 = (t2, e2) ->
  update_odd_ones_status (pfid s) status reason (Some sk) w
  = (Ret tt,
     mk_world e2 (progress_file w)
       (Some (ledger_updated (ledger_of w) sk sd sb s sa status reason t1 t2))
       (calls w)).
Proof.
  intros Hsk Hsd Hst Habs Ht1 Ht2.
  apply (update_odd_ones_status_match (pfid s) status reason (Some sk) w
           t1 t2 e1 e2
           (fun attempt updated =>
              ledger_updated (ledger_of w) sk sd sb s sa status reason
                attempt updated)); try assumption.
  intros attempt updated. cbn [truthy_str fmt].
  apply String.eqb_neq in Hsk. rewrite Hsk. cbn [negb].
  apply (update_sites_loop_first [] [] sk (ledger_of w) sd sb sa s);
    try assumption.
  intros sk' sd' [].
Qed.

(** The same, leaving the readings of the clock aside. *)
Lemma update_odd_ones_status_recorded (sk : string) (sd : site_data)
    (sb sa : list station) (s : station) (status : string) (reason : json)
    (w : world) :
  sk <> "" ->
  dict_lookup sk (ledger_of w) = Some sd ->
  stations sd = sb ++ s :: sa ->
  pfid_absent (pfid s) sb ->
  exists attempt updated e',
    update_odd_ones_status (pfid s) status reason (Some sk) w
    = (Ret tt,
       mk_world e' (progress_file w)
         (Some (ledger_updated (ledger_of w) sk sd sb s sa status reason
                  attempt updated))
         (calls w)).
Proof.
  intros Hsk Hsd Hst Habs.
  destruct (datetime_now (env w)) as [t1 e1] eqn:Ht1.
  destruct (datetime_now e1) as [t2 e2] eqn:Ht2.
  exists t1, t2, e2.
  now apply (update_odd_ones_status_in_scope sk sd sb sa s status reason w
               t1 t2 e1 e2).
Qed.

(** A second update of the same record overrides the first. *)
Lemma ledger_updated_twice (L : ledger) (sk : string) (sd : site_data)
    (sb sa : list station) (s : station) (st1 st2 : string) (r1 r2 : json)
    (a1 u1 a2 u2 : string) :
  ledger_updated (ledger_updated L sk sd sb s sa st1 r1 a1 u1) sk
    (site_updated sd (sb ++ station_updated s st1 r1 a1 :: sa) u1)
    sb (station_updated s st1 r1 a1) sa st2 r2 a2 u2
  = ledger_updated L sk sd sb s sa st2 r2 a2 u2.
Proof. unfold ledger_updated. now rewrite dict_set_set. Qed.

(** Two updates of a recorded station in a row. *)
Lemma update_odd_ones_status_twice (sk : string) (sd : site_data)
    (sb sa : list station) (s : station) (st1 st2 : string) (r1 r2 : json)
    (w : world) :
  sk <> "" ->
  dict_lookup sk (ledger_of w) = Some sd ->
  stations sd = sb ++ s :: sa ->
  pfid_absent (pfid s) sb ->
  exists attempt updated e',
    (update_odd_ones_status (pfid s) st1 r1 (Some sk) ;;
     update_odd_ones_status (pfid s) st2 r2 (Some sk)) w
    = (Ret tt,
       mk_world e' (progress_file w)
         (Some (ledger_updated (ledger_of w) sk sd sb s sa st2 r2
                  attempt updated))
         (calls w)).
Proof.
  intros Hsk Hsd Hst Habs.
  destruct (update_odd_ones_status_recorded sk sd sb sa s st1 r1 w)
    as (a1 & u1 & e1 & Hrun1); try assumption.
  rewrite (bind_ret _ _ _ _ _ Hrun1).
  set (w1 := mk_world e1 _ _ _).
  destruct (update_odd_ones_status_recorded sk
              (site_updated sd (sb ++ station_updated s st1 r1 a1 :: sa) u1)
              sb sa (station_updated s st1 r1 a1) st2 r2 w1)
    as (a2 & u2 & e2 & Hrun2); try assumption.
  - subst w1. unfold ledger_of; simpl. unfold ledger_updated.
    apply dict_lookup_set_same.
  - reflexivity.
  - exists a2, u2, e2. simpl in Hrun2. rewrite Hrun2. subst w1.
    unfold ledger_of at 1; simpl. now rewrite ledger_updated_twice.
Qed.

Lemma bind_assoc {A B C} (m : M A) (f : A -> M B) (g : B -> M C) (w : world) :
  bind (bind m f) g w = bind m (fun a => bind (f a) g) w.
Proof. unfold bind. destruct (m w) as [[a|c|e] w']; reflexivity. Qed.

Lemma bind_ret_l {A B} (a : A) (k : A -> M B) (w : world) :
  bind (ret a) k w = k a w.
Proof. reflexivity. Qed.

(** A run of [update_station] for a station that the scope records, when
    the write returned an object. *)
Lemma update_station_run (sk : string) (sd : site_data)
    (sb sa : list station) (s : station) (value : string)
    (counts : nat * nat) (w : world) (r : proc_result) (e1 : Env)
    (d : pydict json) :
  sk <> "" ->
  dict_lookup sk (ledger_of w) = Some sd ->
  stations sd = sb ++ s :: sa ->
  pfid_absent (pfid s) sb ->
  curl_set_configuration (pfid s) "PricingSchedule" value (env w) = (r, e1) ->
  decoded r = JObj d ->
  attempt_recorded (update_station (pfid s) value (Some sk) counts w)
    w sk sd sb s sa value
    (snd (nats_verdict (obj_get d "natsResponse" (JObj [])) counts))
    (match dict_lookup "error" d with
     | Some _ => "error"
     | None =>
         fst (fst (nats_verdict (obj_get d "natsResponse" (JObj [])) counts))
     end)
    (match dict_lookup "error" d with
     | Some error_msg => error_msg
     | None =>
         snd (fst (nats_verdict (obj_get d "natsResponse" (JObj [])) counts))
     end).
Proof.
  intros Hsk Hsd Hst Habs Hset Hdec.
  destruct counts as [accepted_count rejected_count].
  unfold update_station.
  rewrite (bind_ret _ _ _ _ _ (set_configuration_run _ _ _ _ _ _ Hset)).
  rewrite Hdec. cbn [py_get].
  rewrite (bind_ret _ _ _ _ _ (lift_ok _ _ _ eq_refl)).
  set (w0 := after_calls w e1 _).
  set (nr := obj_get d "natsResponse" (JObj [])).
  assert (Hsd0 : dict_lookup sk (ledger_of w0) = Some sd) by exact Hsd.
  (* the update that follows from [natsResponse], then the one for [error] *)
  assert (Hgen : forall st1 r1 counts1,
    attempt_recorded
      (bind (update_odd_ones_status (pfid s) st1 r1 (Some sk) ;; ret counts1)
         (fun counts =>
            match result_error (JObj d) with
            | Some error_msg =>
                update_odd_ones_status (pfid s) "error" error_msg (Some sk) ;;
                ret counts
            | None => ret counts
            end) w0)
      w sk sd sb s sa value counts1
      (match dict_lookup "error" d with Some _ => "error" | None => st1 end)
      (match dict_lookup "error" d with Some m => m | None => r1 end)).
  { intros st1 r1 counts1. rewrite bind_assoc. cbn [result_error].
    destruct (dict_lookup "error" d) as [msg|].
    - destruct (update_odd_ones_status_twice sk sd sb sa s st1 "error" r1 msg
                  w0 Hsk Hsd0 Hst Habs) as (t & u & e' & Hrun).
      exists t, u, e'.
      unfold bind in Hrun |- *.
      destruct (update_odd_ones_status (pfid s) st1 r1 (Some sk) w0)
        as [[[]|c|x] w1]; try discriminate.
      cbn [ret]. cbv beta iota.
      destruct (update_odd_ones_status (pfid s) "error" msg (Some sk) w1)
        as [[[]|c|x] w2]; try discriminate.
      injection Hrun as ->. reflexivity.
    - destruct (update_odd_ones_status_recorded sk sd sb sa s st1 r1 w0
                  Hsk Hsd0 Hst Habs) as (t & u & e' & Hrun).
      exists t, u, e'. unfold bind. rewrite Hrun. reflexivity. }
  unfold nats_verdict. cbn [fst snd].
  destruct nr as [| b | q | str | l | nats]; try apply Hgen.
  destruct (py_eq_str (obj_get nats "status" (JStr "Unknown")) "Accepted");
    apply Hgen.
Qed.




End Runs.

(** ** Retrying a scope *)


Lemma with_status_In (status : string) (l : list station) (s : station) :
  In s (with_status status l) <-> In s l /\ update_status s = status.
Proof.
  unfold with_status. rewrite filter_In, String.eqb_eq. reflexivity.
Qed.


Lemma outstanding_In (sd : site_data) (s : station) :
  In s (outstanding sd)
  <-> In s (stations sd)
      /\ (update_status s = "pending" \/ update_status s = "rejected"
          \/ update_status s = "error").
Proof.
  unfold outstanding. rewrite !in_app_iff, !with_status_In. tauto.
Qed.


Section Retry.

Context {E : External}.

(** The counter of rejections moves only when the record is left in a
    status other than accepted. *)
Lemma nats_verdict_rejected (nr : json) (counts : nat * nat)
    (error : option json) :
  snd (snd (nats_verdict nr counts)) <> snd counts ->
  match error with
  | Some _ => "error"
  | None => fst (fst (nats_verdict nr counts))
  end <> "accepted".
Proof.
  unfold nats_verdict.
  destruct nr as [| b | q | str | l | nats]; cbn [fst snd];
    try (destruct error; discriminate).
  destruct (py_eq_str _ _); cbn [fst snd].
  - congruence.
  - destruct error; discriminate.
Qed.

Lemma nats_verdict_counts (nr : json) (counts : nat * nat) :
  snd counts <= snd (snd (nats_verdict nr counts)).
Proof.
  unfold nats_verdict.
  destruct nr as [| b | q | str | l | nats]; cbn [fst snd]; try lia.
  destruct (py_eq_str _ _); cbn [fst snd]; lia.
Qed.

(** The update loop over identifiers that the scope records, each once. *)
Lemma update_stations_loop_run (sk value : string) (pfids : list string) :
  sk <> "" ->
  writes_return_objects ->
  NoDup pfids ->
  forall (w : world) (counts : nat * nat) (sd : site_data),
    dict_lookup sk (ledger_of w) = Some sd ->
    incl pfids (map pfid (stations sd)) ->
    exists counts1 w1 sd1,
      update_stations_loop pfids value (Some sk) counts w = (Ret counts1, w1)
      /\ dict_lookup sk (ledger_of w1) = Some sd1
      /\ map pfid (stations sd1) = map pfid (stations sd)
      /\ correct_schedule sd1 = correct_schedule sd
      /\ (forall s, In s (stations sd) -> ~ In (pfid s) pfids ->
                    In s (stations sd1))
      /\ calls w1
         = calls w
           ++ map (fun p => CallSetConfiguration p "PricingSchedule" value)
                pfids
      /\ progress_file w1 = progress_file w
      /\ snd counts <= snd counts1
      /\ (snd counts1 <> snd counts ->
          exists s1, In s1 (stations sd1) /\ update_status s1 <> "accepted").
Proof.
  intros Hsk Hobj Hnd.
  induction pfids as [|p rest IH]; intros w counts sd Hsd Hincl.
  - exists counts, w, sd. cbn [update_stations_loop map].
    rewrite app_nil_r. repeat split; auto. congruence.
  - inversion Hnd as [|? ? Hnotin Hnd']; subst.
    assert (Hp : In p (map pfid (stations sd))) by (apply Hincl; now left).
    destruct (split_at_first_pfid (stations sd) p)
      as [Habs|(sb & s & sa & Hst & Hps & Habs)].
    { exfalso. apply in_map_iff in Hp. destruct Hp as (s & Hs & Hin).
      now apply (Habs s Hin). }
    subst p.
    destruct (curl_set_configuration (pfid s) "PricingSchedule" value (env w))
      as [r e1] eqn:Hset.
    destruct (Hobj (pfid s) "PricingSchedule" value (env w)) as [d Hdec].
    rewrite Hset in Hdec. cbn [fst] in Hdec.
    destruct (update_station_run sk sd sb sa s value counts w r e1 d
                Hsk Hsd Hst Habs Hset Hdec) as (t & u & e' & Hrun).
    set (nv := nats_verdict (obj_get d "natsResponse" (JObj [])) counts) in *.
    set (st := match dict_lookup "error" d with
               | Some _ => "error"
               | None => fst (fst nv)
               end) in *.
    set (rs := match dict_lookup "error" d with
               | Some m => m
               | None => snd (fst nv)
               end) in *.
    set (s' := station_updated s st rs t).
    set (sd' := site_updated sd (sb ++ s' :: sa) u).
    set (w' := mk_world e' _ _ _) in Hrun.
    assert (Hsd' : dict_lookup sk (ledger_of w') = Some sd').
    { subst w'. unfold ledger_of; simpl. apply dict_lookup_set_same. }
    assert (Hpf : map pfid (stations sd') = map pfid (stations sd)).
    { subst sd'. cbn [stations site_updated]. rewrite Hst, !map_app.
      reflexivity. }
    destruct (IH Hnd' w' (snd nv) sd' Hsd')
      as (counts1 & w1 & sd1 & Hloop & Hsd1 & Hpf1 & Hcs1 & Hframe & Hcalls
          & Hprog & Hle & Hbad).
    { rewrite Hpf. intros q Hq. apply Hincl. now right. }
    exists counts1, w1, sd1.
    cbn [update_stations_loop]. rewrite (bind_ret _ _ _ _ _ Hrun).
    repeat split; auto.
    + congruence.
    + intros s0 Hin0 Hn0. apply Hframe.
      * subst sd'. cbn [stations site_updated]. rewrite Hst in Hin0.
        apply in_app_or in Hin0. apply in_or_app.
        destruct Hin0 as [Hin0|[Heq|Hin0]]; auto.
        -- subst s0. exfalso. apply Hn0. now left.
        -- right. now right.
      * intros Hin. apply Hn0. now right.
    + rewrite Hcalls. subst w'. cbn [calls map]. rewrite <- app_assoc.
      reflexivity.
    + pose proof (nats_verdict_counts (obj_get d "natsResponse" (JObj []))
                    counts). fold nv in H. lia.
    + intros Hne.
      destruct (Nat.eq_dec (snd counts1) (snd (snd nv))) as [Heq|Hneq].
      * exists s'. split.
        -- apply Hframe.
           ++ subst sd'. cbn [stations site_updated]. apply in_or_app.
              right. now left.
           ++ exact Hnotin.
        -- subst s'. cbn [update_status station_updated]. subst st.
           apply nats_verdict_rejected. fold nv. congruence.
      * now apply Hbad.
Qed.

(** [main_retry_site] on a scope with outstanding records, up to the
    prompt. *)
Lemma main_retry_site_prompt (sk : string) (sd : site_data) (w : world) :
  dict_lookup sk (ledger_of w) = Some sd ->
  outstanding sd <> [] ->
  main_retry_site sk w
  = (response <- input ;;
     if negb (is_yes response) then ret tt
     else
       counts <-
         update_stations_loop (map pfid (outstanding sd))
           (json_dumps (correct_schedule sd)) (Some sk) (0, 0) ;;
       if Nat.eqb (snd counts) 0 then remove_completed_site sk else ret tt) w.
Proof.
  intros Hsd Hout.
  unfold main_retry_site, load_odd_ones_out.
  rewrite bind_assoc. unfold load_all_odd_ones_out at 1.
  unfold bind at 1. fold (ledger_of w). rewrite bind_ret_l, Hsd.
  fold (outstanding sd).
  destruct (stations sd) as [|s0 l] eqn:Hst.
  - exfalso. apply Hout. unfold outstanding. now rewrite Hst.
  - destruct (outstanding sd) as [|s1 l1] eqn:Ho; [congruence|].
    reflexivity.
Qed.



(** A scope with stations none of which is outstanding: the retry asks
    nothing, writes to no station, and is the removal check. *)
Lemma main_retry_site_nothing_outstanding (sk : string) (sd : site_data)
    (w : world) :
  dict_lookup sk (ledger_of w) = Some sd ->
  stations sd <> [] ->
  outstanding sd = [] ->
  main_retry_site sk w = remove_completed_site sk w.
Proof.
  intros Hsd Hst Hout.
  unfold main_retry_site, load_odd_ones_out.
  rewrite bind_assoc. unfold load_all_odd_ones_out at 1.
  unfold bind at 1. fold (ledger_of w). rewrite bind_ret_l, Hsd.
  fold (outstanding sd). rewrite Hout.
  destruct (stations sd); [congruence|reflexivity].
Qed.


End Retry.

(** ** Sweeps and their checkpoint *)

Section Sweep.

Context {E : External}.

Lemma bind_inv {A B} (m : M A) (k : A -> M B) (w w2 : world) (b : B) :
  bind m k w = (Ret b, w2) ->
  exists a w1, m w = (Ret a, w1) /\ k a w1 = (Ret b, w2).
Proof.
  unfold bind. destruct (m w) as [[a|c|x] w1]; try discriminate.
  intros H. now exists a, w1.
Qed.

Lemma scan_step_refl (w : world) : scan_step w w.
Proof. now repeat split. Qed.

Lemma scan_step_trans (w1 w2 w3 : world) :
  scan_step w1 w2 -> scan_step w2 w3 -> scan_step w1 w3.
Proof.
  unfold scan_step. intros (H1 & H2 & H3) (H4 & H5 & H6).
  repeat split; congruence.
Qed.

Lemma lift_inv {A} (r : res A) (w w' : world) (a : A) :
  lift r w = (Ret a, w') -> r = Ok a /\ w' = w.
Proof.
  unfold lift. destruct r; intros H; inversion H; auto.
Qed.

Lemma get_configuration_step (pfid' key : string) (w w' : world) (v : json) :
  get_configuration pfid' key w = (Ret v, w') -> scan_step w w'.
Proof.
  destruct (curl_get_configuration pfid' key (env w)) as [r e'] eqn:Hr.
  rewrite (get_configuration_run _ _ _ _ _ Hr). intros H. inversion H.
  unfold scan_step, after_calls, fetches. simpl.
  rewrite flat_map_app. simpl. now rewrite app_nil_r.
Qed.

Lemma set_configuration_step (pfid' key value : string) (w w' : world)
    (v : json) :
  set_configuration pfid' key value w = (Ret v, w') -> scan_step w w'.
Proof.
  destruct (curl_set_configuration pfid' key value (env w)) as [r e'] eqn:Hr.
  rewrite (set_configuration_run _ _ _ _ _ _ Hr). intros H. inversion H.
  unfold scan_step, after_calls, fetches. simpl.
  rewrite flat_map_app. simpl. now rewrite app_nil_r.
Qed.

Lemma check_station_appends (pfid' : string) (acn_id acc_id : option string)
    (all_results found : list scan_result) (w w' : world) :
  check_station pfid' acn_id acc_id all_results w = (Ret found, w') ->
  (exists new, found = all_results ++ new) /\ scan_step w w'.
Proof.
  unfold check_station. intros H.
  apply bind_inv in H. destruct H as (er & w1 & Hget1 & H).
  apply get_configuration_step in Hget1.
  apply bind_inv in H. destruct H as (en & w2 & Hl1 & H).
  apply lift_inv in Hl1. destruct Hl1 as [_ ->].
  apply bind_inv in H. destruct H as (en' & w3 & Hen & H).
  assert (Hs3 : scan_step w1 w3).
  { destruct en as [[|]|].
    - inversion Hen. apply scan_step_refl.
    - apply bind_inv in Hen. destruct Hen as (v & w2' & Hset & Hret).
      inversion Hret; subst. now apply set_configuration_step in Hset.
    - apply bind_inv in Hen. destruct Hen as (v & w2' & Hset & Hret).
      inversion Hret; subst. now apply set_configuration_step in Hset. }
  apply bind_inv in H. destruct H as (sr & w4 & Hget2 & H).
  apply get_configuration_step in Hget2.
  apply bind_inv in H. destruct H as (sch & w5 & Hl2 & H).
  apply lift_inv in Hl2. destruct Hl2 as [_ ->].
  apply bind_inv in H. destruct H as ([verdict ms] & w6 & Hl3 & H).
  apply lift_inv in Hl3. destruct Hl3 as [_ ->].
  inversion H; subst. split.
  - eexists. reflexivity.
  - eauto using scan_step_trans.
Qed.

Lemma check_stations_loop_appends (pfids : list string)
    (acn_id acc_id : option string) :
  forall (all_results found : list scan_result) (w w' : world),
    check_stations_loop pfids acn_id acc_id all_results w = (Ret found, w') ->
    (exists new, found = all_results ++ new) /\ scan_step w w'.
Proof.
  induction pfids as [|p rest IH]; intros all_results found w w' H.
  - inversion H; subst. split; [exists []; now rewrite app_nil_r|].
    apply scan_step_refl.
  - cbn [check_stations_loop] in H.
    apply bind_inv in H. destruct H as (R1 & w1 & Hone & Hrest).
    apply check_station_appends in Hone. destruct Hone as [[n1 ->] Hs1].
    apply IH in Hrest. destruct Hrest as [[n2 ->] Hs2].
    split.
    + exists (n1 ++ n2). now rewrite app_assoc.
    + eauto using scan_step_trans.
Qed.

(** [process_stations] only appends to the results it is given; it fetches
    the station list of its account once and touches no file. *)
Lemma process_stations_appends (acn_id acc_id acg_id acs_id : option string)
    (all_results : option (list scan_result)) (found : list scan_result)
    (w w' : world) :
  process_stations acn_id acc_id acg_id acs_id all_results w = (Ret found, w') ->
  (exists new, found = or_empty all_results ++ new)
  /\ progress_file w' = progress_file w
  /\ odd_ones_file w' = odd_ones_file w
  /\ fetches (calls w') = fetches (calls w) ++ [(acn_id, acc_id)].
Proof.
  unfold process_stations. intros H.
  apply bind_inv in H. destruct H as (sts & w1 & Hfetch & H).
  assert (Hw1 : progress_file w1 = progress_file w
                /\ odd_ones_file w1 = odd_ones_file w
                /\ fetches (calls w1) = fetches (calls w) ++ [(acn_id, acc_id)]).
  { unfold fetch_station_data, bind, external in Hfetch.
    destruct (curl_station_dashboard acn_id acc_id (env w)) as [d e'].
    assert (Hw : w1 = after_calls w e' [CallFetchStationData acn_id acc_id]).
    { destruct d; inversion Hfetch; reflexivity. }
    subst w1. unfold after_calls, fetches. simpl.
    rewrite flat_map_app. auto. }
  destruct Hw1 as (Hp1 & Ho1 & Hf1).
  assert (Hdone : forall w2, scan_step w1 w2 ->
            progress_file w2 = progress_file w
            /\ odd_ones_file w2 = odd_ones_file w
            /\ fetches (calls w2) = fetches (calls w) ++ [(acn_id, acc_id)]).
  { intros w2 (H1 & H2 & H3). repeat split; congruence. }
  destruct (negb (truthy sts)).
  - inversion H; subst. split; [exists []; now rewrite app_nil_r|].
    apply Hdone, scan_step_refl.
  - apply bind_inv in H. destruct H as (prefix & w2 & Hpre & H).
    assert (w2 = w1) as ->.
    { destruct (truthy_str acg_id).
      - apply bind_inv in Hpre. destruct Hpre as (p & w3 & Hl & Hret).
        apply lift_inv in Hl. destruct Hl as [_ ->]. now inversion Hret.
      - now inversion Hpre. }
    apply bind_inv in H. destruct H as (entries & w3 & Hl & H).
    apply lift_inv in Hl. destruct Hl as [_ ->].
    apply bind_inv in H. destruct H as ([liteon filtered_out] & w4 & Hl & H).
    apply lift_inv in Hl. destruct Hl as [_ ->].
    apply bind_inv in H. destruct H as (pfids & w5 & Hl & H).
    apply lift_inv in Hl. destruct Hl as [_ ->].
    destruct pfids as [|p ps].
    + inversion H; subst. split; [exists []; now rewrite app_nil_r|].
      apply Hdone, scan_step_refl.
    + destruct (text_identifiers (p :: ps)) as [texts other].
      apply bind_inv in H. destruct H as (found1 & w6 & Hloop & H).
      apply check_stations_loop_appends in Hloop. destruct Hloop as [Hnew Hs].
      destruct other as [v|].
      * apply bind_inv in H. destruct H as (x & w7 & _ & H).
        unfold lift in H. discriminate H.
      * inversion H; subst. split; [exact Hnew|]. now apply Hdone.
Qed.

(** Accounts that are already completed are passed over. *)
Lemma main_pfid_loop_skips (done rest : list string) (acn : option string)
    (p : progress) (completed : list string) (found : list scan_result)
    (w : world) :
  incl done completed ->
  main_pfid_loop (done ++ rest) acn p completed found w
  = main_pfid_loop rest acn p completed found w.
Proof.
  induction done as [|a done IH]; intros Hincl; [reflexivity|].
  cbn [app main_pfid_loop].
  destruct (in_dec string_dec a completed) as [_|Hn].
  - apply IH. intros x Hx. apply Hincl. now right.
  - exfalso. apply Hn, Hincl. now left.
Qed.

(** One turn of the loop on an account that is not completed: the
    checkpoint is saved as soon as the account has been scanned. *)
Lemma main_pfid_loop_saves (acc_id : string) (more : list string)
    (acn : option string) (p : progress) (completed : list string)
    (found found1 : list scan_result) (w w1 : world) :
  ~ In acc_id completed ->
  process_stations acn (Some acc_id) None None (Some found) w = (Ret found1, w1) ->
  main_pfid_loop (acc_id :: more) acn p completed found w
  = main_pfid_loop more acn
      (progress_with p (completed ++ [acc_id]) found1)
      (completed ++ [acc_id]) found1
      (checkpointed w1 (progress_with p (completed ++ [acc_id]) found1)).
Proof.
  intros Hn Hscan. cbn [main_pfid_loop].
  destruct (in_dec string_dec acc_id completed) as [Hin|_]; [contradiction|].
  rewrite (bind_ret _ _ _ _ _ Hscan). reflexivity.
Qed.

Lemma progress_with_twice (p : progress) (c1 c2 : list string)
    (r1 r2 : list scan_result) :
  progress_with (progress_with p c1 r1) c2 r2 = progress_with p c2 r2.
Proof. reflexivity. Qed.

(** The loop over accounts none of which is completed, when it returns. *)
Lemma main_pfid_loop_returns (acn : option string) (accs : list string) :
  NoDup accs ->
  forall (p : progress) (completed : list string)
         (found found' : list scan_result) (w w' : world),
    (forall a, In a accs -> ~ In a completed) ->
    main_pfid_loop accs acn p completed found w = (Ret found', w') ->
    (exists new, found' = found ++ new)
    /\ fetches (calls w')
       = fetches (calls w) ++ map (fun a => (acn, Some a)) accs
    /\ odd_ones_file w' = odd_ones_file w
    /\ progress_file w'
       = match accs with
         | [] => progress_file w
         | _ :: _ => Some (progress_with p (completed ++ accs) found')
         end
    /\ (accs = [] -> found' = found).
Proof.
  intros Hnd.
  induction accs as [|a more IH]; intros p completed found found' w w' Hfresh H.
  - inversion H; subst. cbn [map]. rewrite !app_nil_r.
    repeat split; auto. exists []. now rewrite app_nil_r.
  - inversion Hnd as [|? ? Hnotin Hnd']; subst.
    assert (Ha : ~ In a completed) by (apply Hfresh; now left).
    pose proof H as H0. cbn [main_pfid_loop] in H0.
    destruct (in_dec string_dec a completed) as [Hin|_]; [contradiction|].
    apply bind_inv in H0. destruct H0 as (found1 & w1 & Hscan & _).
    rewrite (main_pfid_loop_saves a more acn p completed found found1 w w1
               Ha Hscan) in H.
    apply process_stations_appends in Hscan.
    destruct Hscan as ([n1 Hn1] & Hp1 & Ho1 & Hf1). cbn [or_empty] in Hn1.
    apply IH in H; auto.
    + destruct H as ([n2 Hn2] & Hf2 & Ho2 & Hp2 & Hnil).
      split; [exists (n1 ++ n2); rewrite Hn2, Hn1; now rewrite app_assoc|].
      split.
      { rewrite Hf2. cbn [checkpointed calls map]. rewrite Hf1, <- app_assoc.
        reflexivity. }
      split; [rewrite Ho2; exact Ho1|].
      split; [|discriminate].
      rewrite Hp2. destruct more as [|b more'].
      * cbn [checkpointed progress_file]. now rewrite (Hnil eq_refl).
      * rewrite progress_with_twice. now rewrite <- app_assoc.
    + intros x Hx Hin. apply in_app_or in Hin. destruct Hin as [Hin|[<-|[]]].
      * apply (Hfresh x); [now right|assumption].
      * contradiction.
Qed.

(** The loop reads from the checkpoint it is given nothing but the fields
    that it never rewrites. *)
Lemma main_pfid_loop_progress (accs : list string) (acn : option string) :
  forall (p : progress) (c : list string) (r : list scan_result)
         (completed : list string) (found : list scan_result) (w : world),
    main_pfid_loop accs acn (progress_with p c r) completed found w
    = main_pfid_loop accs acn p completed found w.
Proof.
  induction accs as [|a more IH]; intros p c r completed found w;
    [reflexivity|].
  cbn [main_pfid_loop].
  destruct (in_dec string_dec a completed) as [_|_]; [apply IH|].
  unfold bind.
  destruct (process_stations acn (Some a) None None (Some found) w)
    as [[found1|code|e] w1]; reflexivity.
Qed.

(** A sweep that has gone through its first accounts goes on with the
    others from the state it has reached. *)
Lemma main_pfid_loop_app (acn : option string) (first others : list string) :
  forall (p : progress) (completed : list string)
         (found found1 : list scan_result) (w w1 : world),
    (forall a, In a first -> ~ In a completed) ->
    NoDup first ->
    main_pfid_loop first acn p completed found w = (Ret found1, w1) ->
    main_pfid_loop (first ++ others) acn p completed found w
    = main_pfid_loop others acn p (completed ++ first) found1 w1.
Proof.
  induction first as [|a more IH];
    intros p completed found found1 w w1 Hfresh Hnd Hrun.
  - inversion Hrun; subst. now rewrite app_nil_r.
  - inversion Hnd as [|? ? Hnotin Hnd']; subst.
    assert (Ha : ~ In a completed) by (apply Hfresh; now left).
    pose proof Hrun as H0. cbn [main_pfid_loop] in H0.
    destruct (in_dec string_dec a completed) as [Hin|_]; [contradiction|].
    apply bind_inv in H0. destruct H0 as (f1 & wa & Hscan & _).
    cbn [app].
    rewrite (main_pfid_loop_saves a (more ++ others) acn p completed found
               f1 w wa Ha Hscan).
    rewrite (main_pfid_loop_saves a more acn p completed found f1 w wa
               Ha Hscan) in Hrun.
    rewrite main_pfid_loop_progress in Hrun |- *.
    rewrite (IH p (completed ++ [a]) f1 found1 _ w1); auto.
    + now rewrite <- app_assoc.
    + intros x Hx Hin. apply in_app_or in Hin. destruct Hin as [Hin|[<-|[]]].
      * apply (Hfresh x); [now right|assumption].
      * contradiction.
Qed.

(** Whenever [main_pfid] returns, the progress file is gone. *)
Lemma main_pfid_deletes_progress (info : pfid_info)
    (resume_progress : option progress) (w w' : world) :
  main_pfid info resume_progress w = (Ret tt, w') -> progress_file w' = None.
Proof.
  unfold main_pfid. intros H.
  apply bind_inv in H. destruct H as (found & w1 & _ & H).
  destruct (print_results found) as [odd_ones correct].
  apply bind_inv in H. destruct H as (u & w2 & _ & H).
  unfold delete_progress in H. now inversion H.
Qed.

Lemma after_sweep_deletes_progress (info : pfid_info)
    (found : list scan_result) (w w' : world) :
  after_sweep info found w = (Ret tt, w') -> progress_file w' = None.
Proof.
  unfold after_sweep. intros H.
  destruct (print_results found) as [odd_ones correct].
  apply bind_inv in H. destruct H as (u & w2 & _ & H).
  unfold delete_progress in H. now inversion H.
Qed.

(** A restart of [main] on a checkpoint of the same organisation, the
    operator choosing to resume: after the credential and the directory
    were obtained, the script is in the loop over the accounts, with the
    completed accounts and the results of the checkpoint. *)
Lemma main_resumes_sweep (main_retry : M unit) (argv : list string)
    (a : string) (accs : list string) (pk : progress) (w : world)
    (response : string) (e_a e_b e_c : Env) (rows : list site_row) :
  ~ In "--retry" argv ->
  2 <= length argv ->
  parse_pfid_input (scope_args argv)
  = mk_pfid_info (Some a) None None None (Some "acn-only") ->
  a <> "" ->
  progress_file w = Some pk ->
  p_acn_id pk = Some a ->
  p_mode pk = Some "acn-only" ->
  console_input (env w) = (response, e_a) ->
  is_yes response = true ->
  jwt_script e_a = (true, e_b) ->
  site_directory e_b = (Some rows, e_c) ->
  get_accs_for_acn rows (Some a) = accs ->
  accs <> [] ->
  main main_retry argv w
  = bind
      (main_pfid_loop accs (Some a)
         (sweep_progress (Some a) (length accs) (completed_accs pk)
            (results pk) (started_at pk))
         (completed_accs pk) (results pk))
      (after_sweep (parse_pfid_input (scope_args argv)))
      (after_calls w e_c [CallGetJwt; CallSiteDirectory]).
Proof.
  intros Hretry Hlen Hparse Ha Hpk Hacn Hmode Hin Hyes Hjwt Hdir Haccs Hne.
  unfold main.
  destruct (in_dec string_dec "--retry" argv) as [Hr|_]; [contradiction|].
  destruct (Nat.ltb (length argv) 2) eqn:Hlt;
    [apply Nat.ltb_lt in Hlt; lia|].
  fold (scope_args argv). rewrite Hparse.
  cbn [acn mode truthy_str opt_str_eqb].
  apply String.eqb_neq in Ha. rewrite Ha. cbn [negb].
  change (String.eqb "acn-only" "acn-only") with true. cbv iota.
  assert (Hresume :
    check_resume_progress w = (Ret (Some pk), after_calls w e_a [])).
  { unfold check_resume_progress, load_progress, bind, input, ambient.
    rewrite Hpk, Hin. cbn [env progress_file odd_ones_file calls].
    rewrite Hyes. unfold ret, after_calls. now rewrite app_nil_r. }
  rewrite bind_assoc. rewrite (bind_ret _ _ _ _ _ Hresume).
  rewrite Hacn, Hmode. unfold opt_eqb.
  destruct (opt_string_dec (Some a) (Some a)) as [_|Hc]; [|congruence].
  cbn [negb opt_str_eqb].
  change (String.eqb "acn-only" "acn-only") with true. cbn [negb].
  rewrite bind_ret_l.
  assert (Hj : get_jwt (after_calls w e_a [])
               = (Ret true, after_calls w e_b [CallGetJwt])).
  { unfold get_jwt, external, after_calls. cbn [env]. rewrite Hjwt.
    cbn [progress_file odd_ones_file calls]. now rewrite app_nil_r. }
  rewrite (bind_ret _ _ _ _ _ Hj). cbn [negb].
  unfold main_pfid. cbn [acn acc acg acs mode opt_str_eqb].
  change (String.eqb "acn-only" "acn-only") with true. cbv iota.
  rewrite bind_assoc.
  assert (Hd : get_site_data (after_calls w e_b [CallGetJwt])
               = (Ret rows, after_calls w e_c [CallGetJwt; CallSiteDirectory])).
  { unfold get_site_data, bind, external, after_calls. cbn [env].
    rewrite Hdir. cbn [progress_file odd_ones_file calls ret].
    now rewrite <- app_assoc. }
  rewrite (bind_ret _ _ _ _ _ Hd). rewrite Haccs.
  destruct accs as [|a0 accs']; [congruence|].
  rewrite Hacn. unfold opt_eqb.
  destruct (opt_string_dec (Some a) (Some a)) as [_|Hc]; [|congruence].
  rewrite bind_assoc, bind_ret_l.
  reflexivity.
Qed.

Lemma insert_sorted_In (a x : string) (l : list string) :
  In x (insert_sorted a l) <-> x = a \/ In x l.
Proof.
  induction l as [|y l IH]; simpl; [intuition|].
  destruct (a <=? y)%string; simpl; rewrite ?IH; intuition.
Qed.

Lemma insert_sorted_NoDup (a : string) (l : list string) :
  ~ In a l -> NoDup l -> NoDup (insert_sorted a l).
Proof.
  induction l as [|y l IH]; simpl; intros Hn Hnd.
  - constructor; [intros []|constructor].
  - destruct (a <=? y)%string.
    + constructor; assumption.
    + inversion Hnd as [|? ? Hy Hnd']; subst. constructor.
      * rewrite insert_sorted_In. intros [->|H]; tauto.
      * apply IH; tauto.
Qed.

Lemma sorted_In (x : string) (l : list string) : In x (sorted l) <-> In x l.
Proof.
  unfold sorted. induction l as [|y l IH]; simpl; [reflexivity|].
  rewrite insert_sorted_In, IH. intuition.
Qed.

Lemma sorted_NoDup (l : list string) : NoDup l -> NoDup (sorted l).
Proof.
  unfold sorted. induction l as [|y l IH]; simpl; intros Hnd; [constructor|].
  inversion Hnd; subst. apply insert_sorted_NoDup; auto.
  fold (sorted l). now rewrite sorted_In.
Qed.

Lemma get_accs_loop_NoDup (rows : list site_row) (acn_id : option string) :
  forall accs, NoDup accs -> NoDup (get_accs_loop rows acn_id accs).
Proof.
  induction rows as [|row rows IH]; intros accs Hnd;
    cbn [get_accs_loop]; [assumption|].
  destruct (opt_eqb (site_acn_id row) acn_id); [|now apply IH].
  destruct (site_acc_id row) as [acc_id|]; [|now apply IH].
  destruct (truthy_str (Some acc_id)); [|now apply IH].
  apply IH. destruct (in_dec string_dec acc_id accs) as [Hin|Hn]; [assumption|].
  apply NoDup_app; auto.
  - constructor; [intros []|constructor].
  - intros x Hx [<-|[]]. contradiction.
Qed.

(** The accounts of a sweep are pairwise distinct. *)
Lemma get_accs_for_acn_NoDup (rows : list site_row) (acn_id : option string) :
  NoDup (get_accs_for_acn rows acn_id).
Proof.
  unfold get_accs_for_acn. apply sorted_NoDup, get_accs_loop_NoDup. constructor.
Qed.

(** A restart of [main] on a checkpoint, the operator choosing not to
    resume: the progress file is deleted, and the run goes on as one from
    a state without a checkpoint. *)
Lemma main_restart_declined (main_retry : M unit) (argv : list string)
    (a : string) (pk : progress) (w : world) (response : string)
    (e_a : Env) :
  ~ In "--retry" argv ->
  2 <= length argv ->
  parse_pfid_input (scope_args argv)
  = mk_pfid_info (Some a) None None None (Some "acn-only") ->
  a <> "" ->
  progress_file w = Some pk ->
  console_input (env w) = (response, e_a) ->
  is_yes response = false ->
  main main_retry argv w
  = main main_retry argv (mk_world e_a None (odd_ones_file w) (calls w)).
Proof.
  intros Hretry Hlen Hparse Ha Hpk Hin Hno.
  unfold main.
  destruct (in_dec string_dec "--retry" argv) as [Hr|_]; [contradiction|].
  destruct (Nat.ltb (length argv) 2) eqn:Hlt;
    [apply Nat.ltb_lt in Hlt; lia|].
  fold (scope_args argv). rewrite Hparse.
  cbn [acn mode truthy_str opt_str_eqb].
  apply String.eqb_neq in Ha. rewrite Ha. cbn [negb].
  change (String.eqb "acn-only" "acn-only") with true. cbv iota.
  rewrite !bind_assoc.
  assert (Hold : check_resume_progress w
                 = (Ret None, mk_world e_a None (odd_ones_file w) (calls w))).
  { unfold check_resume_progress, load_progress, bind, input, ambient.
    rewrite Hpk, Hin. cbn [env progress_file odd_ones_file calls].
    now rewrite Hno. }
  assert (Hfresh :
    check_resume_progress (mk_world e_a None (odd_ones_file w) (calls w))
    = (Ret None, mk_world e_a None (odd_ones_file w) (calls w)))
    by reflexivity.
  now rewrite (bind_ret _ _ _ _ _ Hold), (bind_ret _ _ _ _ _ Hfresh).
Qed.

(** C2, amended.  A sweep over the accounts [done ++ rest] of an
    organisation, which are pairwise distinct.
    - The checkpoint is saved after each account: one turn of the loop on
      an account not yet completed is the scan of the account, then the
      save of a checkpoint holding that account as completed and the
      results so far, then the loop on the accounts that follow.
    - When the loop has gone through [done] from a fresh start, the
      checkpoint on disk holds [done] as completed and the results of
      these accounts, and the sweep goes on from there with [rest].
    - A restart of [main] with the same organisation on that checkpoint,
      the operator choosing to resume and the credential and directory
      being obtained, runs the loop over [rest] alone, from the results of
      the checkpoint; when that loop returns, its results are those of the
      checkpoint followed by new ones, the station lists fetched are those
      of [rest] in order, and the checkpoint then holds all accounts.
    - Whenever [main_pfid] returns normally the checkpoint is deleted, and
      so it is when the restart has gone through what follows the loop.
    - A restart of [main] with the same organisation on a checkpoint, the
      operator giving another answer than yes, deletes the checkpoint and
      goes on as a run from a state without a checkpoint. *)
Theorem sweep_checkpoint_resume (a : string) (done rest : list string)
    (started : option string) :
  NoDup (done ++ rest) ->
  (forall acc_id more p completed found found1 w w1,
     ~ In acc_id completed ->
     process_stations (Some a) (Some acc_id) None None (Some found) w
     = (Ret found1, w1) ->
     main_pfid_loop (acc_id :: more) (Some a) p completed found w
     = main_pfid_loop more (Some a)
         (progress_with p (completed ++ [acc_id]) found1)
         (completed ++ [acc_id]) found1
         (checkpointed w1 (progress_with p (completed ++ [acc_id]) found1)))
  /\ (forall w0 found_k wk,
        done <> [] ->
        main_pfid_loop done (Some a)
          (sweep_progress (Some a) (length (done ++ rest)) [] [] started)
          [] [] w0
        = (Ret found_k, wk) ->
        progress_file wk
        = Some (sweep_progress (Some a) (length (done ++ rest)) done found_k
                  started)
        /\ main_pfid_loop (done ++ rest) (Some a)
             (sweep_progress (Some a) (length (done ++ rest)) [] [] started)
             [] [] w0
           = main_pfid_loop rest (Some a)
               (sweep_progress (Some a) (length (done ++ rest)) done found_k
                  started)
               done found_k wk)
  /\ (forall main_retry argv w found_k response e_a e_b e_c rows,
        ~ In "--retry" argv ->
        2 <= length argv ->
        parse_pfid_input (scope_args argv)
        = mk_pfid_info (Some a) None None None (Some "acn-only") ->
        a <> "" ->
        progress_file w
        = Some (sweep_progress (Some a) (length (done ++ rest)) done found_k
                  started) ->
        console_input (env w) = (response, e_a) ->
        is_yes response = true ->
        jwt_script e_a = (true, e_b) ->
        site_directory e_b = (Some rows, e_c) ->
        get_accs_for_acn rows (Some a) = done ++ rest ->
        rest <> [] ->
        let pk :=
          sweep_progress (Some a) (length (done ++ rest)) done found_k
            started in
        let w_c := after_calls w e_c [CallGetJwt; CallSiteDirectory] in
        main main_retry argv w
        = bind (main_pfid_loop rest (Some a) pk done found_k)
            (after_sweep (parse_pfid_input (scope_args argv))) w_c
        /\ (forall found w1,
              main_pfid_loop rest (Some a) pk done found_k w_c
              = (Ret found, w1) ->
              (exists new, found = found_k ++ new)
              /\ fetches (calls w1)
                 = fetches (calls w) ++ map (fun c => (Some a, Some c)) rest
              /\ progress_file w1
                 = Some (sweep_progress (Some a) (length (done ++ rest))
                           (done ++ rest) found started)
              /\ forall w2,
                   after_sweep (parse_pfid_input (scope_args argv)) found w1
                   = (Ret tt, w2) ->
                   progress_file w2 = None))
  /\ (forall info resume_progress w w',
        main_pfid info resume_progress w = (Ret tt, w') ->
        progress_file w' = None)
  /\ (forall main_retry argv w pk response e_a,
        ~ In "--retry" argv ->
        2 <= length argv ->
        parse_pfid_input (scope_args argv)
        = mk_pfid_info (Some a) None None None (Some "acn-only") ->
        a <> "" ->
        progress_file w = Some pk ->
        console_input (env w) = (response, e_a) ->
        is_yes response = false ->
        main main_retry argv w
        = main main_retry argv
            (mk_world e_a None (odd_ones_file w) (calls w))).
Proof.
  intros Hnd.
  assert (Hnd_done : NoDup done) by (now apply NoDup_app_remove_r in Hnd).
  assert (Hnd_rest : NoDup rest) by (now apply NoDup_app_remove_l in Hnd).
  assert (Hfresh : forall c, In c rest -> ~ In c done).
  { intros c Hc Hd. clear Hnd_done Hnd_rest.
    induction done as [|d done' IH]; [contradiction|].
    simpl in Hnd. inversion Hnd as [|? ? Hn Hnd']; subst.
    destruct Hd as [->|Hd]; [|now apply IH].
    apply Hn. apply in_or_app. now right. }
  split; [|split; [|split; [|split]]].
  - intros acc_id more p completed found found1 w w1.
    apply main_pfid_loop_saves.
  - intros w0 found_k wk Hne Hrun. split.
    + apply (main_pfid_loop_returns (Some a) done Hnd_done) in Hrun.
      * destruct Hrun as (_ & _ & _ & Hp & _).
        rewrite Hp. destruct done; [congruence|reflexivity].
      * intros c _ [].
    + rewrite (main_pfid_loop_app (Some a) done rest _ [] [] found_k w0 wk);
        auto.
      change (sweep_progress (Some a) (length (done ++ rest)) done found_k
                started)
        with (progress_with
                (sweep_progress (Some a) (length (done ++ rest)) [] []
                   started)
                done found_k).
      now rewrite main_pfid_loop_progress.
  - intros main_retry argv w found_k response e_a e_b e_c rows
      Hretry Hlen Hparse Ha Hpk Hin Hyes Hjwt Hdir Haccs Hne pk w_c.
    split.
    + rewrite (main_resumes_sweep main_retry argv a (done ++ rest) pk w
                 response e_a e_b e_c rows); auto.
      * unfold bind. cbn [completed_accs results started_at pk sweep_progress].
        rewrite main_pfid_loop_skips by apply incl_refl. reflexivity.
      * intros Hnil. apply app_eq_nil in Hnil. tauto.
    + intros found w1 Hrun.
      apply (main_pfid_loop_returns (Some a) rest Hnd_rest) in Hrun;
        [|exact Hfresh].
      destruct Hrun as (Hnew & Hf & _ & Hp & _).
      split; [exact Hnew|]. split.
      * rewrite Hf. subst w_c. unfold after_calls, fetches. cbn [calls].
        rewrite flat_map_app. cbn [flat_map app]. now rewrite app_nil_r.
      * split.
        -- rewrite Hp. destruct rest; [congruence|reflexivity].
        -- intros w2. apply after_sweep_deletes_progress.
  - apply main_pfid_deletes_progress.
  - intros main_retry argv w pk response e_a.
    apply main_restart_declined.
Qed.

End Sweep.

(** * The properties on concrete runs *)

(** The restart of a sweep over the accounts 09 and 12 of 0051, of which 09
    is completed: [main] goes into the loop over 12 alone. *)
Lemma sweep_checkpoint_resume_witness :
  let pk := sweep_progress (Some "0051") 2 ["09"] [] (Some "t0") in
  let e := mk_script ["yes"] [] [] [] (Some demo_rows) true in
  let w := scripted_world e (Some pk) None in
  main (E := scripted) (ret tt) ["check"; "0051"] w
  = bind (main_pfid_loop ["12"] (Some "0051") pk ["09"] [])
      (after_sweep (parse_pfid_input ["0051"]))
      (after_calls w (mk_script [] [] [] [] (Some demo_rows) true)
         [CallGetJwt; CallSiteDirectory]).
Proof.
  intros pk e w.
  assert (Hnd : NoDup (["09"] ++ ["12"])).
  { repeat constructor; simpl; intuition discriminate. }
  destruct (sweep_checkpoint_resume (E := scripted) "0051" ["09"] ["12"]
              (Some "t0") Hnd) as (_ & _ & Hrestart & _).
  refine (proj1 (Hrestart (ret tt) ["check"; "0051"] w [] "yes"
                   (mk_script [] [] [] [] (Some demo_rows) true)
                   (mk_script [] [] [] [] (Some demo_rows) true)
                   (mk_script [] [] [] [] (Some demo_rows) true)
                   demo_rows _ _ _ _ _ _ _ _ _ _ _));
    try reflexivity; try discriminate;
    try (simpl; lia); simpl; intuition discriminate.
Defined.


Lemma scripted_writes_return_objects :
  writes_return_objects (E := scripted_writes).
Proof.
  intros pfid' key value e. cbn.
  destruct (sc_set e) as [|[msg|out] l]; cbn.
  - eexists. reflexivity.
  - eexists. reflexivity.
  - unfold write_loads. cbn.
    destruct (String.eqb out "accepted"); [eexists; reflexivity|].
    destruct (String.eqb out "rejected-busy"); eexists; reflexivity.
Qed.


(** The reading of the schedule fails for the first of two stations. *)
Lemma check_stations_loop_survives_failed_read_witness :
  let e := mk_script [] [Completed "enabled"; CalledProcessError "exit 28"]
             [] [] None true in
  let w := scripted_world e None None in
  check_stations_loop (E := scripted) ["0051-09-02-01"; "0051-09-02-02"]
    (Some "0051") (Some "09") [] w
  = check_stations_loop (E := scripted) ["0051-09-02-02"]
      (Some "0051") (Some "09")
      ([] ++ [station_result "0051-09-02-01" (Some "0051") (Some "09") JNull
                None []])
      (after_calls w quiet_jwt
         ([CallGetConfiguration "0051-09-02-01" "PricingScheduleEnable"] ++ []
          ++ [CallGetConfiguration "0051-09-02-01" "PricingSchedule"])).
Proof.
  intros e w.
  apply (proj1 (check_stations_loop_survives_failed_read (E := scripted)
                  "0051-09-02-01" ["0051-09-02-02"] (Some "0051") (Some "09")
                  [] w)
           (Completed "enabled")
           (mk_script [] [CalledProcessError "exit 28"] [] [] None true)
           (Some true)
           (mk_script [] [CalledProcessError "exit 28"] [] [] None true)
           [] (CalledProcessError "exit 28") quiet_jwt);
    reflexivity || exact I.
Defined.

(** C7 as stated fails: the reading of the enable flag fails with a
    transport error, the reading of the schedule succeeds, and the station
    is recorded as conforming, not as indeterminate. *)
Lemma failed_enable_read_is_not_indeterminate :
  let e := mk_script []
             [CalledProcessError "exit 28"; Completed "schedule-half"]
             [] [] None true in
  let w := scripted_world e None None in
  call_failed (E := scripted)
    (fst (curl_get_configuration (External := scripted) "0051-09-02-01"
            "PricingScheduleEnable" (env w)))
  /\ fst (check_stations_loop (E := scripted) ["0051-09-02-01"]
            (Some "0051") (Some "09") [] w)
     = Ret [station_result "0051-09-02-01" (Some "0051") (Some "09")
              half_schedule (Some true) []]
  /\ r_all_correct
       (station_result "0051-09-02-01" (Some "0051") (Some "09")
          half_schedule (Some true) [])
     <> None.
Proof.
  intros e w. split; [exact I|]. split; [vm_compute; reflexivity|discriminate].
Qed.

(** No scope token: [main] exits with status 1 and leaves the state as it
    was; two tokens: organisation and account. *)
Lemma main_scope_tokens_witness :
  let w := scripted_world quiet_jwt None None in
  main (E := scripted) (ret tt) ["check"; "--refresh"; ""; " - "] w
  = (Exit 1%Z, w)
  /\ acn (parse_pfid_input [""; "0051-"; " 09 "]) = Some "0051"
  /\ acc (parse_pfid_input [""; "0051-"; " 09 "]) = Some "09"
  /\ mode (parse_pfid_input [""; "0051-"; " 09 "]) = Some "acn-acc".
Proof.
  intros w.
  assert (Hflag : ~ In "--retry" ["check"; "--refresh"; ""; " - "])
    by (simpl; intuition discriminate).
  destruct (main_scope_tokens (E := scripted) (ret tt)
              ["check"; "--refresh"; ""; " - "] w Hflag)
    as (Hexit & Hparse & _).
  split; [apply Hexit; reflexivity|].
  destruct (Hparse [""; "0051-"; " 09 "]) as (_ & Hlevels).
  destruct Hlevels as (Hacn & Hacc & _ & _ & Hmode); [simpl; lia|].
  repeat split; assumption.
Defined.

(** A batch of two stations of the account 09, saved without account and
    mode, is keyed 0051-09. *)
Lemma save_odd_ones_out_infers_scope_witness :
  let batch := [demo_result "0051-09-02-01" "09";
                demo_result "0051-09-02-02" "09"] in
  let w := scripted_world quiet_jwt None None in
  save_odd_ones_out (E := scripted) batch default_schedule None None None None
    None w
  = (Ret tt,
     mk_world (E := scripted) quiet_jwt None
       (Some [("0051-09",
               mk_site_data "acn-acc" (Some "0051") (Some "09") None None
                 "2024-05-01T10:00:00" "2024-05-01T10:00:00" default_schedule
                 (map station_of_result batch))])
       []).
Proof.
  intros batch w.
  refine (proj1 (save_odd_ones_out_infers_scope (E := scripted) batch
                   default_schedule None None None w
                   "2024-05-01T10:00:00" "2024-05-01T10:00:00"
                   quiet_jwt quiet_jwt _ _ _) "09" _);
    try reflexivity; try discriminate.
  intros r [<-|[<-|[]]]; reflexivity.
Defined.

(** The identifier 0051-09-02-02 is recorded in two scopes: an update by
    identifier alone rewrites the record of the first scope only. *)
Lemma update_odd_ones_status_first_match_witness :
  let s1 := demo_station "0051-09-02-01" "pending" in
  let s2 := demo_station "0051-09-02-02" "pending" in
  let sd := demo_site [s1; s2] in
  let sd' := demo_site [s2] in
  let w :=
    scripted_world quiet_jwt None (Some [("0051-09", sd); ("0051", sd')]) in
  update_odd_ones_status (E := scripted) "0051-09-02-02" "accepted" JNull
    None w
  = (Ret tt,
     mk_world (E := scripted) quiet_jwt None
       (Some [("0051-09",
               site_updated sd
                 [s1; station_updated s2 "accepted" JNull
                        "2024-05-01T10:00:00"]
                 "2024-05-01T10:00:00");
              ("0051", sd')])
       []).
Proof.
  intros s1 s2 sd sd' w.
  assert (Hkeys : NoDup (dict_keys (ledger_of (E := scripted) w))).
  { repeat constructor; simpl; intuition discriminate. }
  refine (proj2 (update_odd_ones_status_first_match (E := scripted)
                   "0051-09-02-02" "accepted" JNull w Hkeys)
            [] [("0051", sd')] "0051-09" sd [s1] s2 []
            "2024-05-01T10:00:00" quiet_jwt "2024-05-01T10:00:00" quiet_jwt
            _ _ _ _ _ _ _);
    try reflexivity.
  - intros sk' sd0 [].
  - intros s [<-|[]]. discriminate.
Defined.

(** A scope whose stations are all accepted is removed, and a scope with a
    rejected station is left as it is. *)
Example remove_completed_site_runs :
  let done := demo_site [demo_station "0051-09-02-01" "accepted"] in
  let open := demo_site [demo_station "0051-12-01-01" "rejected"] in
  let w := scripted_world quiet_jwt None
             (Some [("0051-09", done); ("0051-12", open)]) in
  odd_ones_file (snd (remove_completed_site (E := scripted) "0051-09" w))
  = Some [("0051-12", open)]
  /\ remove_completed_site (E := scripted) "0051-12" w = (Ret tt, w).
Proof. split; reflexivity. Qed.

(** A retry that the operator declines issues no write and changes no
    file. *)
Example main_retry_site_declined :
  let sd := demo_site [demo_station "0051-09-02-01" "rejected"] in
  let w :=
    scripted_writes_world
      (mk_script ["no"] [] [Completed "accepted"] [] None true)
      (Some [("0051-09", sd)]) in
  main_retry_site (E := scripted_writes) "0051-09" w
  = (Ret tt,
     scripted_writes_world
       (mk_script [] [] [Completed "accepted"] [] None true)
       (Some [("0051-09", sd)])).
Proof. reflexivity. Qed.

(** End-to-end: one conforming and one deviating station under 0051-09. *)
Example process_stations_two_stations :
  let e :=
    mk_script []
      [Completed "enabled"; Completed "schedule-half";
       Completed "enabled"; Completed "schedule-third"]
      []
      [Some
         (JObj
            [("a", mk_station_entry (Some "0051-09-02-01") (Some "LiteON"));
             ("b", mk_station_entry (Some "0051-09-02-02") (Some "liteon 48"));
             ("c", mk_station_entry (Some "0051-09-03-01") (Some "Other"))])]
      None true in
  fst (process_stations (E := scripted) (Some "0051") (Some "09") None None
         None (scripted_world e None None))
  = Ret [mk_scan_result "0051-09-02-01" (Some "0051") (Some "09") (Some "02")
           (Some "01") half_schedule true (Some true) [];
         mk_scan_result "0051-09-02-02" (Some "0051") (Some "09") (Some "02")
           (Some "02") third_schedule true (Some false)
           [mismatch (JNum 0%Q) (JNum (3 # 10)%Q)]].
Proof. vm_compute. reflexivity. Qed.

(** A response with the status Accepted and a top-level [error] key: the
    write counts as accepted, and the record is left in status error with
    that key's value as detail. *)
Example update_station_error_key_overrides :
  let s := demo_station "0051-09-02-01" "pending" in
  let sd := demo_site [s] in
  let w :=
    scripted_world
      (mk_script [] [] [Completed "accepted-and-error"] [] None true)
      None (Some [("0051-09", sd)]) in
  update_station (E := scripted) "0051-09-02-01" "<json>" (Some "0051-09")
    (0, 0) w
  = (Ret (1, 0),
     mk_world (E := scripted) quiet_jwt None
       (Some [("0051-09",
               site_updated sd
                 [station_updated s "error" (JStr "gateway")
                    "2024-05-01T10:00:00"]
                 "2024-05-01T10:00:00")])
       [CallSetConfiguration "0051-09-02-01" "PricingSchedule" "<json>"]).
Proof. reflexivity. Qed.

(** C2 as stated fails: a restart with the same scope on a checkpoint that
    holds the account 09 as completed, the operator answering no to the
    prompt, scans 09 again. *)
Lemma declined_resume_rescans_completed_account :
  let pk :=
    sweep_progress (Some "0051") 2 ["09"] [] (Some "2024-05-01T09:00:00") in
  let w :=
    scripted_world
      (mk_script ["no"] [] [] [None; None] (Some demo_rows) true)
      (Some pk) None in
  completed_accs pk = ["09"]
  /\ get_accs_for_acn demo_rows (Some "0051") = ["09"; "12"]
  /\ fetches
       (calls (snd (main (E := scripted) (ret tt) ["check"; "0051"] w)))
     = [(Some "0051", Some "09"); (Some "0051", Some "12")].
Proof. intros pk w. repeat split; vm_compute; reflexivity. Qed.



(** * Further properties *)

(** ** Scope specifiers, keys and prefixes *)

Lemma replace_char_hyphen_join (tokens : list string) :
  Forall clean_token tokens ->
  replace_char hyphen " "%char (join "-" tokens) = join " " tokens.
Proof.
  induction tokens as [|t [|t' ts] IH]; intros Hall.
  - reflexivity.
  - inversion Hall as [|? ? [_ Ht] _]; subst. simpl.
    now apply replace_char_separator_free.
  - inversion Hall as [|? ? [_ Ht] Hrest]; subst.
    change (join "-" (t :: t' :: ts))
      with (t ++ "-" ++ join "-" (t' :: ts))%string.
    change (join " " (t :: t' :: ts))
      with (t ++ " " ++ join " " (t' :: ts))%string.
    rewrite !replace_char_append, IH by assumption.
    rewrite replace_char_separator_free by assumption. reflexivity.
Qed.

(** The tokens of one argument that joins clean tokens with hyphens. *)
Lemma pfid_parts_hyphenated (tokens : list string) :
  Forall clean_token tokens -> pfid_parts [join "-" tokens] = tokens.
Proof.
  intros Hall. rewrite <- (pfid_parts_clean tokens Hall) at 2.
  unfold pfid_parts. cbn [join].
  rewrite replace_char_hyphen_join, replace_char_join by assumption.
  reflexivity.
Qed.

(** X1.  The hyphenated and the spaced form of a scope specifier parse to
    the same scope: one argument that joins clean tokens with hyphens gives
    what the tokens give as separate arguments. *)
Theorem parse_pfid_input_hyphenated (tokens : list string) :
  Forall clean_token tokens ->
  parse_pfid_input [join "-" tokens] = parse_pfid_input tokens.
Proof.
  intros Hall. unfold parse_pfid_input.
  now rewrite pfid_parts_hyphenated, pfid_parts_clean.
Qed.

Lemma parse_pfid_input_hyphenated_witness :
  parse_pfid_input ["0051-09-02"] = parse_pfid_input ["0051"; "09"; "02"].
Proof.
  apply (parse_pfid_input_hyphenated ["0051"; "09"; "02"]).
  repeat constructor; discriminate.
Defined.

(** X2.  Tokens after the fourth are ignored: clean tokens parse as their
    first four do, so five tokens or more give the mode [acn-acc-acg-acs]
    and no error. *)
Theorem parse_pfid_input_first_four (tokens : list string) :
  Forall clean_token tokens ->
  parse_pfid_input tokens = parse_pfid_input (firstn 4 tokens)
  /\ (4 <= length tokens ->
      mode (parse_pfid_input tokens) = Some "acn-acc-acg-acs").
Proof.
  intros Hall.
  assert (Hfirst : Forall clean_token (firstn 4 tokens)).
  { pose proof Hall as Hsplit.
    rewrite <- (firstn_skipn 4 tokens) in Hsplit.
    now apply Forall_app in Hsplit. }
  unfold parse_pfid_input.
  rewrite (pfid_parts_clean tokens Hall), (pfid_parts_clean _ Hfirst).
  destruct tokens as [|t1 [|t2 [|t3 [|t4 ts]]]]; simpl; split;
    try reflexivity; lia.
Qed.

Lemma parse_pfid_input_first_four_witness :
  parse_pfid_input ["0051"; "09"; "02"; "01"; "extra"]
  = parse_pfid_input (firstn 4 ["0051"; "09"; "02"; "01"; "extra"])
  /\ (4 <= length ["0051"; "09"; "02"; "01"; "extra"] ->
      mode (parse_pfid_input ["0051"; "09"; "02"; "01"; "extra"])
      = Some "acn-acc-acg-acs").
Proof.
  apply (parse_pfid_input_first_four ["0051"; "09"; "02"; "01"; "extra"]).
  repeat constructor; discriminate.
Defined.

(** The key of the scope that one to four clean tokens parse to. *)
Lemma get_site_key_of_tokens (tokens : list string) :
  Forall clean_token tokens ->
  1 <= length tokens <= 4 ->
  get_site_key (acn (parse_pfid_input tokens)) (acc (parse_pfid_input tokens))
    (acg (parse_pfid_input tokens)) (acs (parse_pfid_input tokens))
    (mode (parse_pfid_input tokens))
  = Some (join "-" tokens).
Proof.
  intros Hall Hlen. unfold parse_pfid_input.
  rewrite pfid_parts_clean by assumption.
  destruct tokens as [|t1 [|t2 [|t3 [|t4 [|t5 ts]]]]]; simpl in Hlen;
    try lia; reflexivity.
Qed.

(** X3.  The ledger key of a parsed scope is its tokens joined by hyphens;
    parsing the key gives the scope back, and two scopes of one to four
    clean tokens with the same key are the same scope. *)
Theorem get_site_key_round_trip (tokens : list string) :
  Forall clean_token tokens ->
  1 <= length tokens <= 4 ->
  let info := parse_pfid_input tokens in
  get_site_key (acn info) (acc info) (acg info) (acs info) (mode info)
  = Some (join "-" tokens)
  /\ parse_pfid_input [join "-" tokens] = info
  /\ (forall tokens',
        Forall clean_token tokens' ->
        1 <= length tokens' <= 4 ->
        let info' := parse_pfid_input tokens' in
        get_site_key (acn info') (acc info') (acg info') (acs info')
          (mode info')
        = get_site_key (acn info) (acc info) (acg info) (acs info)
            (mode info) ->
        tokens' = tokens).
Proof.
  intros Hall Hlen info. subst info.
  split; [now apply get_site_key_of_tokens|].
  split.
  { unfold parse_pfid_input.
    now rewrite pfid_parts_hyphenated, pfid_parts_clean. }
  intros tokens' Hall' Hlen' info' Hkey. subst info'.
  rewrite !get_site_key_of_tokens in Hkey by assumption.
  injection Hkey as Hkey.
  rewrite <- (pfid_parts_hyphenated tokens Hall),
    <- (pfid_parts_hyphenated tokens' Hall').
  now rewrite Hkey.
Qed.

Lemma get_site_key_round_trip_witness :
  let info := parse_pfid_input ["0051"; "09"] in
  get_site_key (acn info) (acc info) (acg info) (acs info) (mode info)
  = Some "0051-09"
  /\ parse_pfid_input ["0051-09"] = info.
Proof.
  intros info.
  destruct (get_site_key_round_trip ["0051"; "09"]) as (Hkey & Hparse & _).
  - repeat constructor; discriminate.
  - simpl. lia.
  - split; [exact Hkey|exact Hparse].
Defined.

Lemma prefix_append_l (a b s : string) :
  String.prefix (a ++ b) s = true -> String.prefix a s = true.
Proof.
  revert s. induction a as [|c a IH]; intros s H.
  - destruct s; reflexivity.
  - destruct s as [|c' s]; simpl in *; [discriminate H|].
    destruct (ascii_dec c c'); [|discriminate H]. now apply IH.
Qed.

Lemma join_hyphen_snoc (tokens : list string) (t : string) :
  tokens <> [] ->
  join "-" (tokens ++ [t]) = (join "-" tokens ++ "-" ++ t)%string.
Proof.
  induction tokens as [|t0 [|t1 ts] IH]; intros Hne; [congruence| |].
  - reflexivity.
  - change (join "-" ((t0 :: t1 :: ts) ++ [t]))
      with (t0 ++ "-" ++ join "-" ((t1 :: ts) ++ [t]))%string.
    rewrite IH by discriminate.
    change (join "-" (t0 :: t1 :: ts))
      with (t0 ++ "-" ++ join "-" (t1 :: ts))%string.
    now rewrite !append_assoc.
Qed.

(** X4.  For a scope of three or four clean tokens the prefix that filters
    the stations is the ledger key of the scope, and the filter of a
    four-level scope is nested in the filter of its three-level scope:
    an identifier that starts with the prefix of [l1 l2 l3 l4] starts with
    the prefix of [l1 l2 l3]. *)
Theorem build_pfid_prefix_nested (tokens : list string) :
  Forall clean_token tokens ->
  3 <= length tokens <= 4 ->
  let info := parse_pfid_input tokens in
  build_pfid_prefix (acn info) (acc info) (acg info) (acs info)
  = Ok (join "-" tokens)
  /\ get_site_key (acn info) (acc info) (acg info) (acs info) (mode info)
     = Some (join "-" tokens)
  /\ (forall pfid', startswith pfid' (join "-" tokens) = true ->
                    startswith pfid' (join "-" (firstn 3 tokens)) = true).
Proof.
  intros Hall Hlen info. subst info.
  split; [|split].
  - unfold parse_pfid_input. rewrite pfid_parts_clean by assumption.
    destruct tokens as [|t1 [|t2 [|t3 [|t4 [|t5 ts]]]]]; simpl in Hlen;
      try lia.
    + inversion Hall as [|? ? _ H2]; subst.
      inversion H2 as [|? ? [Hn2 _] H3]; subst.
      inversion H3 as [|? ? [Hn3 _] _]; subst.
      cbn [acn acc acg acs length Nat.leb nth_error].
      now apply build_pfid_prefix_acg.
    + inversion Hall as [|? ? _ H2]; subst.
      inversion H2 as [|? ? [Hn2 _] H3]; subst.
      inversion H3 as [|? ? [Hn3 _] H4]; subst.
      inversion H4 as [|? ? [Hn4 _] _]; subst.
      cbn [acn acc acg acs length Nat.leb nth_error].
      unfold build_pfid_prefix. cbn [truthy_str fmt].
      apply String.eqb_neq in Hn2. apply String.eqb_neq in Hn3.
      apply String.eqb_neq in Hn4. rewrite Hn2, Hn3, Hn4. reflexivity.
  - apply get_site_key_of_tokens; [assumption|lia].
  - intros pfid' Hstart.
    destruct tokens as [|t1 [|t2 [|t3 [|t4 [|t5 ts]]]]]; simpl in Hlen;
      try lia; [exact Hstart|].
    change (firstn 3 [t1; t2; t3; t4]) with [t1; t2; t3].
    change [t1; t2; t3; t4] with ([t1; t2; t3] ++ [t4]) in Hstart.
    rewrite join_hyphen_snoc in Hstart by discriminate.
    unfold startswith in *. now apply prefix_append_l in Hstart.
Qed.

Lemma build_pfid_prefix_nested_witness :
  let info := parse_pfid_input ["0051"; "09"; "02"; "01"] in
  build_pfid_prefix (acn info) (acc info) (acg info) (acs info)
  = Ok "0051-09-02-01"
  /\ startswith "0051-09-02-01" "0051-09-02" = true.
Proof.
  intros info.
  destruct (build_pfid_prefix_nested ["0051"; "09"; "02"; "01"])
    as (Hprefix & _ & Hnested).
  - repeat constructor; discriminate.
  - simpl. lia.
  - split; [exact Hprefix|]. apply Hnested. reflexivity.
Defined.

Lemma split_on_from_token (t cur rest : string) :
  hyphen_free t = true ->
  split_on_from hyphen cur (t ++ rest) = split_on_from hyphen (cur ++ t) rest.
Proof.
  revert cur. induction t as [|c t IH]; intros cur Ht; simpl.
  - now rewrite append_empty_r.
  - simpl in Ht. apply andb_prop in Ht. destruct Ht as [Hc Ht].
    apply negb_true_iff in Hc. rewrite Hc, IH by assumption.
    now rewrite append_assoc.
Qed.

Lemma split_on_join (tokens : list string) :
  tokens <> [] ->
  Forall (fun t => hyphen_free t = true) tokens ->
  split_on hyphen (join "-" tokens) = tokens.
Proof.
  unfold split_on.
  induction tokens as [|t [|t' ts] IH]; intros Hne Hall; [congruence| |].
  - inversion Hall; subst. simpl.
    rewrite <- (append_empty_r t) at 1.
    now rewrite split_on_from_token.
  - inversion Hall as [|? ? Ht Hrest]; subst.
    change (join "-" (t :: t' :: ts))
      with (t ++ String hyphen (join "-" (t' :: ts)))%string.
    rewrite split_on_from_token by assumption.
    cbn [append split_on_from]. rewrite Ascii.eqb_refl.
    now rewrite IH by (discriminate || assumption).
Qed.

(** X5.  The segments that a scan records for a station are those of its
    identifier: an identifier that joins hyphen-free segments with hyphens
    splits back into these segments, so the recorded group and station
    components are the third and the fourth segment, and are absent when
    the identifier has fewer segments. *)
Theorem station_result_segments (tokens : list string)
    (acn_id acc_id : option string) (sch : json) (verdict : option bool)
    (found : list json) :
  tokens <> [] ->
  Forall (fun t => hyphen_free t = true) tokens ->
  split_on hyphen (join "-" tokens) = tokens
  /\ r_acg_id (station_result (join "-" tokens) acn_id acc_id sch verdict found)
     = nth_error tokens 2
  /\ r_acs_id (station_result (join "-" tokens) acn_id acc_id sch verdict found)
     = nth_error tokens 3
  /\ (length tokens <= 2 ->
      r_acg_id (station_result (join "-" tokens) acn_id acc_id sch verdict
                  found) = None).
Proof.
  intros Hne Hall.
  pose proof (split_on_join tokens Hne Hall) as Hsplit.
  unfold station_result. cbn [r_acg_id r_acs_id]. rewrite Hsplit.
  repeat split; auto.
  intros Hlen. now apply nth_error_None.
Qed.

Lemma station_result_segments_witness :
  split_on hyphen "0051-09-02-01" = ["0051"; "09"; "02"; "01"]
  /\ r_acg_id (station_result "0051-09-02-01" None None JNull None [])
     = Some "02".
Proof.
  destruct (station_result_segments ["0051"; "09"; "02"; "01"] None None JNull
              None []) as (Hsplit & Hacg & _).
  - discriminate.
  - repeat constructor.
  - split; [exact Hsplit|exact Hacg].
Defined.

(** ** The accounts of an organisation *)

Lemma insert_sorted_Sorted (x : string) (l : list string) :
  Sorted string_le l -> Sorted string_le (insert_sorted x l).
Proof.
  induction l as [|y l IH]; intros Hs; simpl.
  - repeat constructor.
  - destruct (x <=? y)%string eqn:Hxy.
    + constructor; [assumption|]. constructor. exact Hxy.
    + inversion Hs as [|? ? Hs' Hhd]; subst.
      constructor; [now apply IH|].
      assert (Hyx : string_le y x).
      { destruct (String.leb_total x y) as [H|H]; [congruence|exact H]. }
      destruct l as [|z l]; simpl.
      * constructor. exact Hyx.
      * destruct (x <=? z)%string; constructor; [exact Hyx|].
        now inversion Hhd.
Qed.

Lemma sorted_Sorted (l : list string) : Sorted string_le (sorted l).
Proof.
  unfold sorted. induction l as [|y l IH]; simpl; [constructor|].
  now apply insert_sorted_Sorted.
Qed.

Lemma get_accs_loop_In (rows : list site_row) (acn_id : option string)
    (x : string) :
  forall accs,
    In x (get_accs_loop rows acn_id accs)
    <-> In x accs
        \/ exists row, In row rows /\ site_acn_id row = acn_id
                       /\ site_acc_id row = Some x /\ x <> "".
Proof.
  induction rows as [|row rows IH]; intros accs; cbn [get_accs_loop].
  - split; [auto|]. intros [H|(row & [] & _)]. exact H.
  - assert (Hskip :
      ~ (site_acn_id row = acn_id /\ site_acc_id row = Some x /\ x <> "") ->
      (In x (get_accs_loop rows acn_id accs)
       <-> In x accs
           \/ exists row0, In row0 (row :: rows) /\ site_acn_id row0 = acn_id
                           /\ site_acc_id row0 = Some x /\ x <> "")).
    { intros Hno. rewrite IH. split.
      - intros [H|(r & Hr & Hrest)]; [now left|].
        right. exists r. split; [now right|exact Hrest].
      - intros [H|(r & [<-|Hr] & Hrest)]; [now left|contradiction|].
        right. now exists r. }
    unfold opt_eqb.
    destruct (opt_string_dec (site_acn_id row) acn_id) as [Hacn|Hacn];
      [|apply Hskip; tauto].
    destruct (site_acc_id row) as [acc_id|] eqn:Hacc;
      [|apply Hskip; intros (_ & H & _); discriminate].
    cbn [truthy_str].
    destruct (String.eqb acc_id "") eqn:Hempty; cbn [negb].
    + apply String.eqb_eq in Hempty. apply Hskip.
      intros (_ & H & Hne). injection H as <-. contradiction.
    + apply String.eqb_neq in Hempty. rewrite IH.
      split.
      * intros [H|(r & Hr & Hrest)].
        -- destruct (in_dec string_dec acc_id accs) as [_|_]; [now left|].
           apply in_app_or in H. destruct H as [H|[<-|[]]]; [now left|].
           right. exists row. split; [now left|]. repeat split; auto.
        -- right. exists r. split; [now right|exact Hrest].
      * intros [H|(r & [<-|Hr] & Hrest)].
        -- left. destruct (in_dec string_dec acc_id accs); [exact H|].
           apply in_or_app. now left.
        -- destruct Hrest as (_ & Hx & _). rewrite Hacc in Hx.
           injection Hx as <-. left.
           destruct (in_dec string_dec acc_id accs); [assumption|].
           apply in_or_app. right. now left.
        -- right. now exists r.
Qed.

(** X6.  The accounts that a sweep of an organisation visits are exactly
    the non-empty account identifiers that the directory lists for that
    organisation, each once, in lexicographic order. *)
Theorem get_accs_for_acn_spec (rows : list site_row) (acn_id : option string) :
  NoDup (get_accs_for_acn rows acn_id)
  /\ Sorted string_le (get_accs_for_acn rows acn_id)
  /\ forall x,
       In x (get_accs_for_acn rows acn_id)
       <-> exists row, In row rows /\ site_acn_id row = acn_id
                       /\ site_acc_id row = Some x /\ x <> "".
Proof.
  split; [apply get_accs_for_acn_NoDup|].
  split; [apply sorted_Sorted|].
  intros x. unfold get_accs_for_acn. rewrite sorted_In, get_accs_loop_In.
  split; [intros [[]|H]; exact H|auto].
Qed.

(** ** The sites with pending work *)

Lemma sites_with_work_loop_filter (items : ledger) :
  forall rows,
    sites_with_work_loop items rows
    = rows
      ++ map (fun item => site_summary_of (fst item) (snd item))
           (filter has_outstanding items).
Proof.
  induction items as [|[site_key sd] items IH]; intros rows;
    cbn [sites_with_work_loop filter].
  - now rewrite app_nil_r.
  - unfold has_outstanding at 1. cbn [snd]. unfold outstanding at 1.
    rewrite !length_app, Nat.add_assoc.
    destruct (Nat.ltb 0 _) eqn:Hwork; rewrite IH; [|reflexivity].
    rewrite <- app_assoc. cbn [map app fst snd].
    unfold site_summary_of, outstanding.
    now rewrite !length_app, Nat.add_assoc.
Qed.

Lemma insert_by_last_updated_Permutation (x : site_summary)
    (l : list site_summary) :
  Permutation (insert_by_last_updated x l) (x :: l).
Proof.
  induction l as [|y l IH]; simpl; [reflexivity|].
  destruct (ss_last_updated y <=? ss_last_updated x)%string; [reflexivity|].
  rewrite IH. apply perm_swap.
Qed.

Lemma insert_by_last_updated_Sorted (x : site_summary)
    (l : list site_summary) :
  Sorted more_recent l -> Sorted more_recent (insert_by_last_updated x l).
Proof.
  induction l as [|y l IH]; intros Hs; simpl.
  - repeat constructor.
  - destruct (ss_last_updated y <=? ss_last_updated x)%string eqn:Hyx.
    + constructor; [assumption|]. constructor. exact Hyx.
    + inversion Hs as [|? ? Hs' Hhd]; subst.
      constructor; [now apply IH|].
      assert (Hxy : more_recent y x).
      { unfold more_recent.
        destruct (String.leb_total (ss_last_updated x) (ss_last_updated y))
          as [H|H]; [exact H|congruence]. }
      destruct l as [|z l]; simpl.
      * constructor. exact Hxy.
      * destruct (ss_last_updated z <=? ss_last_updated x)%string;
          constructor; [exact Hxy|].
        now inversion Hhd.
Qed.

Lemma sort_by_last_updated_spec (l : list site_summary) :
  Permutation (sort_by_last_updated l) l
  /\ Sorted more_recent (sort_by_last_updated l).
Proof.
  unfold sort_by_last_updated. induction l as [|x l [IHp IHs]]; simpl.
  - split; constructor.
  - split.
    + rewrite insert_by_last_updated_Permutation. now constructor.
    + now apply insert_by_last_updated_Sorted.
Qed.

(** The stations of a site in the four statuses are different stations. *)
Lemma status_counts_bounded (l : list station) :
  length (with_status "accepted" l) + length (with_status "pending" l)
  + length (with_status "rejected" l) + length (with_status "error" l)
  <= length l.
Proof.
  unfold with_status. induction l as [|s l IH]; simpl; [lia|].
  destruct (String.eqb (update_status s) "accepted") eqn:Ha;
    [apply String.eqb_eq in Ha; rewrite Ha; simpl; lia|].
  destruct (String.eqb (update_status s) "pending") eqn:Hp;
    [apply String.eqb_eq in Hp; rewrite Hp; simpl; lia|].
  destruct (String.eqb (update_status s) "rejected") eqn:Hr;
    [apply String.eqb_eq in Hr; rewrite Hr; simpl; lia|].
  destruct (String.eqb (update_status s) "error"); simpl; lia.
Qed.

(** X7.  [get_sites_with_pending_work] reads the ledger without changing
    anything.  Its rows are, up to order, one row for each site entry that
    has a station in status pending, rejected or error, and none for the
    other entries; they come most recently updated first; in every row the
    three counts of outstanding stations add up to the total that is
    positive, and together with the accepted count stay within the number
    of stations. *)
Theorem get_sites_with_pending_work_spec {E : External} (w : world) :
  exists rows,
    get_sites_with_pending_work w = (Ret rows, w)
    /\ Permutation rows
         (map (fun item => site_summary_of (fst item) (snd item))
            (filter has_outstanding (ledger_of w)))
    /\ Sorted more_recent rows
    /\ forall row, In row rows ->
         ss_pending row + ss_rejected row + ss_errored row
         = ss_total_pending row
         /\ 0 < ss_total_pending row
         /\ ss_accepted row + ss_total_pending row <= ss_total_stations row.
Proof.
  unfold get_sites_with_pending_work, bind, load_all_odd_ones_out, ret.
  fold (ledger_of w). eexists. split; [reflexivity|].
  rewrite sites_with_work_loop_filter. cbn [app].
  destruct (sort_by_last_updated_spec
              (map (fun item => site_summary_of (fst item) (snd item))
                 (filter has_outstanding (ledger_of w)))) as [Hperm Hsorted].
  split; [exact Hperm|]. split; [exact Hsorted|].
  intros row Hin.
  apply (Permutation_in _ Hperm) in Hin. apply in_map_iff in Hin.
  destruct Hin as ([k sd] & <- & Hin). apply filter_In in Hin.
  destruct Hin as [_ Hwork]. unfold has_outstanding in Hwork.
  apply Nat.ltb_lt in Hwork. cbn [fst snd] in *.
  unfold site_summary_of.
  cbn [ss_pending ss_rejected ss_errored ss_total_pending ss_accepted
       ss_total_stations].
  pose proof (status_counts_bounded (stations sd)) as Hb.
  unfold outstanding in *. rewrite !length_app in *. lia.
Qed.

(** ** Saving, loading and updating the ledger *)

(** A save for a scope given with its organisation, and with its account
    or the mode [acn-only]: nothing is inferred from the batch, and the
    entry goes under the key of the scope. *)
Lemma save_odd_ones_out_run {E : External} (odd_ones : list scan_result)
    (schedule_to_apply : json) (a : string)
    (acc_id acg_id acs_id mode : option string) (w : world)
    (t1 t2 : string) (e1 e2 : Env) :
  acc_id <> None \/ mode = Some "acn-only" ->
  datetime_now (env w) = (t1, e1) ->
  datetime_now e1 = (t2, e2) ->
  exists sd,
    save_odd_ones_out odd_ones schedule_to_apply (Some a) acc_id acg_id acs_id
      mode w
    = (Ret tt,
       mk_world e2 (progress_file w)
         (Some (dict_set
                  (key_str (get_site_key (Some a) acc_id acg_id acs_id mode))
                  sd (ledger_of w)))
         (calls w))
    /\ stations sd = map station_of_result odd_ones
    /\ correct_schedule sd = schedule_to_apply.
Proof.
  intros Hscope Ht1 Ht2.
  unfold save_odd_ones_out.
  assert (Hsame :
    (if is_none acc_id && negb (Nat.eqb (length odd_ones) 0)
        && negb (opt_str_eqb mode "acn-only")
     then
       match nodup opt_string_dec (map r_acc_id odd_ones) with
       | [a0] => (a0, if is_none mode then Some "acn-acc" else mode)
       | _ => (acc_id, if is_none mode then Some "acn-only" else mode)
       end
     else (acc_id, mode)) = (acc_id, mode)).
  { destruct Hscope as [Hacc| ->].
    - destruct acc_id; [reflexivity|congruence].
    - cbn [opt_str_eqb]. change (String.eqb "acn-only" "acn-only") with true.
      cbn [negb]. now rewrite andb_false_r. }
  cbv beta iota zeta. rewrite Hsame.
  unfold bind, load_all_odd_ones_out, now, ambient. fold (ledger_of w).
  rewrite Ht1. cbn [env progress_file odd_ones_file calls].
  rewrite Ht2. cbn [env progress_file odd_ones_file calls].
  unfold save_all_odd_ones_out. cbn [env progress_file odd_ones_file calls].
  eexists. split; [reflexivity|]. split; reflexivity.
Qed.



Lemma dict_set_skeleton (k : string) (v v' : site_data) (L : ledger) :
  dict_lookup k L = Some v ->
  sd_mode v' = sd_mode v ->
  saved_at v' = saved_at v ->
  correct_schedule v' = correct_schedule v ->
  map pfid (stations v') = map pfid (stations v) ->
  ledger_skeleton (dict_set k v' L) = ledger_skeleton L.
Proof.
  intros Hlook Hm Hs Hc Hp.
  induction L as [|[k0 v0] L IH]; simpl in *; [discriminate|].
  destruct (String.eqb k k0) eqn:Hk.
  - apply String.eqb_eq in Hk. subst k0. injection Hlook as ->.
    cbn [ledger_skeleton map fst snd]. now rewrite Hm, Hs, Hc, Hp.
  - cbn [ledger_skeleton map fst snd]. f_equal. now apply IH.
Qed.

Lemma update_station_loop_pfids (l l' : list station) (pfid' status : string)
    (reason : json) (attempt : string) :
  update_station_loop l pfid' status reason attempt = Some l' ->
  map pfid l' = map pfid l.
Proof.
  revert l'. induction l as [|s l IH]; intros l' H; simpl in H;
    [discriminate|].
  destruct (String.eqb (pfid s) pfid').
  - injection H as <-. reflexivity.
  - destruct (update_station_loop l pfid' status reason attempt) as [l0|];
      [|discriminate].
    injection H as <-. simpl. f_equal. now apply IH.
Qed.

Lemma update_sites_loop_skeleton (keys : list string) (L L' : ledger)
    (pfid' status : string) (reason : json) (attempt updated : string) :
  update_sites_loop keys L pfid' status reason attempt updated = Some L' ->
  ledger_skeleton L' = ledger_skeleton L.
Proof.
  induction keys as [|sk keys IH]; simpl; [discriminate|].
  destruct (dict_lookup sk L) as [sd|] eqn:Hsd; [|exact IH].
  destruct (update_station_loop (stations sd) pfid' status reason attempt)
    as [l'|] eqn:Hl; [|exact IH].
  intros H. injection H as <-.
  apply (dict_set_skeleton sk sd); auto.
  cbn [stations]. now apply update_station_loop_pfids in Hl.
Qed.

(** X9.  A status update, with or without a scope key, always returns
    normally and keeps the shape of the ledger: the scope keys in their
    order, and for each scope its mode, its time of saving, its corrective
    schedule and the identifiers of its stations in their order.  It makes
    no external call and leaves the progress file alone. *)
Theorem update_odd_ones_status_keeps_shape {E : External}
    (pfid' status : string) (reason : json) (site_key : option string)
    (w : world) :
  exists w',
    update_odd_ones_status pfid' status reason site_key w = (Ret tt, w')
    /\ ledger_skeleton (ledger_of w') = ledger_skeleton (ledger_of w)
    /\ calls w' = calls w
    /\ progress_file w' = progress_file w.
Proof.
  unfold update_odd_ones_status, bind, load_all_odd_ones_out.
  fold (ledger_of w).
  set (keys := if truthy_str site_key then [fmt site_key]
               else dict_keys (ledger_of w)).
  destruct (update_sites_loop keys (ledger_of w) pfid' status reason "" "")
    as [L0|] eqn:H0.
  - unfold now, ambient.
    destruct (datetime_now (env w)) as [t1 e1].
    cbn [env progress_file odd_ones_file calls].
    destruct (datetime_now e1) as [t2 e2].
    cbn [env progress_file odd_ones_file calls].
    destruct (update_sites_loop keys (ledger_of w) pfid' status reason t1 t2)
      as [L1|] eqn:H1.
    + eexists. split; [reflexivity|].
      unfold ledger_of at 1. cbn [odd_ones_file calls progress_file].
      split; [|split; reflexivity].
      now apply update_sites_loop_skeleton in H1.
    + eexists. split; [reflexivity|]. now repeat split.
  - exists w. now repeat split.
Qed.

(** X10.  A status update addressed to a scope does not look anywhere else:
    when that scope has no entry, or its entry does not record the station,
    the update returns with the whole state as it was, whether or not
    another scope records the station. *)
Theorem update_odd_ones_status_stays_in_scope {E : External}
    (pfid' status : string) (reason : json) (sk : string) (w : world) :
  sk <> "" ->
  match dict_lookup sk (ledger_of w) with
  | Some sd => pfid_absent pfid' (stations sd)
  | None => True
  end ->
  update_odd_ones_status pfid' status reason (Some sk) w = (Ret tt, w).
Proof.
  intros Hsk Habs. apply update_odd_ones_status_no_match.
  cbn [truthy_str fmt]. apply String.eqb_neq in Hsk. rewrite Hsk. cbn [negb].
  apply update_sites_loop_absent.
  intros k sd [<-|[]] Hsd. now rewrite Hsd in Habs.
Qed.

Lemma update_odd_ones_status_stays_in_scope_witness :
  let w :=
    scripted_world quiet_jwt None
      (Some [("0051-09", demo_site [demo_station "0051-09-02-01" "pending"]);
             ("0051-12", demo_site [demo_station "0051-12-01-01" "pending"])])
  in
  update_odd_ones_status (E := scripted) "0051-09-02-01" "accepted" JNull
    (Some "0051-12") w
  = (Ret tt, w).
Proof.
  intros w.
  apply (update_odd_ones_status_stays_in_scope (E := scripted)).
  - discriminate.
  - intros s [<-|[]]. discriminate.
Defined.

(** ** Reading a setting out of a response *)

Lemma extract_pricing_schedule_loop_find {E : External}
    (items : list (pydict json)) :
  extract_pricing_schedule_loop (map JObj items)
  = match find (config_item_named "PricingSchedule") items with
    | Some item => py_json_loads (obj_get item "value" (JStr "[]"))
    | None => Ok JNull
    end.
Proof.
  induction items as [|item rest IH]; [reflexivity|].
  cbn [map extract_pricing_schedule_loop py_get res_bind find].
  unfold config_item_named at 1.
  destruct (py_eq_str (obj_get item "key" JNull) "PricingSchedule");
    [reflexivity|exact IH].
Qed.

Lemma extract_pricing_enabled_loop_find (items : list (pydict json)) :
  extract_pricing_enabled_loop (map JObj items)
  = match find (config_item_named "PricingScheduleEnable") items with
    | Some item =>
        match obj_get item "value" (JStr "") with
        | JStr s => Ok (Some (String.eqb (lower s) "true"))
        | _ => Err AttributeError
        end
    | None => Ok None
    end.
Proof.
  induction items as [|item rest IH]; [reflexivity|].
  cbn [map extract_pricing_enabled_loop py_get res_bind find].
  unfold config_item_named at 1.
  destruct (py_eq_str (obj_get item "key" JNull) "PricingScheduleEnable");
    [reflexivity|exact IH].
Qed.

(** X11.  On a response that lists settings, the first item named after the
    setting decides, whatever follows it.
    - The schedule is the decoding of that item's value (of the text [[]]
      when the item has no value); a value that is not text or does not
      decode gives no schedule, as does a list without such an item; no
      exception leaves the function.
    - The enable flag is whether that item's value, in lower case, is
      [true] (an item without a value is read as not enabled); a list
      without such an item gives no flag; a value that is not text is an
      [AttributeError] that the function does not catch. *)
Theorem extraction_first_setting_decides {E : External} (response : json)
    (items : list (pydict json)) :
  lists_settings response items ->
  extract_pricing_schedule response
  = Ok match find (config_item_named "PricingSchedule") items with
       | Some item =>
           match obj_get item "value" (JStr "[]") with
           | JStr s =>
               match json_loads s with
               | Some v => v
               | None => JNull
               end
           | _ => JNull
           end
       | None => JNull
       end
  /\ extract_pricing_enabled response
     = match find (config_item_named "PricingScheduleEnable") items with
       | Some item =>
           match obj_get item "value" (JStr "") with
           | JStr s => Ok (Some (String.eqb (lower s) "true"))
           | _ => Err AttributeError
           end
       | None => Ok None
       end.
Proof.
  intros (d & nats & -> & Hnats & Hkeys). split.
  - unfold extract_pricing_schedule. cbn [py_get res_bind].
    rewrite Hnats. cbn [py_get res_bind]. rewrite Hkeys.
    cbn [py_iter res_bind]. rewrite extract_pricing_schedule_loop_find.
    destruct (find (config_item_named "PricingSchedule") items) as [item|];
      [|reflexivity].
    unfold py_json_loads.
    destruct (obj_get item "value" (JStr "[]")) as [| b | q | s | l | o];
      try reflexivity.
    destruct (json_loads s); reflexivity.
  - unfold extract_pricing_enabled. cbn [py_get res_bind].
    rewrite Hnats. cbn [py_get res_bind]. rewrite Hkeys.
    cbn [py_iter res_bind]. rewrite extract_pricing_enabled_loop_find.
    destruct (find (config_item_named "PricingScheduleEnable") items)
      as [item|]; [|reflexivity].
    destruct (obj_get item "value" (JStr "")) as [| b | q | s | l | o];
      reflexivity.
Qed.

Lemma extraction_first_setting_decides_witness :
  extract_pricing_schedule (E := scripted)
    (config_response "PricingSchedule" "[half]")
  = Ok half_schedule
  /\ extract_pricing_enabled
       (JObj [("natsResponse",
               JObj [("configuration_key",
                      JArr [JObj [("key", JStr "PricingScheduleEnable");
                                  ("value", JStr "TRUE")];
                            JObj [("key", JStr "PricingScheduleEnable");
                                  ("value", JStr "false")]])])])
     = Ok (Some true).
Proof.
  split.
  - apply (extraction_first_setting_decides (E := scripted)
             (config_response "PricingSchedule" "[half]")
             [[("key", JStr "PricingSchedule"); ("value", JStr "[half]")]]).
    eexists _, _. repeat split; reflexivity.
  - apply (extraction_first_setting_decides (E := scripted) _
             [[("key", JStr "PricingScheduleEnable"); ("value", JStr "TRUE")];
              [("key", JStr "PricingScheduleEnable");
               ("value", JStr "false")]]).
    eexists _, _. repeat split; reflexivity.
Defined.

(** ** What a scan records, and when it stops *)

(** X12.  A reading of the enable flag whose body decodes, but not to an
    object, ends the scan with an [AttributeError] right after that call:
    the stations after it are not read, and the results gathered so far are
    not returned. *)
Theorem check_stations_loop_raises_on_non_object {E : External}
    (pfid' : string) (rest : list string) (acn_id acc_id : option string)
    (all_results : list scan_result) (w : world) (out : string) (e1 : Env)
    (v : json) :
  curl_get_configuration pfid' "PricingScheduleEnable" (env w)
  = (Completed out, e1) ->
  json_loads out = Some v ->
  (forall d, v <> JObj d) ->
  check_stations_loop (pfid' :: rest) acn_id acc_id all_results w
  = (Raise AttributeError,
     after_calls w e1 [CallGetConfiguration pfid' "PricingScheduleEnable"]).
Proof.
  intros Hget Hload Hobj. cbn [check_stations_loop].
  apply bind_raise. unfold check_station.
  rewrite (bind_ret _ _ _ _ _ (get_configuration_run _ _ _ _ _ Hget)).
  apply bind_raise. cbn [decoded]. rewrite Hload.
  destruct v as [| b | q | s | l | d]; try reflexivity.
  now destruct (Hobj d).
Qed.

Lemma check_stations_loop_raises_on_non_object_witness :
  let w :=
    scripted_world (mk_script [] [Completed "[half]"] [] [] None true)
      None None in
  fst (check_stations_loop (E := scripted) ["0051-09-02-01"; "0051-09-02-02"]
         (Some "0051") (Some "09") [] w)
  = Raise AttributeError.
Proof.
  intros w.
  rewrite (check_stations_loop_raises_on_non_object (E := scripted)
             "0051-09-02-01" ["0051-09-02-02"] (Some "0051") (Some "09") [] w
             "[half]" (mk_script [] [] [] [] None true) half_schedule).
  - reflexivity.
  - reflexivity.
  - reflexivity.
  - intros d. discriminate.
Defined.

Lemma check_station_result {E : External} (pfid' : string)
    (acn_id acc_id : option string) (all_results found : list scan_result)
    (w w' : world) :
  check_station pfid' acn_id acc_id all_results w = (Ret found, w') ->
  exists sch verdict ms,
    found = all_results ++ [station_result pfid' acn_id acc_id sch verdict ms]
    /\ check_schedule_values sch expected_f_default = Ok (verdict, ms).
Proof.
  unfold check_station. intros H.
  apply bind_inv in H. destruct H as (er & w1 & _ & H).
  apply bind_inv in H. destruct H as (en & w2 & _ & H).
  apply bind_inv in H. destruct H as (en' & w3 & Hen & H).
  assert (en' = true) as ->.
  { destruct en as [[|]|].
    - now inversion Hen.
    - apply bind_inv in Hen. destruct Hen as (v & w2' & _ & Hret).
      now inversion Hret.
    - apply bind_inv in Hen. destruct Hen as (v & w2' & _ & Hret).
      now inversion Hret. }
  apply bind_inv in H. destruct H as (sr & w4 & _ & H).
  apply bind_inv in H. destruct H as (sch & w5 & _ & H).
  apply bind_inv in H. destruct H as ([verdict ms] & w6 & Hl3 & H).
  apply lift_inv in Hl3. destruct Hl3 as [Hchk _].
  inversion H; subst. now exists sch, verdict, ms.
Qed.

(** X13.  Whenever the scan loop returns, it has appended one result per
    station, in the order of the stations; each new result carries the
    organisation and the account of the scan, is marked enabled, and its
    verdict and mismatches are the classification of the schedule it
    records.  The loop has touched neither file. *)
Theorem check_stations_loop_results {E : External} (pfids : list string)
    (acn_id acc_id : option string) (all_results found : list scan_result)
    (w w' : world) :
  check_stations_loop pfids acn_id acc_id all_results w = (Ret found, w') ->
  exists new,
    found = all_results ++ new
    /\ map r_pfid new = pfids
    /\ Forall (fun r => r_acn_id r = acn_id /\ r_acc_id r = acc_id
                        /\ r_enabled r = true /\ classified r) new
    /\ progress_file w' = progress_file w
    /\ odd_ones_file w' = odd_ones_file w.
Proof.
  revert all_results found w.
  induction pfids as [|p rest IH]; intros all_results found w H.
  - inversion H; subst. exists []. rewrite app_nil_r. now repeat split.
  - cbn [check_stations_loop] in H.
    apply bind_inv in H. destruct H as (R1 & w1 & Hone & Hrest).
    pose proof (check_station_appends _ _ _ _ _ _ _ Hone) as [_ (Hp1 & Ho1 & _)].
    apply check_station_result in Hone.
    destruct Hone as (sch & verdict & ms & -> & Hchk).
    apply IH in Hrest.
    destruct Hrest as (new & -> & Hpf & Hall & Hp2 & Ho2).
    exists (station_result p acn_id acc_id sch verdict ms :: new).
    rewrite <- app_assoc. split; [reflexivity|].
    split; [cbn [map station_result r_pfid]; now rewrite Hpf|].
    split; [|split; congruence].
    constructor; [|exact Hall].
    now repeat split.
Qed.

Lemma check_stations_loop_results_witness :
  let w :=
    scripted_world
      (mk_script []
         [Completed "enabled"; Completed "schedule-third";
          CalledProcessError "exit 7"; Completed "schedule-half"]
         [] [] None true)
      None None in
  exists new w',
    check_stations_loop (E := scripted) ["0051-09-02-01"; "0051-09-02-02"]
      (Some "0051") (Some "09") [] w
    = (Ret new, w')
    /\ map r_pfid new = ["0051-09-02-01"; "0051-09-02-02"]
    /\ Forall classified new.
Proof.
  intros w.
  destruct (check_stations_loop (E := scripted)
              ["0051-09-02-01"; "0051-09-02-02"] (Some "0051") (Some "09")
              [] w) as [o w'] eqn:Hrun.
  assert (Ho : exists found, o = Ret found).
  { apply (f_equal fst) in Hrun. vm_compute in Hrun. subst o.
    eexists. reflexivity. }
  destruct Ho as [found ->].
  destruct (check_stations_loop_results (E := scripted) _ _ _ _ _ _ _ Hrun)
    as (new & Hfound & Hpf & Hall & _).
  cbn [app] in Hfound. subst found.
  exists new, w'. split; [reflexivity|]. split; [exact Hpf|].
  apply Forall_forall. intros r Hr.
  rewrite Forall_forall in Hall. now apply Hall.
Defined.

(** X14.  The schedule that the script writes to deviating stations is
    itself conforming: taken from results whose verdicts are the
    classifications of their schedules, the corrective schedule is
    classified as conforming with no mismatch, whether it comes from the
    first conforming station or is the default. *)
Theorem get_correct_schedule_conforming (results : list scan_result) :
  Forall classified results ->
  check_schedule_values
    (get_correct_schedule (snd (print_results results))) expected_f_default
  = Ok (Some true, []).
Proof.
  intros Hall. unfold print_results. cbn [snd].
  destruct (filter _ results) as [|r correct] eqn:Hf; [reflexivity|].
  assert (Hr : In r (filter (fun r => match r_all_correct r with
                                       | Some true => true
                                       | _ => false
                                       end) results))
    by (rewrite Hf; now left).
  apply filter_In in Hr. destruct Hr as [Hin Hok].
  rewrite Forall_forall in Hall. specialize (Hall r Hin).
  unfold classified in Hall. cbn [get_correct_schedule].
  destruct (truthy (r_schedule r)) eqn:Ht; [|reflexivity].
  rewrite Hall.
  unfold check_schedule_values in Hall. rewrite Ht in Hall. cbn [negb] in Hall.
  destruct (py_iter (r_schedule r)) as [entries|]; [|discriminate].
  cbn [res_bind] in Hall.
  destruct (check_schedule_loop entries expected_f_default []) as [ms|];
    [|discriminate].
  cbn [res_bind] in Hall. injection Hall as Hv Hms.
  rewrite <- Hv in Hok. rewrite <- Hv, <- Hms.
  destruct ms; [reflexivity|discriminate Hok].
Qed.

Lemma get_correct_schedule_conforming_witness :
  let results :=
    [demo_result "0051-09-02-01" "09";
     mk_scan_result "0051-09-02-02" (Some "0051") (Some "09") (Some "02")
       (Some "02") half_schedule true (Some true) []] in
  Forall classified results
  /\ check_schedule_values
       (get_correct_schedule (snd (print_results results)))
       expected_f_default
     = Ok (Some true, []).
Proof.
  intros results.
  assert (H : Forall classified results)
    by (repeat constructor).
  split; [exact H|].
  exact (get_correct_schedule_conforming results H).
Defined.

(** ** Which stations a scan reads *)

Lemma bind_ret_r {E : External} {A} (m : M A) (w : world) :
  bind m (fun a => ret a) w = m w.
Proof. unfold bind, ret. destruct (m w) as [[a|c|e] w']; reflexivity. Qed.

(** The first loop on well-formed entries followed by others. *)
Lemma select_stations_loop_well_formed (before : list json)
    (pfid_prefix : option string) :
  Forall well_formed_entry before ->
  forall (rest kept : list json) (filtered_out : nat),
    exists filtered_out',
      select_stations_loop (before ++ rest) pfid_prefix kept filtered_out
      = select_stations_loop rest pfid_prefix
          (kept ++ filter (liteon_in_scope pfid_prefix) before)
          filtered_out'.
Proof.
  induction 1 as [|entry before (d & -> & Hpfid & (t & Htype)) _ IH];
    intros rest kept filtered_out.
  - exists filtered_out. cbn [app filter]. now rewrite app_nil_r.
  - cbn [app select_stations_loop py_get res_bind filter].
    unfold liteon_in_scope at 1, e_pfid, e_evse_type. rewrite Htype.
    destruct Hpfid as [Hnull|(s & Hs)].
    + rewrite Hnull. cbn [truthy negb]. apply IH.
    + rewrite Hs. cbn [truthy].
      destruct (String.eqb s ""); cbn [negb]; [apply IH|].
      destruct (truthy_str pfid_prefix); cbn [py_text res_bind negb orb].
      * destruct (startswith s (fmt pfid_prefix)); cbn [negb andb];
          [|apply IH].
        destruct (contains "liteon" (lower t)); [|apply IH].
        destruct (IH rest (kept ++ [JObj d]) filtered_out) as [n' Hn'].
        exists n'. rewrite Hn', <- app_assoc. reflexivity.
      * destruct (contains "liteon" (lower t)); [|apply IH].
        destruct (IH rest (kept ++ [JObj d]) filtered_out) as [n' Hn'].
        exists n'. rewrite Hn', <- app_assoc. reflexivity.
Qed.

Lemma entry_pfids_selected (pfid_prefix : option string)
    (entries : list json) :
  entry_pfids (filter (liteon_in_scope pfid_prefix) entries)
  = Ok (map JStr
          (map (fun entry => fmt (e_pfid entry))
             (filter (liteon_in_scope pfid_prefix) entries))).
Proof.
  induction entries as [|entry entries IH]; [reflexivity|].
  cbn [filter]. destruct (liteon_in_scope pfid_prefix entry) eqn:Hin;
    [|exact IH].
  cbn [entry_pfids map]. rewrite IH.
  unfold liteon_in_scope, e_pfid in Hin. unfold e_pfid.
  destruct entry as [| b | q | str | l | d]; try discriminate Hin.
  cbn [py_get res_bind].
  destruct (obj_get d "pfid" JNull) as [| b | q | s | l | o];
    try discriminate Hin.
  destruct (String.eqb s ""); [discriminate Hin|reflexivity].
Qed.

Lemma text_identifiers_text (pfids : list string) :
  text_identifiers (map JStr pfids) = (pfids, None).
Proof.
  induction pfids as [|p pfids IH]; [reflexivity|].
  cbn [map text_identifiers]. now rewrite IH.
Qed.

(** X16.  A scan of an account is one fetch of its dashboard followed by
    the scan loop over the selected stations: the entries that have an
    identifier, whose identifier starts with the prefix of the scope when
    the scope has a third level, and whose model name (taken as [Unknown]
    when the entry has none) contains [liteon] in any case, in the order of
    the dashboard.  This holds when the fetch failed or gave a false value,
    which are scanned as an empty dashboard, and when it gave an object of
    well-formed entries.  An entry that is reached with a model name that
    is there but is not text, such as null, ends the scan with an
    [AttributeError] after the fetch, before any station is read. *)
Theorem process_stations_scans_selection {E : External}
    (acn_id acc_id acg_id acs_id : option string)
    (all_results : option (list scan_result)) (w : world)
    (d : option json) (e' : Env) :
  curl_station_dashboard acn_id acc_id (env w) = (d, e') ->
  (truthy_str acg_id = true -> acn_id <> None) ->
  (well_formed_dashboard d ->
   process_stations acn_id acc_id acg_id acs_id all_results w
   = check_stations_loop
       (map (fun entry => fmt (e_pfid entry))
          (filter (liteon_in_scope (scan_prefix acn_id acc_id acg_id acs_id))
             (dashboard_entries d)))
       acn_id acc_id (or_empty all_results)
       (after_calls w e' [CallFetchStationData acn_id acc_id]))
  /\ (forall stations before entry after s v,
        d = Some (JObj stations) ->
        map snd stations = before ++ JObj entry :: after ->
        Forall well_formed_entry before ->
        obj_get entry "pfid" JNull = JStr s ->
        s <> "" ->
        (truthy_str (scan_prefix acn_id acc_id acg_id acs_id) = true ->
         startswith s (fmt (scan_prefix acn_id acc_id acg_id acs_id)) = true) ->
        obj_get entry "evse_type" (JStr "Unknown") = v ->
        (forall t, v <> JStr t) ->
        process_stations acn_id acc_id acg_id acs_id all_results w
        = (Raise AttributeError,
           after_calls w e' [CallFetchStationData acn_id acc_id])).
Proof.
  intros Hd Hacn.
  assert (Hprefix : forall w1,
    (if truthy_str acg_id
     then p <- lift (build_pfid_prefix acn_id acc_id acg_id acs_id) ;;
          ret (Some p)
     else ret None) w1
    = (Ret (scan_prefix acn_id acc_id acg_id acs_id), w1)).
  { intros w1. unfold scan_prefix.
    destruct (truthy_str acg_id); [|reflexivity].
    destruct acn_id as [a|]; [reflexivity|]. now destruct Hacn. }
  assert (Hfetch :
    process_stations acn_id acc_id acg_id acs_id all_results w
    = (let stations := match d with
                       | Some stations => stations
                       | None => JObj []
                       end in
       if negb (truthy stations) then ret (or_empty all_results)
       else
         entries <- lift (py_values stations) ;;
         selected <-
           lift (select_stations_loop entries
                   (scan_prefix acn_id acc_id acg_id acs_id) [] 0) ;;
         let '(liteon_entries, filtered_out) := selected in
         pfids <- lift (entry_pfids liteon_entries) ;;
         match pfids with
         | [] => ret (or_empty all_results)
         | _ :: _ =>
             let '(texts, other) := text_identifiers pfids in
             all_results <-
               check_stations_loop texts acn_id acc_id
                 (or_empty all_results) ;;
             match other with
             | None => ret all_results
             | Some v =>
                 check_station (py_str v) acn_id acc_id all_results ;;
                 lift (Err AttributeError)
             end
         end)
        (after_calls w e' [CallFetchStationData acn_id acc_id])).
  { unfold process_stations, fetch_station_data.
    rewrite bind_assoc. unfold bind at 1, external. rewrite Hd.
    fold (after_calls w e' [CallFetchStationData acn_id acc_id]).
    assert (Hst : forall w1,
      (match d with
       | Some stations => ret stations
       | None => ret (JObj [])
       end) w1
      = (Ret match d with
             | Some stations => stations
             | None => JObj []
             end, w1)) by (intros w1; destruct d; reflexivity).
    rewrite (bind_ret _ _ _ _ _ (Hst _)). cbv zeta.
    destruct (negb (truthy _)); [reflexivity|].
    now rewrite (bind_ret _ _ _ _ _ (Hprefix _)). }
  rewrite Hfetch. clear Hfetch. cbv zeta.
  set (w1 := after_calls w e' _).
  set (prefix := scan_prefix acn_id acc_id acg_id acs_id) in *.
  split.
  - intros Hwf.
    destruct d as [[| b | q | str | l | stations]|]; cbn [well_formed_dashboard]
      in Hwf; cbn [dashboard_entries filter map];
      try (rewrite Hwf; reflexivity); try reflexivity.
    destruct stations as [|st sts]; [reflexivity|].
    cbn [truthy negb py_values].
    rewrite (bind_ret _ _ _ _ _ (lift_ok _ _ _ eq_refl)).
    destruct (select_stations_loop_well_formed (map snd (st :: sts)) prefix
                Hwf [] [] 0) as [n' Hsel].
    rewrite app_nil_r in Hsel. cbn [select_stations_loop app] in Hsel.
    rewrite (bind_ret _ _ _ _ _ (lift_ok _ _ _ Hsel)).
    rewrite (bind_ret _ _ _ _ _
               (lift_ok _ _ _ (entry_pfids_selected prefix _))).
    destruct (map (fun entry => fmt (e_pfid entry))
                (filter (liteon_in_scope prefix) (map snd (st :: sts))))
      as [|p ps]; [reflexivity|].
    cbn [map text_identifiers]. rewrite text_identifiers_text.
    apply bind_ret_r.
  - intros stations before entry after s v -> Hsplit Hbefore Hpfid Hs
      Hscope Htype Hnot.
    assert (Htruthy : truthy (JObj stations) = true).
    { destruct stations; [|reflexivity].
      destruct before; discriminate Hsplit. }
    rewrite Htruthy. cbn [negb py_values].
    rewrite (bind_ret _ _ _ _ _ (lift_ok _ _ _ eq_refl)).
    apply bind_raise. rewrite Hsplit.
    destruct (select_stations_loop_well_formed before prefix Hbefore
                (JObj entry :: after) [] 0) as [n' Hsel].
    rewrite Hsel. cbn [select_stations_loop py_get res_bind].
    rewrite Hpfid. cbn [truthy]. apply String.eqb_neq in Hs. rewrite Hs.
    cbn [negb].
    assert (Hstarts :
      (if truthy_str prefix
       then (s0 <-? py_text (JStr s); Ok (startswith s0 (fmt prefix)))%res
       else Ok true) = Ok true).
    { destruct (truthy_str prefix); [|reflexivity].
      cbn [py_text res_bind]. now rewrite Hscope. }
    rewrite Hstarts. cbn [res_bind negb]. rewrite Htype.
    destruct v as [| b | q | t | l | o]; try reflexivity.
    now destruct (Hnot t).
Qed.

Lemma process_stations_scans_selection_witness :
  let dashboard :=
    JObj
      [("a", mk_station_entry (Some "0051-09-02-01") (Some "LiteON 48A"));
       ("b", mk_station_entry (Some "0051-09-03-01") (Some "LITEON 48A"));
       ("c", mk_station_entry (Some "0051-09-02-02") (Some "Other"));
       ("d", mk_station_entry None (Some "LiteON 48A"));
       ("e", mk_station_entry (Some "0051-09-02-03") None)] in
  let e := mk_script [] [] [] [Some dashboard] None true in
  process_stations (E := scripted) (Some "0051") (Some "09") (Some "02") None
    None (scripted_world e None None)
  = check_stations_loop (E := scripted) ["0051-09-02-01"] (Some "0051")
      (Some "09") []
      (after_calls (scripted_world e None None)
         (mk_script [] [] [] [] None true)
         [CallFetchStationData (Some "0051") (Some "09")]).
Proof.
  intros dashboard e.
  apply (proj1 (process_stations_scans_selection (E := scripted)
                  (Some "0051") (Some "09") (Some "02") None None
                  (scripted_world e None None) (Some dashboard)
                  (mk_script [] [] [] [] None true) eq_refl
                  ltac:(discriminate))).
  repeat apply Forall_cons; try apply Forall_nil;
    eexists; (split; [reflexivity|]);
    (split; [(left; reflexivity) || (right; eexists; reflexivity)
            |eexists; reflexivity]).
Defined.

(** A model name that is null: the scan ends before any station is read. *)
Example process_stations_null_model_name :
  process_stations (E := scripted) (Some "0051") (Some "09") None None None
    (scripted_world
       (mk_script [] [] []
          [Some (JObj [("a", JObj [("pfid", JStr "0051-09-02-01");
                                   ("evse_type", JNull)])])]
          None true)
       None None)
  = (Raise AttributeError,
     after_calls
       (scripted_world
          (mk_script [] [] []
             [Some (JObj [("a", JObj [("pfid", JStr "0051-09-02-01");
                                      ("evse_type", JNull)])])]
             None true)
          None None)
       (mk_script [] [] [] [] None true)
       [CallFetchStationData (Some "0051") (Some "09")]).
Proof. reflexivity. Qed.

(** X15.  In a sweep, an account whose dashboard cannot be fetched, or is
    empty, is checkpointed as completed like any other: the results are
    unchanged, the account joins the completed accounts in the progress
    file, and the sweep goes on with the next account, so that a resumed
    sweep does not come back to it. *)
Theorem main_pfid_loop_completes_failed_fetch {E : External}
    (acc_id : string) (more : list string) (acn : option string)
    (p : progress) (completed : list string) (found : list scan_result)
    (w : world) (d : option json) (e' : Env) :
  ~ In acc_id completed ->
  curl_station_dashboard acn (Some acc_id) (env w) = (d, e') ->
  d = None \/ (exists v, d = Some v /\ truthy v = false) ->
  main_pfid_loop (acc_id :: more) acn p completed found w
  = main_pfid_loop more acn
      (progress_with p (completed ++ [acc_id]) found)
      (completed ++ [acc_id]) found
      (checkpointed
         (after_calls w e' [CallFetchStationData acn (Some acc_id)])
         (progress_with p (completed ++ [acc_id]) found)).
Proof.
  intros Hfresh Hd Hempty.
  apply main_pfid_loop_saves; [exact Hfresh|].
  unfold process_stations, fetch_station_data.
  rewrite bind_assoc. unfold bind at 1, external. rewrite Hd.
  destruct Hempty as [->|(v & -> & Hv)]; rewrite bind_ret_l;
    [reflexivity|].
  now rewrite Hv.
Qed.

Lemma main_pfid_loop_completes_failed_fetch_witness :
  let w := scripted_world (mk_script [] [] [] [None] None true) None None in
  exists w',
    main_pfid_loop (E := scripted) ["09"] (Some "0051")
      (sweep_progress (Some "0051") 1 [] [] None) [] [] w
    = (Ret [], w')
    /\ option_map completed_accs (progress_file w') = Some ["09"].
Proof.
  intros w.
  rewrite (main_pfid_loop_completes_failed_fetch (E := scripted) "09" []
             (Some "0051") (sweep_progress (Some "0051") 1 [] [] None) [] []
             w None (mk_script [] [] [] [] None true)).
  - eexists. split; reflexivity.
  - intros [].
  - reflexivity.
  - now left.
Defined.

(** ** The first round of corrective writes *)

Lemma get_site_key_given (a : string)
    (acc_id acg_id acs_id mode : option string) :
  a <> "" ->
  get_site_key (Some a) acc_id acg_id acs_id mode
  = Some (key_str (get_site_key (Some a) acc_id acg_id acs_id mode))
  /\ key_str (get_site_key (Some a) acc_id acg_id acs_id mode) <> "".
Proof.
  intros Ha. unfold get_site_key.
  destruct a as [|c a']; [congruence|].
  destruct (opt_str_eqb mode "acn-only"
            || (is_none acc_id && is_none acg_id && is_none acs_id));
    [split; [reflexivity|discriminate]|].
  destruct (opt_str_eqb mode "acn-acc" || (is_none acg_id && is_none acs_id));
    [split; [reflexivity|discriminate]|].
  destruct (opt_str_eqb mode "acn-acc-acg" || is_none acs_id);
    split; try reflexivity; discriminate.
Qed.

(** X17.  The first round of corrective writes, for a batch of deviating
    results of a scope given with its organisation, and with its account or
    the mode [acn-only].  The batch is saved under the key of the scope
    before the operator is asked.
    - When the operator declines, the run ends there: the ledger holds the
      saved entry, and no call was made.
    - When the operator confirms, the identifiers of the batch being
      distinct and the write call returning objects, the calls of the round
      are exactly one write of the corrective schedule per result of the
      batch, in the order of the batch; afterwards the scope's entry still
      lists the stations of the batch, in order, with the corrective
      schedule, and the progress file is as it was. *)
Theorem prompt_update_odd_ones_outcomes {E : External}
    (odd_ones correct : list scan_result) (a : string)
    (acc_id acg_id acs_id mode : option string) (w : world)
    (t1 t2 response : string) (e1 e2 e3 : Env) :
  a <> "" ->
  acc_id <> None \/ mode = Some "acn-only" ->
  datetime_now (env w) = (t1, e1) ->
  datetime_now e1 = (t2, e2) ->
  console_input e2 = (response, e3) ->
  exists sd,
    stations sd = map station_of_result odd_ones
    /\ correct_schedule sd = get_correct_schedule correct
    /\ (is_yes response = false ->
        prompt_update_odd_ones odd_ones correct false (Some a) acc_id acg_id
          acs_id mode w
        = (Ret tt,
           mk_world e3 (progress_file w)
             (Some (dict_set
                      (key_str
                         (get_site_key (Some a) acc_id acg_id acs_id mode))
                      sd (ledger_of w)))
             (calls w)))
    /\ (is_yes response = true ->
        NoDup (map r_pfid odd_ones) ->
        writes_return_objects ->
        exists w1 sd1,
          prompt_update_odd_ones odd_ones correct false (Some a) acc_id
            acg_id acs_id mode w
          = (Ret tt, w1)
          /\ calls w1
             = calls w
               ++ map (corrective_call
                         (json_dumps (get_correct_schedule correct)))
                    odd_ones
          /\ dict_lookup
               (key_str (get_site_key (Some a) acc_id acg_id acs_id mode))
               (ledger_of w1)
             = Some sd1
          /\ map pfid (stations sd1) = map r_pfid odd_ones
          /\ correct_schedule sd1 = get_correct_schedule correct
          /\ progress_file w1 = progress_file w).
Proof.
  intros Ha Hscope Ht1 Ht2 Hin.
  destruct (save_odd_ones_out_run odd_ones (get_correct_schedule correct) a
              acc_id acg_id acs_id mode w t1 t2 e1 e2 Hscope Ht1 Ht2)
    as (sd & Hsave & Hst & Hcs).
  destruct (get_site_key_given a acc_id acg_id acs_id mode Ha) as [Hkey Hsk].
  set (sk := key_str (get_site_key (Some a) acc_id acg_id acs_id mode)) in *.
  set (w0 := mk_world e2 (progress_file w)
               (Some (dict_set sk sd (ledger_of w))) (calls w)) in *.
  set (w0' := mk_world e3 (progress_file w)
                (Some (dict_set sk sd (ledger_of w))) (calls w)).
  assert (Hinput : input w0 = (Ret response, w0')).
  { unfold input, ambient. subst w0. cbn [env]. now rewrite Hin. }
  assert (Hprompt :
    prompt_update_odd_ones odd_ones correct false (Some a) acc_id acg_id
      acs_id mode w
    = (if is_yes response
       then update_stations_loop (map r_pfid odd_ones)
              (json_dumps (get_correct_schedule correct)) (Some sk) (0, 0) ;;
            ret tt
       else ret tt) w0').
  { unfold prompt_update_odd_ones. cbv beta iota zeta.
    rewrite (bind_ret _ _ _ _ _ Hsave).
    rewrite bind_assoc, (bind_ret _ _ _ _ _ Hinput), bind_ret_l.
    cbn [truthy_str]. apply String.eqb_neq in Ha. rewrite Ha. cbn [negb].
    rewrite Hkey. reflexivity. }
  exists sd. split; [exact Hst|]. split; [exact Hcs|]. split.
  - intros Hno. rewrite Hprompt, Hno. reflexivity.
  - intros Hyes Hnd Hobj. rewrite Hprompt, Hyes.
    destruct (update_stations_loop_run sk
                (json_dumps (get_correct_schedule correct))
                (map r_pfid odd_ones) Hsk Hobj Hnd w0' (0, 0) sd)
      as (counts & w1 & sd1 & Hloop & Hsd1 & Hpf1 & Hcs1 & _ & Hcalls
          & Hprog & _).
    { subst w0'. unfold ledger_of. cbn [odd_ones_file].
      apply dict_lookup_set_same. }
    { rewrite Hst, map_map. cbn [station_of_result pfid].
      apply incl_refl. }
    exists w1, sd1. rewrite (bind_ret _ _ _ _ _ Hloop).
    split; [reflexivity|]. split.
    { rewrite Hcalls. subst w0'. cbn [calls]. now rewrite map_map. }
    split; [exact Hsd1|]. split.
    { rewrite Hpf1, Hst, map_map. reflexivity. }
    split; [congruence|]. exact Hprog.
Qed.

Lemma prompt_update_odd_ones_outcomes_witness :
  let batch := [demo_result "0051-09-02-01" "09"] in
  let w :=
    scripted_writes_world
      (mk_script ["yes"] [] [Completed "accepted"] [] None true) None in
  exists w1,
    prompt_update_odd_ones (E := scripted_writes) batch [] false
      (Some "0051") (Some "09") None None (Some "acn-acc") w
    = (Ret tt, w1)
    /\ calls w1
       = [CallSetConfiguration "0051-09-02-01" "PricingSchedule" "<json>"].
Proof.
  intros batch w.
  destruct (prompt_update_odd_ones_outcomes (E := scripted_writes) batch []
              "0051" (Some "09") None None (Some "acn-acc") w
              "2024-05-01T10:00:00" "2024-05-01T10:00:00" "yes"
              (mk_script ["yes"] [] [Completed "accepted"] [] None true)
              (mk_script ["yes"] [] [Completed "accepted"] [] None true)
              (mk_script [] [] [Completed "accepted"] [] None true))
    as (sd & _ & _ & _ & Hyes).
  - discriminate.
  - left. discriminate.
  - reflexivity.
  - reflexivity.
  - reflexivity.
  - destruct (Hyes eq_refl) as (w1 & sd1 & Hrun & Hcalls & _).
    + repeat constructor. intros [].
    + apply scripted_writes_return_objects.
    + exists w1. split; [exact Hrun|exact Hcalls].
Defined.

(** ** What a run may do to the state, however it ends *)

Section Frames.

Context {E : External}.

Variable R : world -> world -> Prop.
Hypothesis R_refl : forall w, R w w.
Hypothesis R_trans : forall w1 w2 w3, R w1 w2 -> R w2 w3 -> R w1 w3.

Lemma frame_bind {A B} (m : M A) (k : A -> M B) :
  (forall w, R w (snd (m w))) ->
  (forall a w, R w (snd (k a w))) ->
  forall w, R w (snd (bind m k w)).
Proof.
  intros Hm Hk w. unfold bind. specialize (Hm w).
  destruct (m w) as [[a|c|e] w1]; cbn [snd] in *; try exact Hm.
  exact (R_trans _ _ _ Hm (Hk a w1)).
Qed.

Lemma frame_lift {A} (r : res A) (w : world) : R w (snd (lift r w)).
Proof. unfold lift. destruct r; apply R_refl. Qed.

End Frames.

Lemma trace_within_refl {E : External} (P : call -> Prop) (w : world) :
  trace_within P w w.
Proof. exists []. now rewrite app_nil_r. Qed.

Lemma trace_within_trans {E : External} (P : call -> Prop)
    (w1 w2 w3 : world) :
  trace_within P w1 w2 -> trace_within P w2 w3 -> trace_within P w1 w3.
Proof.
  intros (cs1 & H1 & F1) (cs2 & H2 & F2). exists (cs1 ++ cs2).
  split; [rewrite H2, H1; now rewrite app_assoc|].
  apply Forall_app. now split.
Qed.

Lemma trace_within_one {E : External} (P : call -> Prop) (w : world)
    (e' : Env) (c : call) :
  P c -> trace_within P w (after_calls w e' [c]).
Proof. intros Hc. exists [c]. split; [reflexivity|]. now repeat constructor. Qed.

Lemma scan_frame_refl {E : External} (w : world) : scan_frame w w.
Proof. split; [apply trace_within_refl|now split]. Qed.

Lemma scan_frame_trans {E : External} (w1 w2 w3 : world) :
  scan_frame w1 w2 -> scan_frame w2 w3 -> scan_frame w1 w3.
Proof.
  intros (T1 & P1 & O1) (T2 & P2 & O2).
  split; [exact (trace_within_trans _ _ _ _ T1 T2)|]. split; congruence.
Qed.

Lemma get_configuration_frame {E : External} (pfid' key : string)
    (w : world) :
  key = "PricingScheduleEnable" \/ key = "PricingSchedule" ->
  scan_frame w (snd (get_configuration pfid' key w)).
Proof.
  intros Hkey.
  destruct (curl_get_configuration pfid' key (env w)) as [r e'] eqn:Hr.
  rewrite (get_configuration_run _ _ _ _ _ Hr). cbn [snd].
  split; [now apply trace_within_one|now split].
Qed.

Lemma enable_frame {E : External} (pfid' : string) (w : world) :
  scan_frame w
    (snd (set_configuration pfid' "PricingScheduleEnable" "true" w)).
Proof.
  destruct (curl_set_configuration pfid' "PricingScheduleEnable" "true"
              (env w)) as [r e'] eqn:Hr.
  rewrite (set_configuration_run _ _ _ _ _ _ Hr). cbn [snd].
  split; [apply trace_within_one; now split|now split].
Qed.

Lemma check_station_frame {E : External} (pfid' : string)
    (acn_id acc_id : option string) (all_results : list scan_result)
    (w : world) :
  scan_frame w (snd (check_station pfid' acn_id acc_id all_results w)).
Proof.
  revert w. unfold check_station.
  apply (frame_bind scan_frame scan_frame_trans);
    [intros w; apply get_configuration_frame; now left|intros er].
  apply (frame_bind scan_frame scan_frame_trans);
    [intros w; apply (frame_lift scan_frame scan_frame_refl)|intros en].
  apply (frame_bind scan_frame scan_frame_trans).
  { destruct en as [[|]|]; try (intros w; apply scan_frame_refl);
      apply (frame_bind scan_frame scan_frame_trans);
      (intros w; apply enable_frame) || (intros v w; apply scan_frame_refl). }
  intros en'.
  apply (frame_bind scan_frame scan_frame_trans);
    [intros w; apply get_configuration_frame; now right|intros sr].
  apply (frame_bind scan_frame scan_frame_trans);
    [intros w; apply (frame_lift scan_frame scan_frame_refl)|intros sch].
  apply (frame_bind scan_frame scan_frame_trans);
    [intros w; apply (frame_lift scan_frame scan_frame_refl)|].
  intros [verdict ms] w. apply scan_frame_refl.
Qed.

Lemma check_stations_loop_frame {E : External} (pfids : list string)
    (acn_id acc_id : option string) :
  forall (all_results : list scan_result) (w : world),
    scan_frame w (snd (check_stations_loop pfids acn_id acc_id all_results w)).
Proof.
  induction pfids as [|p rest IH]; intros all_results.
  - intros w. apply scan_frame_refl.
  - cbn [check_stations_loop].
    apply (frame_bind scan_frame scan_frame_trans).
    + intros w. apply check_station_frame.
    + intros found w. apply IH.
Qed.

(** The scan of an account after the fetch of its dashboard. *)
Lemma process_stations_frame {E : External}
    (acn_id acc_id acg_id acs_id : option string)
    (all_results : option (list scan_result)) (w : world)
    (d : option json) (e' : Env) :
  curl_station_dashboard acn_id acc_id (env w) = (d, e') ->
  scan_frame (after_calls w e' [CallFetchStationData acn_id acc_id])
    (snd (process_stations acn_id acc_id acg_id acs_id all_results w)).
Proof.
  intros Hd.
  unfold process_stations, fetch_station_data.
  rewrite bind_assoc. unfold bind at 1, external. rewrite Hd.
  fold (after_calls w e' [CallFetchStationData acn_id acc_id]).
  generalize (after_calls w e' [CallFetchStationData acn_id acc_id]).
  apply (frame_bind scan_frame scan_frame_trans).
  { intros w0. destruct d; apply scan_frame_refl. }
  intros stations.
  destruct (negb (truthy stations)); [intros w0; apply scan_frame_refl|].
  apply (frame_bind scan_frame scan_frame_trans).
  { destruct (truthy_str acg_id); [|intros w0; apply scan_frame_refl].
    apply (frame_bind scan_frame scan_frame_trans).
    - intros w0. apply (frame_lift scan_frame scan_frame_refl).
    - intros p w0. apply scan_frame_refl. }
  intros prefix.
  apply (frame_bind scan_frame scan_frame_trans);
    [intros w0; apply (frame_lift scan_frame scan_frame_refl)|intros entries].
  apply (frame_bind scan_frame scan_frame_trans);
    [intros w0; apply (frame_lift scan_frame scan_frame_refl)|].
  intros [liteon filtered_out].
  apply (frame_bind scan_frame scan_frame_trans);
    [intros w0; apply (frame_lift scan_frame scan_frame_refl)|].
  intros [|p ps]; [intros w0; apply scan_frame_refl|].
  destruct (text_identifiers (p :: ps)) as [texts other].
  apply (frame_bind scan_frame scan_frame_trans);
    [apply check_stations_loop_frame|intros found].
  destruct other as [v|]; [|intros w0; apply scan_frame_refl].
  apply (frame_bind scan_frame scan_frame_trans).
  - intros w0. apply check_station_frame.
  - intros found1 w0. apply (frame_lift scan_frame scan_frame_refl).
Qed.

(** X18.  However a scan of an account ends, with its results or with an
    exception, it has made one fetch of the dashboard and after it nothing
    but readings of the two settings and writings of the enable flag: no
    schedule is written during a scan.  Neither the progress file nor the
    ledger file is touched. *)
Theorem process_stations_never_writes_schedule {E : External}
    (acn_id acc_id acg_id acs_id : option string)
    (all_results : option (list scan_result)) (w : world) :
  exists cs,
    calls (snd (process_stations acn_id acc_id acg_id acs_id all_results w))
    = calls w ++ CallFetchStationData acn_id acc_id :: cs
    /\ Forall scan_call cs
    /\ progress_file
         (snd (process_stations acn_id acc_id acg_id acs_id all_results w))
       = progress_file w
    /\ odd_ones_file
         (snd (process_stations acn_id acc_id acg_id acs_id all_results w))
       = odd_ones_file w.
Proof.
  destruct (curl_station_dashboard acn_id acc_id (env w)) as [d e'] eqn:Hd.
  destruct (process_stations_frame acn_id acc_id acg_id acs_id all_results
              w d e' Hd) as ((cs & Hcs & Hall) & Hp & Ho).
  exists cs.
  split; [rewrite Hcs; cbn [after_calls calls]; now rewrite <- app_assoc|].
  split; [exact Hall|]. split; [rewrite Hp|rewrite Ho]; reflexivity.
Qed.

(** X26.  A sweep that is cut short.  When the loop has gone through the
    accounts [first] and the scan of the next account [a] ends with an
    exception, the sweep ends with that exception; the progress file is
    the one left by the last completed account, holding [first] as
    completed with the results up to there and not [a], and the ledger
    file is as it was when the sweep began. *)
Theorem main_pfid_loop_interrupted {E : External} (acn : option string)
    (first : list string) (a : string) (rest : list string) (p : progress)
    (completed : list string) (found found1 : list scan_result)
    (w w1 w2 : world) (e : pyexn) :
  NoDup (first ++ [a]) ->
  (forall x, In x (first ++ [a]) -> ~ In x completed) ->
  main_pfid_loop first acn p completed found w = (Ret found1, w1) ->
  process_stations acn (Some a) None None (Some found1) w1 = (Raise e, w2) ->
  main_pfid_loop (first ++ a :: rest) acn p completed found w = (Raise e, w2)
  /\ progress_file w2
     = match first with
       | [] => progress_file w
       | _ :: _ => Some (progress_with p (completed ++ first) found1)
       end
  /\ odd_ones_file w2 = odd_ones_file w.
Proof.
  intros Hnd Hfresh Hfirst Hscan.
  assert (Hnd1 : NoDup first) by (now apply NoDup_app_remove_r in Hnd).
  assert (Hfresh1 : forall x, In x first -> ~ In x completed).
  { intros x Hx. apply Hfresh, in_or_app. now left. }
  assert (Ha : ~ In a (completed ++ first)).
  { intros Hin. apply in_app_or in Hin. destruct Hin as [Hin|Hin].
    - apply (Hfresh a); [apply in_or_app; right; now left|exact Hin].
    - apply NoDup_remove_2 in Hnd. rewrite app_nil_r in Hnd. contradiction. }
  split.
  - rewrite (main_pfid_loop_app acn first (a :: rest) p completed found found1
               w w1 Hfresh1 Hnd1 Hfirst).
    cbn [main_pfid_loop].
    destruct (in_dec string_dec a (completed ++ first)) as [Hin|_];
      [contradiction|].
    now apply bind_raise.
  - destruct (main_pfid_loop_returns acn first Hnd1 p completed found found1
                w w1 Hfresh1 Hfirst) as (_ & _ & Ho1 & Hp1 & _).
    destruct (curl_station_dashboard acn (Some a) (env w1)) as [d e'] eqn:Hd.
    pose proof (process_stations_frame acn (Some a) None None (Some found1)
                  w1 d e' Hd) as (_ & Hp2 & Ho2).
    rewrite Hscan in Hp2, Ho2. cbn [snd after_calls progress_file
                                     odd_ones_file] in Hp2, Ho2.
    split; congruence.
Qed.

Lemma main_pfid_loop_interrupted_witness :
  let p := sweep_progress (Some "0051") 3 [] [] None in
  let w :=
    scripted_world
      (mk_script [] [Completed "[half]"] []
         [None;
          Some (JObj [("a", mk_station_entry (Some "0051-12-01-01")
                              (Some "LiteON 48A"))])]
         None true)
      None None in
  fst (main_pfid_loop (E := scripted) ["09"; "12"; "15"] (Some "0051") p []
         [] w)
  = Raise AttributeError
  /\ option_map completed_accs
       (progress_file
          (snd (main_pfid_loop (E := scripted) ["09"; "12"; "15"]
                  (Some "0051") p [] [] w)))
     = Some ["09"].
Proof.
  intros p w.
  destruct (main_pfid_loop_interrupted (E := scripted) (Some "0051") ["09"]
              "12" ["15"] p [] [] [] w
              (snd (main_pfid_loop (E := scripted) ["09"] (Some "0051") p []
                      [] w))
              (snd (process_stations (E := scripted) (Some "0051")
                      (Some "12") None None (Some [])
                      (snd (main_pfid_loop (E := scripted) ["09"]
                              (Some "0051") p [] [] w))))
              AttributeError)
    as (Hrun & Hprog & _).
  - repeat constructor; simpl; intuition discriminate.
  - intros x _ [].
  - apply injective_projections; reflexivity.
  - apply injective_projections; reflexivity.
  - cbn [app] in Hrun. rewrite Hrun. cbn [fst snd].
    split; [reflexivity|]. rewrite Hprog. reflexivity.
Defined.

Section Writes.

Context {E : External}.

Variable value : string.
Variable pfids : list string.

Lemma write_frame_quiet (w w' : world) :
  calls w' = calls w -> progress_file w' = progress_file w ->
  write_frame value pfids w w'.
Proof.
  intros Hc Hp. split; [|exact Hp]. exists []. rewrite app_nil_r.
  now split.
Qed.

Lemma write_frame_refl (w : world) : write_frame value pfids w w.
Proof. now apply write_frame_quiet. Qed.

Lemma write_frame_trans (w1 w2 w3 : world) :
  write_frame value pfids w1 w2 -> write_frame value pfids w2 w3 ->
  write_frame value pfids w1 w3.
Proof.
  intros (T1 & P1) (T2 & P2).
  split; [exact (trace_within_trans _ _ _ _ T1 T2)|congruence].
Qed.

Lemma update_odd_ones_status_quiet (pfid' status : string) (reason : json)
    (site_key : option string) (w : world) :
  write_frame value pfids w
    (snd (update_odd_ones_status pfid' status reason site_key w)).
Proof.
  apply write_frame_quiet;
    unfold update_odd_ones_status, bind, load_all_odd_ones_out;
    destruct (update_sites_loop _ _ pfid' status reason "" "");
    try reflexivity;
    unfold now, ambient;
    destruct (datetime_now (env w)) as [t1 e1];
    cbn [env progress_file odd_ones_file calls];
    destruct (datetime_now e1) as [t2 e2];
    cbn [env progress_file odd_ones_file calls];
    destruct (update_sites_loop _ _ pfid' status reason t1 t2); reflexivity.
Qed.

Lemma remove_completed_site_quiet (sk : string) (w : world) :
  write_frame value pfids w (snd (remove_completed_site sk w)).
Proof.
  apply write_frame_quiet;
    unfold remove_completed_site, bind, load_all_odd_ones_out;
    destruct (dict_lookup sk _) as [sd|]; try reflexivity;
    destruct (all_accepted (stations sd)); reflexivity.
Qed.

Lemma input_quiet (w : world) : write_frame value pfids w (snd (input w)).
Proof.
  apply write_frame_quiet; unfold input, ambient;
    destruct (console_input (env w)); reflexivity.
Qed.

Lemma update_station_frame (pfid' : string) (site_key : option string) :
  In pfid' pfids ->
  forall (counts : nat * nat) (w : world),
    write_frame value pfids w
      (snd (update_station pfid' value site_key counts w)).
Proof.
  intros Hin [accepted_count rejected_count]. unfold update_station.
  apply (frame_bind _ write_frame_trans).
  { intros w.
    destruct (curl_set_configuration pfid' "PricingSchedule" value (env w))
      as [r e'] eqn:Hr.
    rewrite (set_configuration_run _ _ _ _ _ _ Hr). cbn [snd].
    split; [|reflexivity]. apply trace_within_one. now exists pfid'. }
  intros result.
  apply (frame_bind _ write_frame_trans);
    [intros w; apply (frame_lift _ write_frame_refl)|intros nats_response].
  apply (frame_bind _ write_frame_trans).
  { destruct nats_response as [| b | q | str | l | nats];
      try (apply (frame_bind _ write_frame_trans);
           [intros w; apply update_odd_ones_status_quiet
           |intros u w; apply write_frame_refl]).
    destruct (py_eq_str (obj_get nats "status" (JStr "Unknown")) "Accepted");
      apply (frame_bind _ write_frame_trans);
      (intros w; apply update_odd_ones_status_quiet)
      || (intros u w; apply write_frame_refl). }
  intros counts.
  destruct (result_error result) as [error_msg|].
  - apply (frame_bind _ write_frame_trans).
    + intros w. apply update_odd_ones_status_quiet.
    + intros u w. apply write_frame_refl.
  - intros w. apply write_frame_refl.
Qed.

Lemma update_stations_loop_frame (ps : list string)
    (site_key : option string) :
  incl ps pfids ->
  forall (counts : nat * nat) (w : world),
    write_frame value pfids w
      (snd (update_stations_loop ps value site_key counts w)).
Proof.
  induction ps as [|p rest IH]; intros Hincl counts.
  - intros w. apply write_frame_refl.
  - cbn [update_stations_loop].
    apply (frame_bind _ write_frame_trans).
    + apply update_station_frame. apply Hincl. now left.
    + intros counts1. apply IH. intros q Hq. apply Hincl. now right.
Qed.

End Writes.

(** X19.  However a retry of a scope ends, whatever the operator answers
    and whatever the stations respond, every call it has made is the write
    of the scope's stored corrective schedule to a station that the scope
    records as pending, rejected or in error: no setting is read, no other
    value is written, no accepted station is written to, and a scope
    without an entry causes no call at all.  The progress file is left
    alone. *)
Theorem main_retry_site_only_retries {E : External} (sk : string)
    (w : world) :
  exists cs,
    calls (snd (main_retry_site sk w)) = calls w ++ cs
    /\ Forall (fun c =>
                 exists sd s,
                   dict_lookup sk (ledger_of w) = Some sd
                   /\ In s (outstanding sd)
                   /\ c = retry_call sd s)
         cs
    /\ progress_file (snd (main_retry_site sk w)) = progress_file w.
Proof.
  destruct (dict_lookup sk (ledger_of w)) as [sd|] eqn:Hsd.
  - assert (Hframe :
      write_frame (json_dumps (correct_schedule sd))
        (map pfid (outstanding sd)) w (snd (main_retry_site sk w))).
    { destruct (outstanding sd) as [|s0 l0] eqn:Hout.
      - destruct (stations sd) as [|s1 l1] eqn:Hst.
        + unfold main_retry_site, load_odd_ones_out.
          rewrite bind_assoc. unfold load_all_odd_ones_out at 1.
          unfold bind at 1. fold (ledger_of w). rewrite bind_ret_l, Hsd, Hst.
          apply write_frame_refl.
        + rewrite (main_retry_site_nothing_outstanding sk sd w Hsd);
            [|congruence|exact Hout].
          apply remove_completed_site_quiet.
      - rewrite (main_retry_site_prompt sk sd w Hsd); [|congruence].
        rewrite Hout. generalize w.
        apply (frame_bind _ (write_frame_trans _ _));
          [apply input_quiet|intros response].
        destruct (negb (is_yes response));
          [intros w0; apply write_frame_refl|].
        apply (frame_bind _ (write_frame_trans _ _)).
        + apply update_stations_loop_frame, incl_refl.
        + intros counts.
          destruct (Nat.eqb (snd counts) 0);
            [apply remove_completed_site_quiet
            |intros w0; apply write_frame_refl]. }
    destruct Hframe as ((cs & Hcs & Hall) & Hp).
    exists cs. split; [exact Hcs|]. split; [|exact Hp].
    apply Forall_forall. intros c Hc.
    rewrite Forall_forall in Hall. destruct (Hall c Hc) as (p & Hin & ->).
    apply in_map_iff in Hin. destruct Hin as (s & <- & Hs).
    now exists sd, s.
  - assert (Hrun : main_retry_site sk w = (Ret tt, w)).
    { unfold main_retry_site, load_odd_ones_out.
      rewrite bind_assoc. unfold load_all_odd_ones_out at 1.
      unfold bind at 1. fold (ledger_of w). now rewrite bind_ret_l, Hsd. }
    rewrite Hrun. exists []. rewrite app_nil_r. now repeat split.
Qed.

(** ** The entry point *)

(** X20.  Without a credential nothing is scanned and nothing is written:
    in retry mode, and for a scope with an organisation when no checkpoint
    is to be dealt with first (the scope has an account, or there is no
    progress file), a refused credential ends [main] with exit status 1
    right after the credential call, both files being as they were. *)
Theorem main_exits_without_credential {E : External} (main_retry : M unit)
    (argv : list string) (w : world) (e' : Env) :
  jwt_script (env w) = (false, e') ->
  In "--retry" argv
  \/ (2 <= length argv
      /\ truthy_str (acn (parse_pfid_input (scope_args argv))) = true
      /\ (mode (parse_pfid_input (scope_args argv)) <> Some "acn-only"
          \/ progress_file w = None)) ->
  main main_retry argv w = (Exit 1%Z, after_calls w e' [CallGetJwt]).
Proof.
  intros Hjwt Hcase.
  assert (Hj : get_jwt w = (Ret false, after_calls w e' [CallGetJwt])).
  { unfold get_jwt, external. now rewrite Hjwt. }
  unfold main.
  destruct (in_dec string_dec "--retry" argv) as [_|Hno].
  - now rewrite (bind_ret _ _ _ _ _ Hj).
  - destruct Hcase as [Hin|(Hlen & Hacn & Hsingle)]; [contradiction|].
    destruct (Nat.ltb (length argv) 2) eqn:Hlt;
      [apply Nat.ltb_lt in Hlt; lia|].
    fold (scope_args argv). rewrite Hacn. cbn [negb].
    assert (Hresume :
      (if opt_str_eqb (mode (parse_pfid_input (scope_args argv))) "acn-only"
       then
         resume_progress <- check_resume_progress ;;
         match resume_progress with
         | Some rp =>
             if negb (opt_eqb (p_acn_id rp)
                        (acn (parse_pfid_input (scope_args argv))))
             then delete_progress ;; ret None
             else if negb (opt_str_eqb (p_mode rp) "acn-only")
             then delete_progress ;; ret None
             else ret (Some rp)
         | None => ret None
         end
       else ret None) w
      = (Ret None, w)).
    { destruct (opt_str_eqb (mode (parse_pfid_input (scope_args argv)))
                  "acn-only") eqn:Hmode; [|reflexivity].
      destruct Hsingle as [Hne|Hnone].
      - exfalso. apply Hne.
        destruct (mode (parse_pfid_input (scope_args argv))) as [m|];
          [|discriminate].
        cbn [opt_str_eqb] in Hmode. apply String.eqb_eq in Hmode.
        now subst m.
      - unfold check_resume_progress, load_progress, bind.
        now rewrite Hnone. }
    rewrite (bind_ret _ _ _ _ _ Hresume).
    now rewrite (bind_ret _ _ _ _ _ Hj).
Qed.

Lemma main_exits_without_credential_witness :
  let w :=
    scripted_world (mk_script [] [] [] [] None false) None
      (Some [("0051-09", demo_site [demo_station "0051-09-02-01" "pending"])])
  in
  main (E := scripted) (ret tt) ["check"; "0051"; "09"] w
  = (Exit 1%Z, after_calls w (mk_script [] [] [] [] None false) [CallGetJwt]).
Proof.
  intros w.
  apply (main_exits_without_credential (E := scripted)).
  - reflexivity.
  - right. split; [simpl; lia|]. split; [reflexivity|]. left. discriminate.
Defined.

(** X21.  A sweep of an organisation that finds a checkpoint asks the
    operator once; when the operator declines, or the checkpoint is of
    another organisation or of another mode, the progress file is deleted
    and [main] goes on exactly as it would from a state without a
    checkpoint: the sweep starts afresh. *)
Theorem main_discards_checkpoint {E : External} (main_retry : M unit)
    (argv : list string) (a : string) (pk : progress) (w : world)
    (response : string) (e_a : Env) :
  ~ In "--retry" argv ->
  2 <= length argv ->
  parse_pfid_input (scope_args argv)
  = mk_pfid_info (Some a) None None None (Some "acn-only") ->
  a <> "" ->
  progress_file w = Some pk ->
  console_input (env w) = (response, e_a) ->
  is_yes response = false \/ p_acn_id pk <> Some a
  \/ p_mode pk <> Some "acn-only" ->
  main main_retry argv w
  = main main_retry argv (mk_world e_a None (odd_ones_file w) (calls w)).
Proof.
  intros Hretry Hlen Hparse Ha Hpk Hin Hwhy.
  unfold main.
  destruct (in_dec string_dec "--retry" argv) as [Hr|_]; [contradiction|].
  destruct (Nat.ltb (length argv) 2) eqn:Hlt;
    [apply Nat.ltb_lt in Hlt; lia|].
  fold (scope_args argv). rewrite Hparse.
  cbn [acn mode truthy_str opt_str_eqb].
  apply String.eqb_neq in Ha. rewrite Ha. cbn [negb].
  change (String.eqb "acn-only" "acn-only") with true. cbv iota.
  set (w' := mk_world e_a None (odd_ones_file w) (calls w)).
  set (resume :=
    resume_progress <- check_resume_progress ;;
    match resume_progress with
    | Some rp =>
        if negb (opt_eqb (p_acn_id rp) (Some a))
        then delete_progress ;; ret None
        else if negb (opt_str_eqb (p_mode rp) "acn-only")
        then delete_progress ;; ret None
        else ret (Some rp)
    | None => ret None
    end).
  assert (Hfresh : resume w' = (Ret None, w')) by reflexivity.
  assert (Hold : resume w = (Ret None, w')).
  { subst resume. unfold check_resume_progress, load_progress.
    rewrite !bind_assoc. unfold bind at 1. rewrite Hpk.
    assert (Hinput : input w = (Ret response, mk_world e_a (Some pk)
                                                (odd_ones_file w) (calls w))).
    { unfold input, ambient. now rewrite Hin, Hpk. }
    rewrite bind_assoc, (bind_ret _ _ _ _ _ Hinput).
    destruct (is_yes response) eqn:Hyes.
    - rewrite bind_ret_l. unfold opt_eqb.
      destruct (opt_string_dec (p_acn_id pk) (Some a)) as [Hacn|Hacn];
        cbn [negb]; [|reflexivity].
      destruct (opt_str_eqb (p_mode pk) "acn-only") eqn:Hmode;
        cbn [negb]; [|reflexivity].
      exfalso. destruct Hwhy as [H|[H|H]]; [discriminate|contradiction|].
      apply H. destruct (p_mode pk) as [m|]; [|discriminate].
      cbn [opt_str_eqb] in Hmode. apply String.eqb_eq in Hmode. now subst m.
    - reflexivity. }
  rewrite (bind_ret _ _ _ _ _ Hold), (bind_ret _ _ _ _ _ Hfresh).
  reflexivity.
Qed.

Lemma main_discards_checkpoint_witness :
  let pk := sweep_progress (Some "0077") 3 ["01"] [] None in
  let w :=
    scripted_world (mk_script ["yes"] [] [] [] (Some demo_rows) true)
      (Some pk) None in
  main (E := scripted) (ret tt) ["check"; "0051"] w
  = main (E := scripted) (ret tt) ["check"; "0051"]
      (scripted_world (mk_script [] [] [] [] (Some demo_rows) true) None
         None).
Proof.
  intros pk w.
  apply (main_discards_checkpoint (E := scripted) (ret tt) ["check"; "0051"]
           "0051" pk w "yes").
  - simpl. intuition discriminate.
  - simpl. lia.
  - reflexivity.
  - discriminate.
  - reflexivity.
  - reflexivity.
  - right. left. discriminate.
Defined.

(** ** Listing and removing *)

Lemma all_accepted_false (l : list station) :
  all_accepted l = false ->
  exists s, In s l /\ update_status s <> "accepted".
Proof.
  unfold all_accepted. induction l as [|s l IH]; cbn [forallb];
    [discriminate|].
  destruct (String.eqb (update_status s) "accepted") eqn:Hs; cbn [andb].
  - intros H. destruct (IH H) as (s' & Hin & Hne). exists s'. split; auto.
    now right.
  - intros _. exists s. split; [now left|]. now apply String.eqb_neq.
Qed.

Lemma has_outstanding_not_all_accepted (sk : string) (sd : site_data) :
  Forall known_status (stations sd) ->
  has_outstanding (sk, sd) = negb (all_accepted (stations sd)).
Proof.
  intros Hknown. unfold has_outstanding. cbn [snd].
  destruct (all_accepted (stations sd)) eqn:Hall; cbn [negb].
  - destruct (outstanding sd) as [|s l] eqn:Hout; [reflexivity|].
    assert (Hs : In s (outstanding sd)) by (rewrite Hout; now left).
    apply outstanding_In in Hs. destruct Hs as [Hin Hst].
    apply all_accepted_forall in Hall. rewrite Forall_forall in Hall.
    specialize (Hall s Hin). rewrite Hall in Hst.
    destruct Hst as [H|[H|H]]; discriminate.
  - apply all_accepted_false in Hall. destruct Hall as (s & Hin & Hne).
    rewrite Forall_forall in Hknown. specialize (Hknown s Hin).
    assert (Hs : In s (outstanding sd)).
    { apply outstanding_In. split; [exact Hin|].
      unfold known_status in Hknown. cbn [In] in Hknown.
      destruct Hknown as [H|[H|[H|[H|[]]]]]; auto. congruence. }
    destruct (outstanding sd); [destruct Hs|reflexivity].
Qed.

(** X22.  Listing and removal agree.  In a ledger whose keys are distinct,
    for a scope whose stations have statuses among the four that the script
    writes: the scope is listed among the sites with pending work iff
    [remove_completed_site] keeps its entry. *)
Theorem listed_iff_kept {E : External} (sk : string) (sd : site_data)
    (w : world) :
  NoDup (dict_keys (ledger_of w)) ->
  dict_lookup sk (ledger_of w) = Some sd ->
  Forall known_status (stations sd) ->
  listed_with_pending_work sk w <-> kept_by_removal sk w.
Proof.
  intros Hnd Hsd Hknown.
  assert (Hlisted : listed_with_pending_work sk w
                    <-> has_outstanding (sk, sd) = true).
  { unfold listed_with_pending_work, get_sites_with_pending_work, bind,
      load_all_odd_ones_out, ret. fold (ledger_of w).
    rewrite sites_with_work_loop_filter. cbn [app].
    destruct (sort_by_last_updated_spec
                (map (fun item => site_summary_of (fst item) (snd item))
                   (filter has_outstanding (ledger_of w)))) as [Hperm _].
    split.
    - intros (rows & w' & Hrun & Hin). injection Hrun as <- <-.
      apply in_map_iff in Hin. destruct Hin as (row & Hkey & Hrow).
      apply (Permutation_in _ Hperm) in Hrow. apply in_map_iff in Hrow.
      destruct Hrow as ([k sd'] & <- & Hitem).
      cbn [fst snd site_summary_of ss_site_key] in Hkey. subst k.
      apply filter_In in Hitem. destruct Hitem as [Hitem Hwork].
      assert (sd' = sd) as ->; [|exact Hwork].
      apply dict_lookup_in in Hsd.
      apply (in_split (sk, sd)) in Hsd. destruct Hsd as (before & tail & HL).
      rewrite HL in Hitem, Hnd.
      apply in_app_or in Hitem.
      unfold dict_keys in Hnd. rewrite map_app in Hnd. cbn [map fst] in Hnd.
      apply NoDup_remove_2 in Hnd.
      destruct Hitem as [Hitem|[Hitem|Hitem]].
      + exfalso. apply Hnd, in_or_app. left.
        now apply (in_map fst) in Hitem.
      + congruence.
      + exfalso. apply Hnd, in_or_app. right.
        now apply (in_map fst) in Hitem.
    - intros Hwork. eexists _, _. split; [reflexivity|].
      apply in_map_iff.
      exists (site_summary_of sk sd). split; [reflexivity|].
      apply (Permutation_in _ (Permutation_sym Hperm)).
      apply in_map_iff. exists (sk, sd). split; [reflexivity|].
      apply filter_In. split; [now apply dict_lookup_in|exact Hwork]. }
  rewrite Hlisted, (has_outstanding_not_all_accepted sk sd Hknown).
  unfold kept_by_removal, remove_completed_site, bind, load_all_odd_ones_out,
    dict_has.
  fold (ledger_of w). rewrite Hsd.
  destruct (all_accepted (stations sd)); cbn [negb snd].
  - unfold save_all_odd_ones_out, ledger_of at 1. cbn [snd odd_ones_file].
    rewrite dict_lookup_del_same. split; discriminate.
  - unfold ret. cbn [snd]. rewrite Hsd. split; reflexivity.
Qed.

Lemma listed_iff_kept_witness :
  let sd :=
    demo_site [demo_station "0051-09-02-01" "accepted";
               demo_station "0051-09-02-02" "rejected"] in
  let w := scripted_world quiet_jwt None (Some [("0051-09", sd)]) in
  listed_with_pending_work (E := scripted) "0051-09" w
  <-> kept_by_removal (E := scripted) "0051-09" w.
Proof.
  intros sd w.
  apply (listed_iff_kept (E := scripted) "0051-09" sd w).
  - repeat constructor. intros [].
  - reflexivity.
  - repeat apply Forall_cons; try apply Forall_nil;
      unfold known_status; simpl; auto.
Defined.

(** ** Retry mode *)

Section Menu.

Context {E : External}.

Variable py_int : string -> option Z.

Lemma input_run (w : world) (answer : string) (e1 : Env) :
  console_input (env w) = (answer, e1) ->
  input w = (Ret answer, after_calls w e1 []).
Proof.
  intros Hin. unfold input, ambient, after_calls.
  now rewrite Hin, app_nil_r.
Qed.

(** An answer that is rejected costs one turn of the loop. *)
Lemma menu_loop_rejected (fuel : nat) (rows : list site_summary) (w : world)
    (answer : string) (e1 : Env) :
  console_input (env w) = (answer, e1) ->
  rejected_answer py_int rows answer ->
  menu_loop py_int (S fuel) rows w
  = menu_loop py_int fuel rows (after_calls w e1 []).
Proof.
  intros Hin (Hq & Hall & Hnum). cbn [menu_loop].
  rewrite (bind_ret _ _ _ _ _ (input_run w answer e1 Hin)).
  apply String.eqb_neq in Hq. apply String.eqb_neq in Hall.
  rewrite Hq, Hall.
  destruct (py_int answer) as [i|]; [|reflexivity].
  cbv zeta. destruct (0 <=? i - 1)%Z eqn:Hpos; [|reflexivity].
  apply Z.leb_le in Hpos.
  assert (Hout : nth_error rows (Z.to_nat (i - 1)) = None).
  { apply nth_error_None. destruct Hnum as [Hlow|Hhigh]; lia. }
  now rewrite Hout.
Qed.

Lemma menu_loop_skips (fuel : nat) (rows : list site_summary) (n : nat) :
  forall (w : world) (answers : list string) (e1 : Env),
    answers_read n (env w) = (answers, e1) ->
    Forall (rejected_answer py_int rows) answers ->
    menu_loop py_int (n + fuel) rows w
    = menu_loop py_int fuel rows (after_calls w e1 []).
Proof.
  induction n as [|n IH]; intros w answers e1 Hread Hall.
  - cbn [answers_read] in Hread. injection Hread as <- <-.
    now rewrite after_calls_nil.
  - cbn [answers_read] in Hread.
    destruct (console_input (env w)) as [answer e0] eqn:Hin.
    destruct (answers_read n e0) as [more e2] eqn:Hmore.
    injection Hread as <- <-.
    inversion Hall as [|? ? Hrej Hrest]; subst.
    cbn [Nat.add].
    rewrite (menu_loop_rejected _ rows w answer e0 Hin Hrej).
    rewrite (IH (after_calls w e0 []) more e2 Hmore Hrest).
    now rewrite after_calls_app.
Qed.

(** X23.  The menu of retry mode.  With no site that has pending work,
    [main_retry] ends with exit status 0 without asking and without a
    call.  Otherwise it asks until an answer is [q], [all] or the number of
    a row, passing over the answers that are none of these; with fuel for
    these answers and one more, the first answer that counts decides:
    - [q] ends with exit status 0, nothing having been done;
    - [all] retries every listed site, in the order of the list;
    - the number [i] of a row retries the site of the [i]-th row. *)
Theorem main_retry_menu (rows : list site_summary) (w : world) :
  get_sites_with_pending_work w = (Ret rows, w) ->
  (rows = [] ->
   forall fuel, main_retry py_int fuel None w = (Exit 0%Z, w))
  /\ (rows <> [] ->
      forall (n fuel : nat) (answers : list string) (e1 e2 : Env)
             (choice : string),
        answers_read n (env w) = (answers, e1) ->
        Forall (rejected_answer py_int rows) answers ->
        console_input e1 = (choice, e2) ->
        (choice = "q" ->
         main_retry py_int (n + S fuel) None w
         = (Exit 0%Z, after_calls w e2 []))
        /\ (choice = "all" ->
            main_retry py_int (n + S fuel) None w
            = (retry_all rows ;; ret (Some tt)) (after_calls w e2 []))
        /\ (forall i row,
              choice <> "q" -> choice <> "all" ->
              py_int choice = Some i ->
              (1 <= i)%Z ->
              nth_error rows (Z.to_nat (i - 1)) = Some row ->
              main_retry py_int (n + S fuel) None w
              = (main_retry_site (ss_site_key row) ;; ret (Some tt))
                  (after_calls w e2 []))).
Proof.
  intros Hrows. split.
  - intros -> fuel. unfold main_retry.
    now rewrite (bind_ret _ _ _ _ _ Hrows).
  - intros Hne n fuel answers e1 e2 choice Hread Hrej Hin.
    assert (Hmenu :
      main_retry py_int (n + S fuel) None w
      = bind (menu_loop py_int (S fuel) rows)
          (fun choice =>
             match choice with
             | Some RetryAll => retry_all rows ;; ret (Some tt)
             | Some (RetrySite sk) => main_retry_site sk ;; ret (Some tt)
             | None => ret None
             end)
          (after_calls w e1 [])).
    { unfold main_retry. rewrite (bind_ret _ _ _ _ _ Hrows).
      destruct rows as [|row0 rows']; [congruence|].
      unfold bind at 1.
      rewrite (menu_loop_skips (S fuel) (row0 :: rows') n w answers e1
                 Hread Hrej).
      reflexivity. }
    assert (Hin' : input (after_calls w e1 [])
                   = (Ret choice, after_calls w e2 [])).
    { rewrite (input_run (after_calls w e1 []) choice e2 Hin).
      now rewrite after_calls_app. }
    rewrite Hmenu. cbn [menu_loop]. rewrite bind_assoc.
    rewrite (bind_ret _ _ _ _ _ Hin').
    split; [|split].
    + intros ->. reflexivity.
    + intros ->. reflexivity.
    + intros i row Hq Hall Hint Hpos Hrow.
      apply String.eqb_neq in Hq. apply String.eqb_neq in Hall.
      rewrite Hq, Hall, Hint. cbv zeta.
      assert (Hle : (0 <=? i - 1)%Z = true) by (apply Z.leb_le; lia).
      rewrite Hle, Hrow. reflexivity.
Qed.

End Menu.

Lemma main_retry_menu_witness :
  let w :=
    scripted_world (mk_script ["x"; "7"; "2"] [] [] [] None true) None
      (Some [("0051-09", demo_site [demo_station "0051-09-02-01" "pending"]);
             ("0051-12", demo_site [demo_station "0051-12-01-01" "rejected"])])
  in
  main_retry (E := scripted) scripted_int 5 None w
  = (main_retry_site (E := scripted) "0051-12" ;; ret (Some tt))
      (after_calls w (mk_script [] [] [] [] None true) []).
Proof.
  intros w.
  pose (rows :=
    [site_summary_of "0051-09"
       (demo_site [demo_station "0051-09-02-01" "pending"]);
     site_summary_of "0051-12"
       (demo_site [demo_station "0051-12-01-01" "rejected"])]).
  destruct (main_retry_menu (E := scripted) scripted_int rows w eq_refl)
    as [_ Hmenu].
  assert (Hne : rows <> []) by discriminate.
  destruct (Hmenu Hne 2 2 ["x"; "7"]
              (mk_script ["2"] [] [] [] None true)
              (mk_script [] [] [] [] None true) "2")
    as (_ & _ & Hrow).
  - reflexivity.
  - repeat apply Forall_cons; try apply Forall_nil.
    + repeat split; discriminate.
    + repeat split; try discriminate. right. reflexivity.
  - reflexivity.
  - apply (Hrow 2%Z
             (site_summary_of "0051-12"
                (demo_site [demo_station "0051-12-01-01" "rejected"])));
      try discriminate; reflexivity.
Defined.

Section RetryFrames.

Context {E : External}.

Variable L : ledger.

Lemma retry_frame_refl (w : world) : retry_frame L w w.
Proof.
  intros Hcov. split; [exact Hcov|]. split; [apply trace_within_refl|].
  reflexivity.
Qed.

Lemma retry_frame_trans (w1 w2 w3 : world) :
  retry_frame L w1 w2 -> retry_frame L w2 w3 -> retry_frame L w1 w3.
Proof.
  intros H12 H23 Hcov.
  destruct (H12 Hcov) as (C2 & T12 & P12).
  destruct (H23 C2) as (C3 & T23 & P23).
  split; [exact C3|].
  split; [exact (trace_within_trans _ _ _ _ T12 T23)|congruence].
Qed.

Lemma retry_frame_quiet (w w' : world) :
  calls w' = calls w ->
  progress_file w' = progress_file w ->
  (covered L (ledger_of w) -> covered L (ledger_of w')) ->
  retry_frame L w w'.
Proof.
  intros Hc Hp Hcov H. split; [now apply Hcov|].
  split; [|exact Hp]. exists []. rewrite app_nil_r. now split.
Qed.

(** A ledger of the same shape is covered by the same ledgers. *)
Lemma covered_skeleton (L1 L2 : ledger) :
  ledger_skeleton L2 = ledger_skeleton L1 ->
  covered L L1 -> covered L L2.
Proof.
  intros Hsk Hcov k sd' Hin.
  assert (Hitem :
    In (k, (sd_mode sd', saved_at sd', correct_schedule sd',
            map pfid (stations sd')))
      (ledger_skeleton L2)).
  { unfold ledger_skeleton. apply in_map_iff. now exists (k, sd'). }
  rewrite Hsk in Hitem. unfold ledger_skeleton in Hitem.
  apply in_map_iff in Hitem. destruct Hitem as ([k1 sd1] & Heq & Hin1).
  cbn [fst snd] in Heq. injection Heq as -> _ _ Hcs Hpf.
  destruct (Hcov k sd1 Hin1) as (sd & Hsd & Hcs1 & Hpf1).
  exists sd. split; [exact Hsd|]. split; congruence.
Qed.

Lemma update_odd_ones_status_retry_frame (pfid' status : string)
    (reason : json) (site_key : option string) (w : world) :
  retry_frame L w (snd (update_odd_ones_status pfid' status reason site_key w)).
Proof.
  unfold update_odd_ones_status, bind, load_all_odd_ones_out.
  fold (ledger_of w).
  set (keys := if truthy_str site_key then [fmt site_key]
               else dict_keys (ledger_of w)).
  destruct (update_sites_loop keys (ledger_of w) pfid' status reason "" "");
    [|apply retry_frame_refl].
  unfold now, ambient.
  destruct (datetime_now (env w)) as [t1 e1].
  cbn [env progress_file odd_ones_file calls].
  destruct (datetime_now e1) as [t2 e2].
  cbn [env progress_file odd_ones_file calls].
  destruct (update_sites_loop keys (ledger_of w) pfid' status reason t1 t2)
    as [L1|] eqn:H1.
  - apply retry_frame_quiet; try reflexivity.
    apply covered_skeleton. unfold ledger_of at 1. cbn [snd odd_ones_file].
    now apply update_sites_loop_skeleton in H1.
  - now apply retry_frame_quiet.
Qed.

Lemma remove_completed_site_retry_frame (sk : string) (w : world) :
  retry_frame L w (snd (remove_completed_site sk w)).
Proof.
  unfold remove_completed_site, bind, load_all_odd_ones_out.
  fold (ledger_of w).
  destruct (dict_lookup sk (ledger_of w)) as [sd|];
    [|apply retry_frame_refl].
  destruct (all_accepted (stations sd)); [|apply retry_frame_refl].
  apply retry_frame_quiet; try reflexivity.
  intros Hcov k sd' Hin. apply Hcov.
  unfold ledger_of at 1 in Hin. cbn [snd odd_ones_file] in Hin.
  unfold dict_del in Hin. now apply filter_In in Hin.
Qed.

Lemma input_retry_frame (w : world) : retry_frame L w (snd (input w)).
Proof.
  unfold input, ambient. destruct (console_input (env w)).
  now apply retry_frame_quiet.
Qed.

Lemma update_station_retry_frame (pfid' value : string)
    (site_key : option string) :
  stored_write L (CallSetConfiguration pfid' "PricingSchedule" value) ->
  forall (counts : nat * nat) (w : world),
    retry_frame L w (snd (update_station pfid' value site_key counts w)).
Proof.
  intros Hstored [accepted_count rejected_count]. unfold update_station.
  apply (frame_bind _ retry_frame_trans).
  { intros w.
    destruct (curl_set_configuration pfid' "PricingSchedule" value (env w))
      as [r e'] eqn:Hr.
    rewrite (set_configuration_run _ _ _ _ _ _ Hr). cbn [snd].
    intros Hcov. split; [exact Hcov|]. split; [|reflexivity].
    now apply trace_within_one. }
  intros result.
  apply (frame_bind _ retry_frame_trans);
    [intros w; apply (frame_lift _ retry_frame_refl)|intros nats_response].
  apply (frame_bind _ retry_frame_trans).
  { destruct nats_response as [| b | q | str | l | nats];
      try (apply (frame_bind _ retry_frame_trans);
           [intros w; apply update_odd_ones_status_retry_frame
           |intros u w; apply retry_frame_refl]).
    destruct (py_eq_str (obj_get nats "status" (JStr "Unknown")) "Accepted");
      apply (frame_bind _ retry_frame_trans);
      (intros w; apply update_odd_ones_status_retry_frame)
      || (intros u w; apply retry_frame_refl). }
  intros counts.
  destruct (result_error result) as [error_msg|].
  - apply (frame_bind _ retry_frame_trans).
    + intros w. apply update_odd_ones_status_retry_frame.
    + intros u w. apply retry_frame_refl.
  - intros w. apply retry_frame_refl.
Qed.

Lemma update_stations_loop_retry_frame (ps : list string) (value : string)
    (site_key : option string) :
  (forall p, In p ps ->
     stored_write L (CallSetConfiguration p "PricingSchedule" value)) ->
  forall (counts : nat * nat) (w : world),
    retry_frame L w (snd (update_stations_loop ps value site_key counts w)).
Proof.
  induction ps as [|p rest IH]; intros Hstored counts.
  - intros w. apply retry_frame_refl.
  - cbn [update_stations_loop].
    apply (frame_bind _ retry_frame_trans).
    + apply update_station_retry_frame. apply Hstored. now left.
    + intros counts1. apply IH. intros q Hq. apply Hstored. now right.
Qed.

Lemma main_retry_site_retry_frame (sk : string) (w : world) :
  retry_frame L w (snd (main_retry_site sk w)).
Proof.
  destruct (dict_lookup sk (ledger_of w)) as [sd|] eqn:Hsd.
  - destruct (outstanding sd) as [|s0 l0] eqn:Hout.
    + destruct (stations sd) as [|s1 l1] eqn:Hst.
      * unfold main_retry_site, load_odd_ones_out.
        rewrite bind_assoc. unfold load_all_odd_ones_out at 1.
        unfold bind at 1. fold (ledger_of w). rewrite bind_ret_l, Hsd, Hst.
        apply retry_frame_refl.
      * rewrite (main_retry_site_nothing_outstanding sk sd w Hsd);
          [|congruence|exact Hout].
        apply remove_completed_site_retry_frame.
    + rewrite (main_retry_site_prompt sk sd w Hsd); [|congruence].
      intros Hcov.
      assert (Hstored : forall p, In p (map pfid (outstanding sd)) ->
                stored_write L
                  (CallSetConfiguration p "PricingSchedule"
                     (json_dumps (correct_schedule sd)))).
      { intros p Hp. apply in_map_iff in Hp. destruct Hp as (s & <- & Hs).
        apply outstanding_In in Hs. destruct Hs as [Hs _].
        destruct (Hcov sk sd (dict_lookup_in _ _ _ Hsd))
          as (sd0 & Hsd0 & Hcs & Hpf).
        assert (Hp0 : In (pfid s) (map pfid (stations sd0)))
          by (rewrite <- Hpf; now apply in_map).
        apply in_map_iff in Hp0. destruct Hp0 as (s0' & Hpfid & Hs0).
        exists sk, sd0, s0'. repeat split; auto.
        unfold retry_call. now rewrite Hpfid, Hcs. }
      revert Hcov. fold (retry_frame L w). generalize w.
      apply (frame_bind _ retry_frame_trans);
        [apply input_retry_frame|intros response].
      destruct (negb (is_yes response));
        [intros w0; apply retry_frame_refl|].
      apply (frame_bind _ retry_frame_trans).
      * now apply update_stations_loop_retry_frame.
      * intros counts.
        destruct (Nat.eqb (snd counts) 0);
          [apply remove_completed_site_retry_frame
          |intros w0; apply retry_frame_refl].
  - assert (Hrun : main_retry_site sk w = (Ret tt, w)).
    { unfold main_retry_site, load_odd_ones_out.
      rewrite bind_assoc. unfold load_all_odd_ones_out at 1.
      unfold bind at 1. fold (ledger_of w). now rewrite bind_ret_l, Hsd. }
    rewrite Hrun. apply retry_frame_refl.
Qed.

Lemma retry_all_retry_frame (rows : list site_summary) :
  forall w, retry_frame L w (snd (retry_all rows w)).
Proof.
  induction rows as [|row rest IH]; cbn [retry_all].
  - intros w. apply retry_frame_refl.
  - apply (frame_bind _ retry_frame_trans).
    + apply main_retry_site_retry_frame.
    + intros u. exact IH.
Qed.

Lemma menu_loop_retry_frame (py_int : string -> option Z) (fuel : nat)
    (rows : list site_summary) :
  forall w, retry_frame L w (snd (menu_loop py_int fuel rows w)).
Proof.
  induction fuel as [|fuel IH]; cbn [menu_loop].
  - intros w. apply retry_frame_refl.
  - apply (frame_bind _ retry_frame_trans); [apply input_retry_frame|].
    intros choice.
    destruct (String.eqb choice "q"); [intros w; apply retry_frame_refl|].
    destruct (String.eqb choice "all"); [intros w; apply retry_frame_refl|].
    destruct (py_int choice) as [i|]; [|exact IH].
    cbv zeta. destruct (0 <=? i - 1)%Z; [|exact IH].
    destruct (nth_error rows (Z.to_nat (i - 1))); [|exact IH].
    intros w. apply retry_frame_refl.
Qed.

Lemma main_retry_retry_frame (py_int : string -> option Z) (fuel : nat)
    (site_key : option string) :
  forall w, retry_frame L w (snd (main_retry py_int fuel site_key w)).
Proof.
  unfold main_retry. destruct site_key as [sk|].
  - apply (frame_bind _ retry_frame_trans).
    + apply main_retry_site_retry_frame.
    + intros u w. apply retry_frame_refl.
  - apply (frame_bind _ retry_frame_trans).
    + intros w. unfold get_sites_with_pending_work, bind,
        load_all_odd_ones_out, ret. apply retry_frame_refl.
    + intros [|row rows]; [intros w; apply retry_frame_refl|].
      apply (frame_bind _ retry_frame_trans);
        [apply menu_loop_retry_frame|].
      intros [[|sk]|].
      * apply (frame_bind _ retry_frame_trans).
        -- apply retry_all_retry_frame.
        -- intros u w. apply retry_frame_refl.
      * apply (frame_bind _ retry_frame_trans).
        -- apply main_retry_site_retry_frame.
        -- intros u w. apply retry_frame_refl.
      * intros w. apply retry_frame_refl.
Qed.

End RetryFrames.

(** X24.  Retry mode only replays what the ledger holds.  Whatever the
    operator answers, whatever the stations respond, however many answers
    are read and however the run ends, every external call of [main_retry]
    is the write of the corrective schedule that the ledger stored with a
    scope at the start to a station that it recorded under that scope: no
    setting is read and no dashboard or directory is fetched.  Every entry
    of the ledger at the end was there at the start, with the same
    corrective schedule and the same stations, and the progress file is as
    it was. *)
Theorem main_retry_replays_ledger {E : External}
    (py_int : string -> option Z) (fuel : nat) (site_key : option string)
    (w : world) :
  exists cs,
    calls (snd (main_retry py_int fuel site_key w)) = calls w ++ cs
    /\ Forall (fun c =>
                 exists k sd s,
                   In (k, sd) (ledger_of w) /\ In s (stations sd)
                   /\ c = retry_call sd s)
         cs
    /\ (forall k sd',
          In (k, sd')
            (ledger_of (snd (main_retry py_int fuel site_key w))) ->
          exists sd,
            In (k, sd) (ledger_of w)
            /\ correct_schedule sd' = correct_schedule sd
            /\ map pfid (stations sd') = map pfid (stations sd))
    /\ progress_file (snd (main_retry py_int fuel site_key w))
       = progress_file w.
Proof.
  destruct (main_retry_retry_frame (ledger_of w) py_int fuel site_key w)
    as (Hcov & (cs & Hcs & Hall) & Hp).
  { intros k sd Hin. now exists sd. }
  exists cs. split; [exact Hcs|]. split; [exact Hall|].
  split; [exact Hcov|exact Hp].
Qed.

(** ** A run on one scope *)

(** X25.  A run on a scope below the organisation writes its checkpoint
    before the scan, so that the progress file holds the scope while the
    stations are read.  When the scan returns without a deviating station,
    the run ends normally with the ledger file as it was at the start and
    no progress file, and its calls are those of the scan; when it returns
    deviating stations, the run goes on with the round of corrective
    writes for them, and then deletes the progress file. *)
Theorem main_pfid_single_scope {E : External} (info : pfid_info) (w : world)
    (t : string) (e0 : Env) (found : list scan_result) (w1 : world) :
  mode info <> Some "acn-only" ->
  datetime_now (env w) = (t, e0) ->
  process_stations (acn info) (acc info) (acg info) (acs info) None
    (mk_world e0
       (Some (mk_progress (mode info) (acn info) (acc info) (acg info)
                (acs info) 0 [] [] (Some t)))
       (odd_ones_file w) (calls w))
  = (Ret found, w1) ->
  progress_file w1
  = Some (mk_progress (mode info) (acn info) (acc info) (acg info)
            (acs info) 0 [] [] (Some t))
  /\ (fst (print_results found) = [] ->
      main_pfid info None w
      = (Ret tt, mk_world (env w1) None (odd_ones_file w) (calls w1)))
  /\ (fst (print_results found) <> [] ->
      main_pfid info None w
      = (prompt_update_odd_ones (fst (print_results found))
           (snd (print_results found)) false (acn info) (acc info)
           (acg info) (acs info) (mode info) ;;
         delete_progress) w1).
Proof.
  intros Hmode Hnow Hscan.
  pose proof (process_stations_appends _ _ _ _ _ _ _ _ Hscan)
    as (_ & Hp1 & Ho1 & _).
  cbn [progress_file odd_ones_file] in Hp1, Ho1.
  split; [exact Hp1|].
  assert (Hrun :
    main_pfid info None w
    = (let '(odd_ones, correct) := print_results found in
       match odd_ones with
       | _ :: _ =>
           prompt_update_odd_ones odd_ones correct false (acn info)
             (acc info) (acg info) (acs info) (mode info)
       | [] => ret tt
       end ;;
       delete_progress) w1).
  { unfold main_pfid.
    assert (Hsingle : opt_str_eqb (mode info) "acn-only" = false).
    { destruct (mode info) as [m|]; [|reflexivity]. cbn [opt_str_eqb].
      apply String.eqb_neq. congruence. }
    rewrite Hsingle. rewrite !bind_assoc.
    assert (Ht : now w = (Ret t, mk_world e0 (progress_file w)
                                   (odd_ones_file w) (calls w))).
    { unfold now, ambient. now rewrite Hnow. }
    rewrite (bind_ret _ _ _ _ _ Ht). rewrite bind_assoc.
    unfold save_progress at 1. unfold bind at 1.
    cbn [env progress_file odd_ones_file calls].
    rewrite (bind_ret _ _ _ _ _ Hscan). reflexivity. }
  rewrite Hrun.
  destruct (print_results found) as [odd_ones correct]. cbn [fst snd].
  split.
  - intros ->. unfold bind, ret, delete_progress. now rewrite Ho1.
  - intros Hne. destruct odd_ones as [|r rest]; [congruence|reflexivity].
Qed.

Lemma main_pfid_single_scope_witness :
  let info := parse_pfid_input ["0051"; "09"] in
  let w :=
    scripted_world
      (mk_script []
         [Completed "enabled"; Completed "schedule-half"] []
         [Some (JObj [("a", mk_station_entry (Some "0051-09-02-01")
                              (Some "LiteON 48A"))])]
         None true)
      None None in
  exists w',
    main_pfid (E := scripted) info None w = (Ret tt, w')
    /\ progress_file w' = None
    /\ odd_ones_file w' = None.
Proof.
  intros info w.
  destruct (process_stations (E := scripted) (acn info) (acc info) (acg info)
              (acs info) None
              (mk_world (E := scripted) (env w)
                 (Some (mk_progress (mode info) (acn info) (acc info)
                          (acg info) (acs info) 0 [] []
                          (Some "2024-05-01T10:00:00")))
                 (odd_ones_file w) (calls w)))
    as [o w1] eqn:Hscan.
  assert (Ho : o = Ret [station_result "0051-09-02-01" (Some "0051")
                          (Some "09") half_schedule (Some true) []]).
  { apply (f_equal fst) in Hscan. vm_compute in Hscan. now subst o. }
  subst o.
  destruct (main_pfid_single_scope (E := scripted) info w
              "2024-05-01T10:00:00" (env w)
              [station_result "0051-09-02-01" (Some "0051") (Some "09")
                 half_schedule (Some true) []]
              w1)
    as (_ & Hclean & _).
  - discriminate.
  - reflexivity.
  - exact Hscan.
  - eexists. split; [apply Hclean; reflexivity|]. split; reflexivity.
Defined.

(** ** A round of writes for a batch saved under an inferred key *)

Lemma append_proper_neq (a b : string) : b <> "" -> a <> (a ++ b)%string.
Proof.
  intros Hb. induction a as [|ch a IH]; simpl.
  - congruence.
  - intros Heq. injection Heq as Heq. contradiction.
Qed.

Section Unrecorded.

Context {E : External}.

Lemma update_odd_ones_status_unrecorded (pfid' status : string)
    (reason : json) (sk : string) (w : world) :
  sk <> "" ->
  dict_lookup sk (ledger_of w) = None ->
  update_odd_ones_status pfid' status reason (Some sk) w = (Ret tt, w).
Proof.
  intros Hsk Hnone. apply update_odd_ones_status_no_match.
  cbn [truthy_str fmt]. apply String.eqb_neq in Hsk. rewrite Hsk. cbn [negb].
  apply update_sites_loop_absent.
  intros k sd [<-|[]] Hsd. congruence.
Qed.

(** A write for a station whose scope has no entry: the call is made and
    counted, and nothing is recorded. *)
Lemma update_station_unrecorded (pfid' value sk : string)
    (counts : nat * nat) (w : world) :
  sk <> "" ->
  writes_return_objects ->
  dict_lookup sk (ledger_of w) = None ->
  exists counts' e',
    update_station pfid' value (Some sk) counts w
    = (Ret counts',
       after_calls w e' [CallSetConfiguration pfid' "PricingSchedule" value]).
Proof.
  intros Hsk Hobj Hnone. destruct counts as [accepted_count rejected_count].
  destruct (curl_set_configuration pfid' "PricingSchedule" value (env w))
    as [r e1] eqn:Hset.
  destruct (Hobj pfid' "PricingSchedule" value (env w)) as [d Hdec].
  rewrite Hset in Hdec. cbn [fst] in Hdec.
  unfold update_station.
  rewrite (bind_ret _ _ _ _ _ (set_configuration_run _ _ _ _ _ _ Hset)).
  rewrite Hdec. cbn [py_get].
  rewrite (bind_ret _ _ _ _ _ (lift_ok _ _ _ eq_refl)).
  set (w0 := after_calls w e1 _).
  assert (Hquiet : forall st rs,
            update_odd_ones_status pfid' st rs (Some sk) w0 = (Ret tt, w0)).
  { intros st rs. now apply update_odd_ones_status_unrecorded. }
  assert (Hend : forall counts1 : nat * nat,
    (match result_error (JObj d) return M (nat * nat) with
     | Some error_msg =>
         update_odd_ones_status pfid' "error" error_msg (Some sk) ;;
         ret counts1
     | None => ret counts1
     end) w0 = (Ret counts1, w0)).
  { intros counts1. destruct (result_error (JObj d)) as [msg|];
      [|reflexivity].
    now rewrite (bind_ret _ _ _ _ _ (Hquiet "error" msg)). }
  destruct (obj_get d "natsResponse" (JObj [])) as [| b | q | str | l | nats].
  1-5: eexists _, e1; rewrite bind_assoc, (bind_ret _ _ _ _ _ (Hquiet _ _)),
         bind_ret_l; apply Hend.
  destruct (py_eq_str (obj_get nats "status" (JStr "Unknown")) "Accepted");
    eexists _, e1;
    rewrite bind_assoc, (bind_ret _ _ _ _ _ (Hquiet _ _)), bind_ret_l;
    apply Hend.
Qed.

Lemma update_stations_loop_unrecorded (value sk : string)
    (pfids : list string) :
  sk <> "" ->
  writes_return_objects ->
  forall (counts : nat * nat) (w : world),
    dict_lookup sk (ledger_of w) = None ->
    exists counts' e',
      update_stations_loop pfids value (Some sk) counts w
      = (Ret counts',
         after_calls w e'
           (map (fun p => CallSetConfiguration p "PricingSchedule" value)
              pfids)).
Proof.
  intros Hsk Hobj.
  induction pfids as [|p rest IH]; intros counts w Hnone.
  - exists counts, (env w). cbn [update_stations_loop map].
    now rewrite after_calls_nil.
  - destruct (update_station_unrecorded p value sk counts w Hsk Hobj Hnone)
      as (counts1 & e1 & Hone).
    destruct (IH counts1
                (after_calls w e1
                   [CallSetConfiguration p "PricingSchedule" value]))
      as (counts2 & e2 & Hrest); [exact Hnone|].
    exists counts2, e2. cbn [update_stations_loop map].
    rewrite (bind_ret _ _ _ _ _ Hone), Hrest.
    now rewrite after_calls_app.
Qed.

(** X27.  A round of writes called with an organisation but with neither
    an account nor a mode, for a batch whose stations are all of the
    account [c].  The batch is saved under the inferred key of the
    account, but the statuses are reported to the key of the organisation.
    So when the ledger has no entry under the organisation, the operator
    confirming and the write call returning objects, every station of the
    batch is written to, and the ledger at the end is the one left by the
    save: every station of the batch is still pending, whatever the
    stations answered. *)
Theorem prompt_update_odd_ones_inferred_key (odd_ones correct
    : list scan_result) (a c : string) (w : world) (t1 t2 response : string)
    (e1 e2 e3 : Env) :
  a <> "" ->
  odd_ones <> [] ->
  (forall r, In r odd_ones -> r_acc_id r = Some c) ->
  dict_lookup a (ledger_of w) = None ->
  datetime_now (env w) = (t1, e1) ->
  datetime_now e1 = (t2, e2) ->
  console_input e2 = (response, e3) ->
  is_yes response = true ->
  writes_return_objects ->
  exists w1,
    prompt_update_odd_ones odd_ones correct false (Some a) None None None
      None w
    = (Ret tt, w1)
    /\ calls w1
       = calls w
         ++ map (corrective_call (json_dumps (get_correct_schedule correct)))
              odd_ones
    /\ ledger_of w1
       = dict_set (a ++ "-" ++ c)%string
           (mk_site_data "acn-acc" (Some a) (Some c) None None t1 t2
              (get_correct_schedule correct)
              (map station_of_result odd_ones))
           (ledger_of w)
    /\ progress_file w1 = progress_file w.
Proof.
  intros Ha Hne Hacc Hnone Ht1 Ht2 Hin Hyes Hobj.
  set (L1 := dict_set (a ++ "-" ++ c)%string
               (mk_site_data "acn-acc" (Some a) (Some c) None None t1 t2
                  (get_correct_schedule correct)
                  (map station_of_result odd_ones))
               (ledger_of w)).
  assert (Hsave :
    save_odd_ones_out odd_ones (get_correct_schedule correct) (Some a) None
      None None None w
    = (Ret tt, mk_world e2 (progress_file w) (Some L1) (calls w))).
  { unfold save_odd_ones_out.
    assert (Hlen : Nat.eqb (length odd_ones) 0 = false)
      by (destruct odd_ones; [congruence|reflexivity]).
    rewrite Hlen. cbn [is_none opt_str_eqb negb andb].
    rewrite (nodup_constant opt_string_dec (Some c)).
    - unfold bind, load_all_odd_ones_out, now, ambient. fold (ledger_of w).
      rewrite Ht1. cbn [env progress_file odd_ones_file calls].
      rewrite Ht2. cbn [env progress_file odd_ones_file calls].
      reflexivity.
    - destruct odd_ones; [congruence|discriminate].
    - intros y Hy. apply in_map_iff in Hy. destruct Hy as (r & <- & Hr).
      now apply Hacc. }
  set (w0 := mk_world e3 (progress_file w) (Some L1) (calls w)).
  assert (Hinput : input (mk_world e2 (progress_file w) (Some L1) (calls w))
                   = (Ret response, w0)).
  { unfold input, ambient. cbn [env]. now rewrite Hin. }
  assert (Hnone0 : dict_lookup a (ledger_of w0) = None).
  { subst w0 L1. unfold ledger_of at 1. cbn [odd_ones_file].
    rewrite dict_lookup_set_other; [exact Hnone|].
    apply append_proper_neq. discriminate. }
  destruct (update_stations_loop_unrecorded
              (json_dumps (get_correct_schedule correct)) a
              (map r_pfid odd_ones) Ha Hobj (0, 0) w0 Hnone0)
    as (counts & e4 & Hloop).
  eexists. split.
  - unfold prompt_update_odd_ones. cbv beta iota zeta.
    rewrite (bind_ret _ _ _ _ _ Hsave).
    rewrite bind_assoc, (bind_ret _ _ _ _ _ Hinput), bind_ret_l.
    rewrite Hyes. cbn [truthy_str]. apply String.eqb_neq in Ha.
    rewrite Ha. cbn [negb].
    change (get_site_key (Some a) None None None None) with (Some a).
    rewrite (bind_ret _ _ _ _ _ Hloop). reflexivity.
  - subst w0. cbn [after_calls calls progress_file odd_ones_file].
    split; [now rewrite map_map|]. split; reflexivity.
Qed.

End Unrecorded.

Lemma prompt_update_odd_ones_inferred_key_witness :
  let batch := [demo_result "0051-09-02-01" "09"] in
  let w :=
    scripted_writes_world
      (mk_script ["yes"] [] [Completed "accepted"] [] None true) None in
  exists w1 sd,
    prompt_update_odd_ones (E := scripted_writes) batch [] false
      (Some "0051") None None None None w
    = (Ret tt, w1)
    /\ calls w1
       = [CallSetConfiguration "0051-09-02-01" "PricingSchedule" "<json>"]
    /\ dict_lookup "0051-09" (ledger_of w1) = Some sd
    /\ map update_status (stations sd) = ["pending"].
Proof.
  intros batch w.
  destruct (prompt_update_odd_ones_inferred_key (E := scripted_writes) batch
              [] "0051" "09" w "2024-05-01T10:00:00" "2024-05-01T10:00:00"
              "yes"
              (mk_script ["yes"] [] [Completed "accepted"] [] None true)
              (mk_script ["yes"] [] [Completed "accepted"] [] None true)
              (mk_script [] [] [Completed "accepted"] [] None true))
    as (w1 & Hrun & Hcalls & Hledger & _).
  - discriminate.
  - discriminate.
  - intros r [<-|[]]. reflexivity.
  - reflexivity.
  - reflexivity.
  - reflexivity.
  - reflexivity.
  - reflexivity.
  - apply scripted_writes_return_objects.
  - exists w1. eexists. split; [exact Hrun|]. split; [exact Hcalls|].
    rewrite Hledger. split; reflexivity.
Defined.
